(** * mcp-stocks-info-server: the tiered data-access layer

    A shallow embedding of the Go services, repositories, provider clients and
    cache backends of the server, followed by the properties of the
    specification that are settled against it.

    Conventions of the embedding:
    - a Go [int]/[int64] is a [Z]; a [float64] is a primitive binary64 [float],
      compared with [PrimFloat.ltb] (so NaN is unordered, as in Go);
    - a Go [string] is a [string] of bytes;
    - a [time.Time] is an instant (nanoseconds since the Unix epoch) together
      with the UTC offset of its location;
    - a Go function returning [(T, error)] is a state-passing function
      returning a [result T] and the new state; side effects made before an
      error is returned stay in the state;
    - a Go interface is a type class over the state of its implementation;
    - a pure Go function that can panic returns an [option], [None] being the
      panic. *)

From Stdlib Require Import ZArith Floats Ascii String Sorting.Sorted DecimalString.
From stdpp Require Import base option list gmap strings sorting.

#[local] Set Warnings "-register-all".

Local Open Scope string_scope.
Local Open Scope list_scope.
Local Open Scope Z_scope.

(** ** Go runtime: errors, results, the state-and-error monad *)

(** Go [error] values that the modelled code creates or receives. *)
Inductive error : Type :=
  | errorString (msg : string)               (* fmt.Errorf without %w *)
  | wrapError (msg : string) (err : error)   (* fmt.Errorf("...: %w", err) *)
  | redisNil                                 (* redis.Nil *)
  | mongoErrNoDocuments                      (* mongo.ErrNoDocuments *)
  | mongoDuplicateKey                        (* E11000 duplicate key *)
  | backendError (msg : string).             (* transport or driver failure *)

(** The pair [(T, error)] a Go function returns. *)
Inductive result (A : Type) : Type :=
  | Ok (a : A)
  | Fail (err : error).
Arguments Ok {A} a.
Arguments Fail {A} err.

(** A Go method over a receiver whose mutable state is [S]. *)
Definition M (S A : Type) : Type := S → result A * S.

Definition mpure {S A} (a : A) : M S A := λ s, (Ok a, s).
Definition mfail {S A} (e : error) : M S A := λ s, (Fail e, s).
Definition mbind' {S A B} (f : A → M S B) (m : M S A) : M S B :=
  λ s, match m s with
       | (Ok a, s') => f a s'
       | (Fail e, s') => (Fail e, s')
       end.
(** [err := f(); if err != nil { ... }]: the error is inspected, not propagated. *)
Definition try {S A} (m : M S A) : M S (result A) :=
  λ s, let '(r, s') := m s in (Ok r, s').

#[global] Instance M_ret {S} : MRet (M S) := λ A, @mpure S A.
#[global] Instance M_bind {S} : MBind (M S) := λ A B, @mbind' S A B.

(** ** time.Time *)

Record Time : Type := mkTime {
  unixNano : Z;    (* the instant *)
  zoneOffset : Z;  (* seconds east of UTC of the time's location *)
}.

Definition Hour : Z := 3600 * 1000000000.
Definition Minute : Z := 60 * 1000000000.
Definition Second : Z := 1000000000.
Definition Millisecond : Z := 1000000.

Module time.
(** [t.Before(u)]: compares the instants. *)
Definition Before (t u : Time) : bool := unixNano t <? unixNano u.
(** [t.Add(d)] *)
Definition Add (t : Time) (d : Z) : Time :=
  mkTime (unixNano t + d) (zoneOffset t).
(** [t.Truncate(d)] for [d > 0]: rounds the absolute time down to a multiple
    of [d] since the zero time; the zero time (January 1, year 1, 00:00 UTC)
    is a whole number of days before the Unix epoch, so for the only
    duration the code passes, 24 hours, this is rounding the Unix time down. *)
Definition Truncate (t : Time) (d : Z) : Time :=
  mkTime (unixNano t - unixNano t `mod` d) (zoneOffset t).

(** Days since 1970-01-01 of the calendar date shown in the time's location. *)
Definition localDay (t : Time) : Z :=
  (unixNano t `div` 1000000000 + zoneOffset t) `div` 86400.

(** Proleptic Gregorian date of a day number (days since 1970-01-01). *)
Definition civil (days : Z) : Z * Z * Z :=
  let z := days + 719468 in
  let era := z `div` 146097 in
  let doe := z - era * 146097 in
  let yoe := (doe - doe `div` 1460 + doe `div` 36524 - doe `div` 146096) `div` 365 in
  let doy := doe - (365 * yoe + yoe `div` 4 - yoe `div` 100) in
  let mp := (5 * doy + 2) `div` 153 in
  let d := doy - (153 * mp + 2) `div` 5 + 1 in
  let m := if mp <? 10 then mp + 3 else mp - 9 in
  let y := yoe + era * 400 + (if m <=? 2 then 1 else 0) in
  (y, m, d).

Definition Year (t : Time) : Z := (civil (localDay t)).1.1.
Definition Month (t : Time) : Z := (civil (localDay t)).1.2.
Definition Day (t : Time) : Z := (civil (localDay t)).2.

Definition decimal (z : Z) : string := NilZero.string_of_int (Z.to_int z).
Definition pad2 (z : Z) : string :=
  if z <? 10 then "0" +:+ decimal z else decimal z.
Definition pad4 (z : Z) : string :=
  if z <? 10 then "000" +:+ decimal z
  else if z <? 100 then "00" +:+ decimal z
  else if z <? 1000 then "0" +:+ decimal z
  else decimal z.
(** [t.Format("2006-01-02")] (years 0..9999). *)
Definition FormatDate (t : Time) : string :=
  pad4 (Year t) +:+ "-" +:+ pad2 (Month t) +:+ "-" +:+ pad2 (Day t).
End time.

(** ** internal/core/domain/models *)

Module models.
Record Stock : Type := mkStock {
  Ticker : string;
  Name : string;
  Price : float;
  Change : float;
  ChangePerc : float;
  Volume : Z;
  UpdatedAt : Time;
}.

Record StockQuote : Type := mkStockQuote {
  q_Ticker : string;
  q_Open : float;
  q_High : float;
  q_Low : float;
  q_Close : float;
  q_Volume : Z;
  q_Date : Time;
  q_MarketCapBln : float;
  q_PE : float;
  q_DividendYield : float;
  q_Sector : string;
  q_TradingSession : string;
}.

Record News : Type := mkNews {
  ID : string;
  Title : string;
  Description : string;
  Content : string;
  URL : string;
  Source : string;
  PublishedAt : Time;
  CreatedAt : Time;
  Tags : list string;
  RelatedTo : list string;
}.

(** The zero [time.Time]: January 1, year 1, 00:00:00 UTC. *)
Definition zeroTime : Time := mkTime (-62135596800 * 1000000000) 0.
(** [models.Stock{}] *)
Definition zeroStock : Stock := mkStock "" "" 0%float 0%float 0%float 0 zeroTime.
End models.
Import models.

(** ** internal/core/ports/repositories: the interfaces the services hold *)

Module ports.
Class StockRepository (R : Type) : Type := {
  GetStock : string → M R Stock;
  GetStocks : list string → M R (list Stock);
}.

Class NewsRepository (R : Type) : Type := {
  GetNews : string → M R News;
  GetNewsByDate : Time → M R (list News);
  GetNewsForToday : M R (list News);
  GetNewsByKeyword : string → M R (list News);
  GetNewsByTicker : string → M R (list News);
}.
End ports.

(** ** The bubble sort both services spell out

    [n := len(xs)
     for i := 0; i < n-1; i++ {
       for j := 0; j < n-i-1; j++ {
         if less(xs[j], xs[j+1]) { xs[j], xs[j+1] = xs[j+1], xs[j] } } }]

    The four copies in the source differ only in the comparison [less]. *)

Section BubbleSort.
Context {A : Type} (less : A → A → bool).

(** The body of the inner loop at index [j]. An index out of range would
    panic in Go; the loop bounds keep [j+1 < n], so that case is not reached. *)
Definition swapIfLess (j : nat) (xs : list A) : list A :=
  match xs !! j, xs !! (j + 1)%nat with
  | Some a, Some b =>
      if less a b then <[j := b]> (<[(j + 1)%nat := a]> xs) else xs
  | _, _ => xs
  end.

(** [for j := j; j < j + steps; j++ { body }] *)
Fixpoint innerLoop (steps j : nat) (xs : list A) : list A :=
  match steps with
  | O => xs
  | S steps' => innerLoop steps' (S j) (swapIfLess j xs)
  end.

(** [for i := i; i < i + passes; i++ { inner loop up to n-i-1 }] *)
Fixpoint outerLoop (passes i n : nat) (xs : list A) : list A :=
  match passes with
  | O => xs
  | S passes' => outerLoop passes' (S i) n (innerLoop (n - i - 1) 0 xs)
  end.

Definition bubbleSort (xs : list A) : list A :=
  let n := length xs in outerLoop (n - 1) 0 n xs.

(** [x] may stand before [y] in the sorted slice: the loop would not swap them. *)
Definition inOrder (x y : A) : Prop := less x y = false.

(** The inner loop seen as a traversal that carries one element along. *)
Fixpoint bubble (k : nat) (l : list A) : list A :=
  match k, l with
  | S k', a :: b :: t =>
      if less a b then b :: bubble k' (a :: t) else a :: bubble k' (b :: t)
  | _, _ => l
  end.
End BubbleSort.

(** [if limit <= 0 { limit = 10 }] *)
Definition defaultLimit (limit : Z) : Z := if limit <=? 0 then 10 else limit.

(** [if limit > len(xs) { limit = len(xs) }; return xs[:limit]] *)
Definition topN {A} (limit : Z) (xs : list A) : list A :=
  let limit := if limit >? Z.of_nat (length xs) then Z.of_nat (length xs) else limit in
  take (Z.to_nat limit) xs.

(** ** internal/core/services: StockServiceImpl *)

(** [containsIgnoreCase(s, substr string) bool]: the body assigns its
    arguments to themselves and returns true. *)
Definition containsIgnoreCase (s substr : string) : bool := true.

Module StockServiceImpl.
Section StockServiceImpl.
Context {R : Type} `{!ports.StockRepository R}.

Definition GetStockInfo (ticker : string) : M R Stock :=
  if bool_decide (ticker = "") then mfail (errorString "тикер не может быть пустым")
  else ports.GetStock ticker.

Definition GetMOEXTopGainers (limit : Z) : M R (list Stock) :=
  let limit := defaultLimit limit in
  stocks ← ports.GetStocks [];
  let stocks := bubbleSort (λ a b, PrimFloat.ltb (ChangePerc a) (ChangePerc b)) stocks in
  mret (topN limit stocks).

Definition GetMOEXTopLosers (limit : Z) : M R (list Stock) :=
  let limit := defaultLimit limit in
  stocks ← ports.GetStocks [];
  let stocks := bubbleSort (λ a b, PrimFloat.ltb (ChangePerc b) (ChangePerc a)) stocks in
  mret (topN limit stocks).

Definition GetMOEXTopVolume (limit : Z) : M R (list Stock) :=
  let limit := defaultLimit limit in
  stocks ← ports.GetStocks [];
  let stocks := bubbleSort (λ a b, Volume a <? Volume b) stocks in
  mret (topN limit stocks).

Definition SearchStocks (query : string) : M R (list Stock) :=
  if bool_decide (query = "") then mfail (errorString "поисковый запрос не может быть пустым")
  else
    stocks ← ports.GetStocks [];
    let queryLower := query in
    mret (filter (λ stock, containsIgnoreCase (Ticker stock) queryLower
                           || containsIgnoreCase (models.Name stock) queryLower) stocks).
End StockServiceImpl.
End StockServiceImpl.

(** ** internal/core/services: NewsServiceImpl *)

(** [containsTickerInNews(news, ticker)]: the related tickers are compared
    exactly, then title, description and content go through
    [containsIgnoreCase]. *)
Definition containsTickerInNews (news : News) (ticker : string) : bool :=
  if existsb (λ t, bool_decide (t = ticker)) (RelatedTo news) then true
  else containsIgnoreCase (Title news) ticker
       || containsIgnoreCase (Description news) ticker
       || containsIgnoreCase (Content news) ticker.

Module NewsServiceImpl.
Section NewsServiceImpl.
Context {R : Type} `{!ports.NewsRepository R}.

Definition GetNewsById (id : string) : M R News :=
  if bool_decide (id = "") then mfail (errorString "id новости не может быть пустым")
  else ports.GetNews id.

Definition GetTodayNews : M R (list News) := ports.GetNewsForToday.

Definition GetRecentNews (limit : Z) : M R (list News) :=
  let limit := defaultLimit limit in
  news ← ports.GetNewsForToday;
  let news := bubbleSort (λ a b, time.Before (PublishedAt a) (PublishedAt b)) news in
  mret (topN limit news).

Definition SearchNewsByKeyword (keyword : string) : M R (list News) :=
  if bool_decide (keyword = "") then mfail (errorString "ключевое слово не может быть пустым")
  else ports.GetNewsByKeyword keyword.

Definition GetNewsForTicker (ticker : string) : M R (list News) :=
  if bool_decide (ticker = "") then mfail (errorString "тикер не может быть пустым")
  else ports.GetNewsByTicker ticker.

(** The loop state of [GetNewsForMultipleTickers]: [result] and [seen]. *)
Definition dedupState : Type := list News * gmap string bool.

(** [for _, ticker := range tickers { if containsTickerInNews(news, ticker) {
       if !seen[news.ID] { result = append(result, news); seen[news.ID] = true }
       break } }] *)
Fixpoint tickersLoop (news : News) (tickers : list string) (st : dedupState) : dedupState :=
  match tickers with
  | [] => st
  | ticker :: rest =>
      if containsTickerInNews news ticker then
        if negb (default false (st.2 !! ID news))
        then (st.1 ++ [news], <[ID news := true]> st.2)
        else st
      else tickersLoop news rest st
  end.

Definition GetNewsForMultipleTickers (tickers : list string) : M R (list News) :=
  if bool_decide (length tickers = 0%nat)
  then mfail (errorString "список тикеров не может быть пустым")
  else
    allNews ← ports.GetNewsForToday;
    mret (foldl (λ st news, tickersLoop news tickers st) ([], ∅) allNews).1.
End NewsServiceImpl.
End NewsServiceImpl.

(** ** Go's [strings] package, as far as the clients use it *)

Module GoStrings.
(** [strings.Split(s, sep)] for a one-byte separator, which is what every
    call in the source passes ("/", "?", "#", "."). The result is never
    empty: a string without the separator is returned as its only element. *)
Fixpoint Split (s : string) (sep : ascii) : list string :=
  match s with
  | EmptyString => [""]
  | String c rest =>
      if Ascii.eqb c sep then "" :: Split rest sep
      else match Split rest sep with
           | seg :: segs => String c seg :: segs
           | [] => [String c ""]
           end
  end.

(** [strings.Contains(s, substr)] *)
Fixpoint Contains (s substr : string) : bool :=
  String.prefix substr s ||
  match s with
  | EmptyString => false
  | String _ rest => Contains rest substr
  end.
End GoStrings.

(** ** pkg/cache *)

Module cache.
(** The types of the values the modelled code caches. *)
Inductive kind : Type := KStock | KStocks | KNews | KNewsList.

Definition typeOf (k : kind) : Type :=
  match k with
  | KStock => Stock
  | KStocks => list Stock
  | KNews => News
  | KNewsList => list News
  end.

(** An [interface{}] holding one of them. *)
Definition value : Type := { k : kind & typeOf k }.

(** [type Cache interface]: [Get(ctx, key, dest) error] returns the new
    content of [dest] when the error is nil. The clock reading stands for
    the moment of the call. *)
Class Cache (C : Type) : Type := {
  Get : ∀ k : kind, Time → string → typeOf k → M C (typeOf k);
  Set' : ∀ k : kind, Time → string → typeOf k → Z → M C ();   (* Set(ctx, key, value, ttl) error *)
}.
End cache.

(** ** Libraries and servers outside the repository *)

(** A decoded JSON document ([interface{}] after [json.Unmarshal]); an object
    keeps one binding per key. *)
Inductive jvalue : Type :=
  | JNull
  | JBool (b : bool)
  | JNumber (f : float)
  | JString (s : string)
  | JArray (items : list jvalue)
  | JObject (fields : list (string * jvalue)).

(** One element of [articles] in a NewsAPI response. *)
Record Article : Type := mkArticle {
  a_SourceName : string;
  a_Title : string;
  a_Description : string;
  a_URL : string;
  a_PublishedAt : Time;
  a_Content : string;
}.

(** What the embedding takes from outside the repository without modelling
    its inside: the JSON codec, number parsing, Unicode case mapping, and the
    regular expressions of the document store. *)
Class External : Type := {
  json_text : Type;   (* a marshalled value *)
  json_Marshal : ∀ k : cache.kind, cache.typeOf k → result json_text;
  json_Unmarshal : ∀ k : cache.kind, json_text → cache.typeOf k → result (cache.typeOf k);
  (* json.Unmarshal(body, &responseData) with responseData map[string]interface{} *)
  json_DecodeObject : string → result (list (string * jvalue));
  (* json.Unmarshal(body, &newsResponse), the articles of the response *)
  json_DecodeArticles : string → result (list Article);
  strconv_ParseFloat : string → result float;
  strings_ToLower : string → string;
  strings_ToUpper : string → string;
  (* {"$regex": pattern, "$options": "i"} applied to a field *)
  regex_MatchI : string → string → bool;
}.

(** *** RedisCache *)
Module RedisCache.
Section RedisCache.
Context `{!External}.

(** The Redis server as the client sees it: entries with their expiry
    instant (0: none), or an outage that makes every command fail. *)
Record t : Type := mk {
  entries : gmap string (json_text * Z);
  outage : option error;
}.

Definition live (now : Time) (e : json_text * Z) : bool :=
  (e.2 =? 0) || (unixNano now <? e.2).

(** [c.client.Get(ctx, key).Result()] *)
Definition clientGet (now : Time) (key : string) : M t json_text :=
  λ c, match outage c with
       | Some err => (Fail err, c)
       | None =>
           match entries c !! key with
           | Some e => if live now e then (Ok e.1, c) else (Fail redisNil, c)
           | None => (Fail redisNil, c)
           end
       end.

(** The expiration go-redis puts into a [SET] command for a positive ttl:
    [PX] with the whole milliseconds of the ttl ([formatMs]: 1 for a ttl
    under a millisecond) when the ttl is under a second or not a whole number
    of seconds ([usePrecise]), else [EX] with its seconds. *)
Definition KeepTTL : Z := -1.

Definition usePrecise (dur : Z) : bool :=
  (dur <? Second) || negb (dur `mod` Second =? 0).

Definition formatMs (dur : Z) : Z :=
  if (0 <? dur) && (dur <? Millisecond) then 1 else dur `div` Millisecond.

Definition formatSec (dur : Z) : Z :=
  if (0 <? dur) && (dur <? Second) then 1 else dur `div` Second.

Definition sentTTL (ttl : Z) : Z :=
  if usePrecise ttl then formatMs ttl * Millisecond else formatSec ttl * Second.

(** [c.client.Set(ctx, key, data, ttl).Err()]: only a positive ttl sends an
    expiration, [sentTTL] from the instant of the command; [KeepTTL] sends
    [KEEPTTL], which leaves the key the expiry it has; any other ttl sets the
    key without expiry. *)
Definition clientSet (now : Time) (key : string) (data : json_text) (ttl : Z) : M t () :=
  λ c, match outage c with
       | Some err => (Fail err, c)
       | None =>
           let expiry :=
             if 0 <? ttl then unixNano now + sentTTL ttl
             else if ttl =? KeepTTL then
               match entries c !! key with
               | Some e => if live now e then e.2 else 0
               | None => 0
               end
             else 0 in
           (Ok (), mk (<[key := (data, expiry)]> (entries c)) (outage c))
       end.

Definition Get (k : cache.kind) (now : Time) (key : string) (dest : cache.typeOf k)
  : M t (cache.typeOf k) :=
  r ← try (clientGet now key);
  match r with
  | Fail err =>
      match err with
      | redisNil => mret dest
      | _ => mfail err
      end
  | Ok val =>
      match json_Unmarshal k val dest with
      | Ok dest' => mret dest'
      | Fail err => mfail err
      end
  end.

Definition Set' (k : cache.kind) (now : Time) (key : string) (v : cache.typeOf k) (ttl : Z)
  : M t () :=
  match json_Marshal k v with
  | Fail err => mfail err
  | Ok data => clientSet now key data ttl
  end.

(** [c.client.Del(ctx, keys...).Err()] *)
Definition clientDel (keys : list string) : M t () :=
  λ c, match outage c with
       | Some err => (Fail err, c)
       | None => (Ok (), mk (foldl (λ m key, delete key m) (entries c) keys) (outage c))
       end.

Definition Delete (now : Time) (key : string) : M t () := clientDel [key].

(** [c.client.Exists(ctx, key).Result()] counts the live keys among its
    arguments; [Exists] answers [exists > 0]. *)
Definition Exists (now : Time) (key : string) : M t bool :=
  λ c, match outage c with
       | Some err => (Fail err, c)
       | None =>
           (Ok match entries c !! key with
               | Some e => live now e
               | None => false
               end, c)
       end.

(** [c.client.Keys(ctx, pattern).Result()]: the live keys the glob pattern
    matches. The matching of Redis glob patterns is the parameter [glob]. *)
Definition clientKeys (glob : string → string → bool) (now : Time) (pattern : string)
  : M t (list string) :=
  λ c, match outage c with
       | Some err => (Fail err, c)
       | None =>
           (Ok (map_to_list (filter (λ kv, live now kv.2 ∧ glob pattern kv.1) (entries c))).*1, c)
       end.

Definition Invalidate (glob : string → string → bool) (now : Time) (pattern : string)
  : M t () :=
  keys ← clientKeys glob now pattern;
  if (0 <? length keys)%nat then clientDel keys else mret ().

#[export] Instance RedisCache_Cache : cache.Cache t := {| cache.Get := Get; cache.Set' := Set' |}.
End RedisCache.
End RedisCache.

(** *** InMemoryCache (patrickmn/go-cache) *)
Module InMemoryCache.
Record t : Type := mk {
  items : gmap string (cache.value * Z);   (* value and expiry instant, 0: none *)
  defaultExpiration : Z;
}.

(** [c.client.Get(key)]: an entry past its expiry is not found. *)
Definition clientGet (now : Time) (key : string) (c : t) : option cache.value :=
  match items c !! key with
  | Some (v, expiry) =>
      if (0 <? expiry) && (expiry <? unixNano now) then None else Some v
  | None => None
  end.

(** [c.client.Set(key, value, ttl)]: a zero ttl means the default one, and
    a ttl that is still not positive means no expiry. *)
Definition clientSet (now : Time) (key : string) (v : cache.value) (ttl : Z) (c : t) : t :=
  let d := if ttl =? 0 then defaultExpiration c else ttl in
  let expiry := if 0 <? d then unixNano now + d else 0 in
  mk (<[key := (v, expiry)]> (items c)) (defaultExpiration c).

Section InMemoryCache.
Context `{!External}.

Definition Get (k : cache.kind) (now : Time) (key : string) (dest : cache.typeOf k)
  : M t (cache.typeOf k) :=
  λ c, match clientGet now key c with
       | None => (Ok dest, c)
       | Some (existT k' val) =>
           match json_Marshal k' val with
           | Fail err => (Fail err, c)
           | Ok data =>
               match json_Unmarshal k data dest with
               | Ok dest' => (Ok dest', c)
               | Fail err => (Fail err, c)
               end
           end
       end.

Definition Set' (k : cache.kind) (now : Time) (key : string) (v : cache.typeOf k) (ttl : Z)
  : M t () :=
  λ c, (Ok (), clientSet now key (existT k v) ttl c).

(** [c.client.Delete(key)] *)
Definition Delete (now : Time) (key : string) : M t () :=
  λ c, (Ok (), mk (delete key (items c)) (defaultExpiration c)).

(** [_, found := c.client.Get(key)] *)
Definition Exists (now : Time) (key : string) : M t bool :=
  λ c, (Ok (bool_decide (is_Some (clientGet now key c))), c).

(** [c.client.Items()]: a copy of the entries that are not past their expiry. *)
Definition clientItems (now : Time) (c : t) : gmap string (cache.value * Z) :=
  filter (λ kv, ¬ (0 < kv.2.2 ∧ kv.2.2 < unixNano now)) (items c).

(** [for k := range items { if len(k) >= len(pattern) && k[:len(pattern)] == pattern
       { c.client.Delete(k) } }] *)
Definition Invalidate (now : Time) (pattern : string) : M t () :=
  λ c, (Ok (),
        foldl (λ c k, if String.prefix pattern k
                      then mk (delete k (items c)) (defaultExpiration c) else c)
          c (map_to_list (clientItems now c)).*1).

#[export] Instance InMemoryCache_Cache : cache.Cache t := {| cache.Get := Get; cache.Set' := Set' |}.
End InMemoryCache.
End InMemoryCache.

(** ** The document store (MongoDB collections) *)

Module mongo.
(** A collection: its documents in insertion order, or an outage that makes
    every operation fail. Documents are the structs as they were written;
    the server holds their times as BSON datetimes. *)
Record Collection (D : Type) : Type := mk {
  docs : list D;
  outage : option error;
}.
Arguments mk {D} docs outage.
Arguments docs {D} c.
Arguments outage {D} c.

Section mongo.
Context {D : Type}.

(** [coll.FindOne(ctx, filter).Decode(&doc)] *)
Definition FindOne (filter : D → bool) : M (Collection D) D :=
  λ c, match outage c with
       | Some err => (Fail err, c)
       | None =>
           match find filter (docs c) with
           | Some d => (Ok d, c)
           | None => (Fail mongoErrNoDocuments, c)
           end
       end.

(** [coll.Find(ctx, filter)] followed by [cursor.All] *)
Definition Find (filter : D → bool) : M (Collection D) (list D) :=
  λ c, match outage c with
       | Some err => (Fail err, c)
       | None => (Ok (List.filter filter (docs c)), c)
       end.

(** [coll.InsertOne(ctx, doc)]. [id doc] is the [_id] the struct carries,
    which must be new in the collection; without one the driver generates a
    fresh [_id]. *)
Definition InsertOne (id : D → option string) (doc : D) : M (Collection D) () :=
  λ c, match outage c with
       | Some err => (Fail err, c)
       | None =>
           let taken :=
             match id doc with
             | Some i => existsb (λ d, bool_decide (id d = Some i)) (docs c)
             | None => false
             end in
           if taken then (Fail mongoDuplicateKey, c)
           else (Ok (), mk (docs c ++ [doc]) (outage c))
       end.

Fixpoint replaceFirst (filter : D → bool) (doc : D) (l : list D) : list D :=
  match l with
  | [] => []
  | d :: rest => if filter d then doc :: rest else d :: replaceFirst filter doc rest
  end.

(** [coll.ReplaceOne(ctx, filter, doc)]: the first match is replaced; no
    match is not an error. *)
Definition ReplaceOne (filter : D → bool) (doc : D) : M (Collection D) () :=
  λ c, match outage c with
       | Some err => (Fail err, c)
       | None => (Ok (), mk (replaceFirst filter doc (docs c)) (outage c))
       end.
End mongo.
End mongo.

(** The collection "stocks" receives both [Stock] and [StockQuote] documents. *)
Inductive StockDoc : Type :=
  | DocStock (s : Stock)
  | DocQuote (q : StockQuote).

(** The field [ticker] of a document, as the filter [{"ticker": t}] reads it. *)
Definition docTicker (d : StockDoc) : string :=
  match d with
  | DocStock s => Ticker s
  | DocQuote q => q_Ticker q
  end.

(** [Decode(&stock)]: fields are matched by their bson names. *)
Definition decodeStock (d : StockDoc) : Stock :=
  match d with
  | DocStock s => s
  | DocQuote q => mkStock (q_Ticker q) "" 0%float 0%float 0%float (q_Volume q) zeroTime
  end.

(** ** The world the repositories act on *)

Inductive HTTPResult : Type :=
  | BadRequest (err : error)                                    (* http.NewRequestWithContext fails *)
  | TransportFailure (err : error)                              (* httpClient.Do fails *)
  | Response (status : Z) (statusLine : string) (body : result string).

(** Input and output actions, recorded in the order they are attempted. *)
Inductive Event : Type :=
  | EvCacheGet (key : string)
  | EvCacheSet (key : string) (ttl : Z)
  | EvStocksFindOne (ticker : string)
  | EvStocksFind
  | EvStocksInsertOne (doc : StockDoc)
  | EvStocksReplaceOne (ticker : string) (doc : StockDoc)
  | EvNewsFindOne (id : string)
  | EvNewsFind
  | EvNewsInsertOne (doc : News)
  | EvNewsReplaceOne (id : string) (doc : News)
  | EvHTTP (url : string) (params : list (string * string)).

Record World (C : Type) : Type := mkWorld {
  w_cache : C;                                   (* the cache client all components share *)
  w_stocks : mongo.Collection StockDoc;          (* db.Collection("stocks") *)
  w_news : mongo.Collection News;                (* db.Collection("news") *)
  w_upstream : string → list (string * string) → HTTPResult;   (* the two HTTP providers *)
  w_now : Time;                                  (* time.Now() during the call *)
  w_log : list Event;                            (* the actions attempted so far *)
}.
Arguments mkWorld {C}.
Arguments w_cache {C}.
Arguments w_stocks {C}.
Arguments w_news {C}.
Arguments w_upstream {C}.
Arguments w_now {C}.
Arguments w_log {C}.

Section WorldOps.
Context `{!External} {C : Type} `{!cache.Cache C}.

Definition timeNow : M (World C) Time := λ w, (Ok (w_now w), w).

(** The same world at another reading of the clock. *)
Definition atTime (t : Time) (w : World C) : World C :=
  mkWorld (w_cache w) (w_stocks w) (w_news w) (w_upstream w) t (w_log w).

Definition cacheGet (k : cache.kind) (key : string) (dest : cache.typeOf k)
  : M (World C) (cache.typeOf k) :=
  λ w, let '(r, c) := cache.Get k (w_now w) key dest (w_cache w) in
       (r, mkWorld c (w_stocks w) (w_news w) (w_upstream w) (w_now w)
             (w_log w ++ [EvCacheGet key])).

Definition cacheSet (k : cache.kind) (key : string) (v : cache.typeOf k) (ttl : Z)
  : M (World C) () :=
  λ w, let '(r, c) := cache.Set' k (w_now w) key v ttl (w_cache w) in
       (r, mkWorld c (w_stocks w) (w_news w) (w_upstream w) (w_now w)
             (w_log w ++ [EvCacheSet key ttl])).

(** An operation on the collection "stocks". *)
Definition onStocks {A} (ev : Event) (op : M (mongo.Collection StockDoc) A) : M (World C) A :=
  λ w, let '(r, c) := op (w_stocks w) in
       (r, mkWorld (w_cache w) c (w_news w) (w_upstream w) (w_now w) (w_log w ++ [ev])).

(** An operation on the collection "news". *)
Definition onNews {A} (ev : Event) (op : M (mongo.Collection News) A) : M (World C) A :=
  λ w, let '(r, c) := op (w_news w) in
       (r, mkWorld (w_cache w) (w_stocks w) c (w_upstream w) (w_now w) (w_log w ++ [ev])).

(** [http.NewRequestWithContext] and [httpClient.Do] *)
Definition httpDo (url : string) (params : list (string * string)) : M (World C) HTTPResult :=
  λ w, (Ok (w_upstream w url params),
        mkWorld (w_cache w) (w_stocks w) (w_news w) (w_upstream w) (w_now w)
          (w_log w ++ [EvHTTP url params])).
End WorldOps.

(** ** internal/adapters/repositories/apis: the provider clients *)

(** [generateNewsID(url)]. [strings.Split] never returns an empty slice, so
    the indexing [parts[len(parts)-1]] and [...[0]] always finds an element. *)
Definition generateNewsID (now : Time) (url : string) : string :=
  let parts := GoStrings.Split url "/" in
  if (0 <? length parts)%nat then
    let lastPart := default "" (last parts) in
    let lastPart := default "" (head (GoStrings.Split lastPart "?")) in
    let lastPart := default "" (head (GoStrings.Split lastPart "#")) in
    let lastPart := default "" (head (GoStrings.Split lastPart ".")) in
    lastPart
  else "news_" +:+ time.decimal (unixNano now `div` 1000000000).

(** [m[key]] on a decoded JSON object. *)
Definition lookupField (key : string) (fields : list (string * jvalue)) : option jvalue :=
  snd <$> find (λ kv, bool_decide (kv.1 = key)) fields.

Section Parsing.
Context `{!External}.

Definition extractTags (text : string) : list string :=
  let keywords := [
    "акции"; "облигации"; "биржа"; "MOEX"; "инвестиции"; "дивиденды";
    "экономика"; "финансы"; "рынок"; "котировки"; "банк"; "валюта" ] in
  let textLower := strings_ToLower text in
  List.filter (λ keyword, GoStrings.Contains textLower (strings_ToLower keyword)) keywords.

Definition extractTickers (text : string) : list string :=
  let popularTickers := [
    "SBER"; "GAZP"; "LKOH"; "GMKN"; "ROSN"; "NVTK"; "TATN";
    "MTSS"; "MGNT"; "YNDX"; "FIVE"; "POLY"; "ALRS"; "VTBR" ] in
  let textUpper := strings_ToUpper text in
  List.filter (λ ticker, GoStrings.Contains textUpper ticker) popularTickers.

(** The body of the loop over [newsResponse.Articles]. *)
Definition articleToNews (now : Time) (article : Article) : News :=
  let text := a_Title article +:+ " " +:+ a_Description article in
  mkNews (generateNewsID now (a_URL article)) (a_Title article) (a_Description article)
    (a_Content article) (a_URL article) (a_SourceName article) (a_PublishedAt article)
    now (extractTags text) (extractTickers text).

(** [strconv.ParseFloat] of a string cell; any other cell, or a parse
    error, leaves the field as it was. *)
Definition floatCell (cells : list jvalue) (i : nat) (old : float) : float :=
  match cells !! i with
  | Some (JString s) =>
      match strconv_ParseFloat s with
      | Ok f => f
      | Fail _ => old
      end
  | _ => old
  end.

Definition parseStockFromResponse (now : Time) (data : list (string * jvalue))
    (ticker : string) : Stock :=
  let stock := mkStock ticker "" 0%float 0%float 0%float 0 now in
  match lookupField "securities" data with
  | Some (JObject securities) =>
      match lookupField "data" securities with
      | Some (JArray (JArray stockData :: _)) =>
          if (5 <? length stockData)%nat then
            let name := match stockData !! 2%nat with
                        | Some (JString name) => name
                        | _ => Name stock
                        end in
            mkStock ticker name
              (floatCell stockData 3 (Price stock))
              (floatCell stockData 4 (Change stock))
              (floatCell stockData 5 (ChangePerc stock))
              0 now
          else stock
      | _ => stock
      end
  | _ => stock
  end.
End Parsing.

Module MOEXAPIClient.
Record t : Type := mk {
  baseURL : string;
  cacheExpiry : Z;
  apiKey : string;
  useCache : bool;
}.

Section MOEXAPIClient.
Context `{!External} {C : Type} `{!cache.Cache C}.

Definition GetStock (m : t) (ticker : string) : M (World C) Stock :=
  let cacheKey := "moex:stock:" +:+ ticker in
  cached ← (if useCache m then
              r ← try (cacheGet cache.KStock cacheKey zeroStock);
              mret (match r with
                    | Ok cachedStock =>
                        if bool_decide (Ticker cachedStock ≠ "") then Some cachedStock else None
                    | Fail _ => None
                    end)
            else mret None);
  match cached with
  | Some cachedStock => mret cachedStock
  | None =>
      let url := baseURL m +:+ "/securities/" +:+ ticker +:+ ".json" in
      let url := if bool_decide (apiKey m ≠ "") then url +:+ "?apikey=" +:+ apiKey m else url in
      resp ← httpDo url [];
      match resp with
      | BadRequest err => mfail (wrapError "не удалось создать запрос" err)
      | TransportFailure err => mfail (wrapError "ошибка выполнения запроса" err)
      | Response status statusLine body =>
          if negb (status =? 200)
          then mfail (errorString ("ошибка API MOEX: " +:+ statusLine))
          else
            match body with
            | Fail err => mfail (wrapError "ошибка чтения ответа" err)
            | Ok body =>
                match json_DecodeObject body with
                | Fail err => mfail (wrapError "ошибка при разборе JSON" err)
                | Ok responseData =>
                    now ← timeNow;
                    let stock := parseStockFromResponse now responseData ticker in
                    (if useCache m
                     then try (cacheSet cache.KStock cacheKey stock (cacheExpiry m)) ;; mret ()
                     else mret ()) ;;
                    mret stock
                end
            end
      end
  end.

(** [for _, ticker := range tickers { ...; stocks = append(stocks, *stock) }] *)
Fixpoint GetStocksFrom (m : t) (tickers : list string) (stocks : list Stock)
  : M (World C) (list Stock) :=
  match tickers with
  | [] => mret stocks
  | ticker :: rest =>
      r ← try (GetStock m ticker);
      match r with
      | Fail err => mfail (wrapError ("ошибка получения информации о " +:+ ticker) err)
      | Ok stock => GetStocksFrom m rest (stocks ++ [stock])
      end
  end.

Definition GetStocks (m : t) (tickers : list string) : M (World C) (list Stock) :=
  GetStocksFrom m tickers [].
End MOEXAPIClient.
End MOEXAPIClient.

Module NewsAPIClient.
Record t : Type := mk {
  baseURL : string;
  cacheExpiry : Z;
  apiKey : string;
  useCache : bool;
  sources : list string;
}.

Section NewsAPIClient.
Context `{!External} {C : Type} `{!cache.Cache C}.

(** The part the two fetchers share: the cache look-up under [cacheKey],
    the request to [/everything], the conversion of the articles, and the
    cache write. *)
Definition fetch (n : t) (cacheKey : string) (params : list (string * string))
  : M (World C) (list News) :=
  cached ← (if useCache n then
              r ← try (cacheGet cache.KNewsList cacheKey []);
              mret (match r with
                    | Ok cachedNews =>
                        if (0 <? length cachedNews)%nat then Some cachedNews else None
                    | Fail _ => None
                    end)
            else mret None);
  match cached with
  | Some cachedNews => mret cachedNews
  | None =>
      let apiURL := baseURL n +:+ "/everything" in
      let params :=
        if (0 <? length (sources n))%nat
        then params ++ [("sources", String.concat "," (sources n))]
        else params in
      resp ← httpDo apiURL params;
      match resp with
      | BadRequest err => mfail (wrapError "не удалось создать запрос" err)
      | TransportFailure err => mfail (wrapError "ошибка выполнения запроса" err)
      | Response status statusLine body =>
          if negb (status =? 200)
          then mfail (errorString ("ошибка API новостей: " +:+ statusLine))
          else
            match body with
            | Fail err => mfail (wrapError "ошибка чтения ответа" err)
            | Ok body =>
                match json_DecodeArticles body with
                | Fail err => mfail (wrapError "ошибка при разборе JSON" err)
                | Ok articles =>
                    now ← timeNow;
                    let news := articleToNews now <$> articles in
                    (if useCache n && (0 <? length news)%nat
                     then try (cacheSet cache.KNewsList cacheKey news (cacheExpiry n)) ;; mret ()
                     else mret ()) ;;
                    mret news
                end
            end
      end
  end.

Definition GetTodayNews (n : t) : M (World C) (list News) :=
  now ← timeNow;
  let today := time.FormatDate now in
  let cacheKey := "news:date:" +:+ today in
  fetch n cacheKey
    [("q", "финансы OR экономика OR рынок OR биржа OR акции OR MOEX");
     ("from", today); ("to", today); ("language", "ru");
     ("sortBy", "publishedAt"); ("apiKey", apiKey n)].

Definition GetNewsByKeyword (n : t) (keyword : string) : M (World C) (list News) :=
  if bool_decide (keyword = "") then mfail (errorString "ключевое слово не может быть пустым")
  else
    let cacheKey := "news:keyword:" +:+ keyword in
    fetch n cacheKey
      [("q", keyword); ("language", "ru"); ("sortBy", "publishedAt"); ("apiKey", apiKey n)].
End NewsAPIClient.
End NewsAPIClient.

(** ** internal/adapters/repositories *)

Module StockRepositoryImpl.
Record t : Type := mk {
  moexAPI : MOEXAPIClient.t;
  cacheExpiry : Z;
  useCache : bool;
}.

Section StockRepositoryImpl.
Context `{!External} {C : Type} `{!cache.Cache C}.

(** The filter [bson.M{"ticker": ticker}] *)
Definition byTicker (ticker : string) (d : StockDoc) : bool :=
  bool_decide (docTicker d = ticker).

(** [Stock] structs carry no [_id]. *)
Definition noId (d : StockDoc) : option string := None.

Definition fetchStockFromAPI (r : t) (ticker : string) : M (World C) Stock :=
  res ← try (MOEXAPIClient.GetStock (moexAPI r) ticker);
  match res with
  | Fail err => mfail (wrapError "ошибка получения данных из MOEX API" err)
  | Ok stock => mret stock
  end.

Definition fetchAllStocksFromAPI (r : t) : M (World C) (list Stock) :=
  let defaultTickers := [
    "SBER"; "GAZP"; "LKOH"; "GMKN"; "ROSN"; "NVTK"; "TATN";
    "MTSS"; "MGNT"; "YNDX"; "FIVE"; "POLY"; "ALRS"; "VTBR" ] in
  MOEXAPIClient.GetStocks (moexAPI r) defaultTickers.

(** [r.cache.Set(ctx, key, value, r.cacheExpiry)], its error dropped. *)
Definition warmCache (r : t) (k : cache.kind) (key : string) (v : cache.typeOf k)
  : M (World C) () :=
  try (cacheSet k key v (cacheExpiry r)) ;; mret ().

Definition GetStock (r : t) (ticker : string) : M (World C) Stock :=
  let cacheKey := "stock:" +:+ ticker in
  cached ← (if useCache r then
              res ← try (cacheGet cache.KStock cacheKey zeroStock);
              mret (match res with
                    | Ok cachedStock =>
                        if bool_decide (Ticker cachedStock ≠ "") then Some cachedStock else None
                    | Fail _ => None
                    end)
            else mret None);
  match cached with
  | Some cachedStock => mret cachedStock
  | None =>
      found ← try (onStocks (EvStocksFindOne ticker) (mongo.FindOne (byTicker ticker)));
      match found with
      | Ok doc =>
          let stock := decodeStock doc in
          (if useCache r then warmCache r cache.KStock cacheKey stock else mret ()) ;;
          mret stock
      | Fail _ =>
          stock ← fetchStockFromAPI r ticker;
          ins ← try (onStocks (EvStocksInsertOne (DocStock stock))
                       (mongo.InsertOne noId (DocStock stock)));
          match ins with
          | Fail err => mfail (wrapError "ошибка сохранения в базу данных" err)
          | Ok _ =>
              (if useCache r then warmCache r cache.KStock cacheKey stock else mret ()) ;;
              mret stock
          end
      end
  end.

(** [for _, stock := range stocks { InsertOne(ctx, stock) }], stopping at
    the first error. *)
Fixpoint insertAll (stocks : list Stock) : M (World C) () :=
  match stocks with
  | [] => mret ()
  | stock :: rest =>
      ins ← try (onStocks (EvStocksInsertOne (DocStock stock))
                   (mongo.InsertOne noId (DocStock stock)));
      match ins with
      | Fail err => mfail (wrapError "ошибка сохранения в базу данных" err)
      | Ok _ => insertAll rest
      end
  end.

Definition getAllStocks (r : t) : M (World C) (list Stock) :=
  let cacheKey := "all_stocks" in
  cached ← (if useCache r then
              res ← try (cacheGet cache.KStocks cacheKey []);
              mret (match res with
                    | Ok cachedStocks =>
                        if (0 <? length cachedStocks)%nat then Some cachedStocks else None
                    | Fail _ => None
                    end)
            else mret None);
  match cached with
  | Some cachedStocks => mret cachedStocks
  | None =>
      found ← try (onStocks EvStocksFind (mongo.Find (λ _, true)));
      match found with
      | Fail err => mfail (wrapError "ошибка поиска в базе данных" err)
      | Ok docs =>
          let stocks := decodeStock <$> docs in
          if (0 <? length stocks)%nat then
            (if useCache r then warmCache r cache.KStocks cacheKey stocks else mret ()) ;;
            mret stocks
          else
            stocks ← fetchAllStocksFromAPI r;
            insertAll stocks ;;
            (if useCache r && (0 <? length stocks)%nat
             then warmCache r cache.KStocks cacheKey stocks else mret ()) ;;
            mret stocks
      end
  end.

Fixpoint GetStocksFrom (r : t) (tickers : list string) (stocks : list Stock)
  : M (World C) (list Stock) :=
  match tickers with
  | [] => mret stocks
  | ticker :: rest =>
      res ← try (GetStock r ticker);
      match res with
      | Fail err => mfail (wrapError ("ошибка получения информации о " +:+ ticker) err)
      | Ok stock => GetStocksFrom r rest (stocks ++ [stock])
      end
  end.

Definition GetStocks (r : t) (tickers : list string) : M (World C) (list Stock) :=
  if bool_decide (length tickers = 0%nat) then getAllStocks r
  else GetStocksFrom r tickers [].

(** [SaveStock(ctx, stock *models.Stock)]; [None] is the nil pointer. The
    assignment [stock.UpdatedAt = time.Now()] is made on the caller's struct
    before it is stored. *)
Definition SaveStock (r : t) (stock : option Stock) : M (World C) () :=
  match stock with
  | None => mfail (errorString "акция не может быть nil")
  | Some stock =>
      now ← timeNow;
      let stock := mkStock (Ticker stock) (Name stock) (Price stock) (Change stock)
                     (ChangePerc stock) (Volume stock) now in
      found ← try (onStocks (EvStocksFindOne (Ticker stock))
                     (mongo.FindOne (byTicker (Ticker stock))));
      res ← match found with
            | Ok _ =>
                try (onStocks (EvStocksReplaceOne (Ticker stock) (DocStock stock))
                       (mongo.ReplaceOne (byTicker (Ticker stock)) (DocStock stock)))
            | Fail _ =>
                try (onStocks (EvStocksInsertOne (DocStock stock))
                       (mongo.InsertOne noId (DocStock stock)))
            end;
      match res with
      | Fail err => mfail (wrapError "ошибка сохранения в базу данных" err)
      | Ok _ =>
          (if useCache r
           then warmCache r cache.KStock ("stock:" +:+ Ticker stock) stock
           else mret ()) ;;
          mret ()
      end
  end.

Definition StockRepository (r : t) : ports.StockRepository (World C) :=
  {| ports.GetStock := GetStock r; ports.GetStocks := GetStocks r |}.
End StockRepositoryImpl.
End StockRepositoryImpl.

Module NewsRepositoryImpl.
Record t : Type := mk {
  newsAPI : NewsAPIClient.t;
  cacheExpiry : Z;
  useCache : bool;
}.

Section NewsRepositoryImpl.
Context `{!External} {C : Type} `{!cache.Cache C}.

(** The filter [bson.M{"_id": id}] *)
Definition byId (id : string) (n : News) : bool := bool_decide (ID n = id).

(** [News.ID] is stored as [_id]. *)
Definition newsId (n : News) : option string := Some (ID n).

Definition warmCache (r : t) (k : cache.kind) (key : string) (v : cache.typeOf k)
  : M (World C) () :=
  try (cacheSet k key v (cacheExpiry r)) ;; mret ().

(** [SaveNews(ctx, news *models.News)]; [None] is the nil pointer. *)
Definition SaveNews (r : t) (news : option News) : M (World C) () :=
  match news with
  | None => mfail (errorString "новость не может быть nil")
  | Some news =>
      found ← try (onNews (EvNewsFindOne (ID news)) (mongo.FindOne (byId (ID news))));
      res ← match found with
            | Ok _ =>
                try (onNews (EvNewsReplaceOne (ID news) news)
                       (mongo.ReplaceOne (byId (ID news)) news))
            | Fail _ =>
                try (onNews (EvNewsInsertOne news) (mongo.InsertOne newsId news))
            end;
      match res with
      | Fail err => mfail (wrapError "ошибка сохранения в базу данных" err)
      | Ok _ =>
          (if useCache r then warmCache r cache.KNews ("news:" +:+ ID news) news else mret ()) ;;
          mret ()
      end
  end.

(** [for i := range news { r.SaveNews(ctx, &news[i]) }], errors dropped. *)
Fixpoint saveEach (r : t) (news : list News) : M (World C) () :=
  match news with
  | [] => mret ()
  | n :: rest => try (SaveNews r (Some n)) ;; saveEach r rest
  end.

(** [SaveNewsCollection(ctx, newsCollection)]: the first error ends the loop. *)
Fixpoint SaveNewsCollection (r : t) (newsCollection : list News) : M (World C) () :=
  match newsCollection with
  | [] => mret ()
  | news :: rest => SaveNews r (Some news) ;; SaveNewsCollection r rest
  end.

Definition fetchTodayNewsFromAPI (r : t) : M (World C) (list News) :=
  res ← try (NewsAPIClient.GetTodayNews (newsAPI r));
  match res with
  | Fail err => mfail (wrapError "ошибка получения данных из NewsAPI" err)
  | Ok news =>
      saveEach r news ;;
      now ← timeNow;
      (if useCache r && (0 <? length news)%nat
       then warmCache r cache.KNewsList ("news:date:" +:+ time.FormatDate now) news
       else mret ()) ;;
      mret news
  end.

Definition fetchNewsByKeywordFromAPI (r : t) (keyword : string) : M (World C) (list News) :=
  res ← try (NewsAPIClient.GetNewsByKeyword (newsAPI r) keyword);
  match res with
  | Fail err => mfail (wrapError "ошибка получения данных из NewsAPI" err)
  | Ok news =>
      saveEach r news ;;
      (if useCache r && (0 <? length news)%nat
       then warmCache r cache.KNewsList ("news:keyword:" +:+ keyword) news
       else mret ()) ;;
      mret news
  end.

Definition GetNews (r : t) (id : string) : M (World C) News :=
  let cacheKey := "news:" +:+ id in
  cached ← (if useCache r then
              res ← try (cacheGet cache.KNews cacheKey
                           (mkNews "" "" "" "" "" "" zeroTime zeroTime [] []));
              mret (match res with
                    | Ok cachedNews =>
                        if bool_decide (ID cachedNews ≠ "") then Some cachedNews else None
                    | Fail _ => None
                    end)
            else mret None);
  match cached with
  | Some cachedNews => mret cachedNews
  | None =>
      found ← try (onNews (EvNewsFindOne id) (mongo.FindOne (byId id)));
      match found with
      | Ok news =>
          (if useCache r then warmCache r cache.KNews cacheKey news else mret ()) ;;
          mret news
      | Fail _ => mfail (errorString ("новость с ID " +:+ id +:+ " не найдена"))
      end
  end.

(** The three comparisons of [startDate] with [time.Now()]. *)
Definition sameCalendarDay (t u : Time) : bool :=
  (time.Year t =? time.Year u) && (time.Month t =? time.Month u)
  && (time.Day t =? time.Day u).

(** The part [GetNewsByDate] and [GetNewsByKeyword] share: the cache
    look-up, the query on the collection, and the cache write on a hit in
    the store; [miss] is what follows a miss in both. *)
Definition lookupList (r : t) (cacheKey : string) (filter : News → bool)
    (miss : M (World C) (list News)) : M (World C) (list News) :=
  cached ← (if useCache r then
              res ← try (cacheGet cache.KNewsList cacheKey []);
              mret (match res with
                    | Ok cachedNews =>
                        if (0 <? length cachedNews)%nat then Some cachedNews else None
                    | Fail _ => None
                    end)
            else mret None);
  match cached with
  | Some cachedNews => mret cachedNews
  | None =>
      found ← try (onNews EvNewsFind (mongo.Find filter));
      match found with
      | Fail err => mfail (wrapError "ошибка поиска в базе данных" err)
      | Ok news =>
          if (0 <? length news)%nat then
            (if useCache r then warmCache r cache.KNewsList cacheKey news else mret ()) ;;
            mret news
          else miss
      end
  end.

Definition GetNewsByDate (r : t) (date : Time) : M (World C) (list News) :=
  let startDate := time.Truncate date (24 * Hour) in
  let endDate := time.Add startDate (24 * Hour) in
  let cacheKey := "news:date:" +:+ time.FormatDate startDate in
  lookupList r cacheKey
    (λ n, (unixNano startDate <=? unixNano (PublishedAt n))
          && (unixNano (PublishedAt n) <? unixNano endDate))
    (now ← timeNow;
     if sameCalendarDay startDate now then fetchTodayNewsFromAPI r
     else mret []).

Definition GetNewsForToday (r : t) : M (World C) (list News) :=
  now ← timeNow;
  GetNewsByDate r now.

Definition GetNewsByKeyword (r : t) (keyword : string) : M (World C) (list News) :=
  if bool_decide (keyword = "") then mfail (errorString "ключевое слово не может быть пустым")
  else
    lookupList r ("news:keyword:" +:+ keyword)
      (λ n, regex_MatchI keyword (Title n) || regex_MatchI keyword (Description n)
            || regex_MatchI keyword (Content n)
            || existsb (λ tag, bool_decide (tag = keyword)) (Tags n))
      (fetchNewsByKeywordFromAPI r keyword).

Definition GetNewsByTicker (r : t) (ticker : string) : M (World C) (list News) :=
  if bool_decide (ticker = "") then mfail (errorString "тикер не может быть пустым")
  else
    lookupList r ("news:ticker:" +:+ ticker)
      (λ n, existsb (λ t, bool_decide (t = ticker)) (RelatedTo n)
            || regex_MatchI ticker (Title n) || regex_MatchI ticker (Description n)
            || regex_MatchI ticker (Content n))
      (fetchNewsByKeywordFromAPI r ticker).

Definition NewsRepository (r : t) : ports.NewsRepository (World C) :=
  {| ports.GetNews := GetNews r;
     ports.GetNewsByDate := GetNewsByDate r;
     ports.GetNewsForToday := GetNewsForToday r;
     ports.GetNewsByKeyword := GetNewsByKeyword r;
     ports.GetNewsByTicker := GetNewsByTicker r |}.
End NewsRepositoryImpl.
End NewsRepositoryImpl.

(** ** internal/adapters/repositories/apis: the parser of a table of securities *)

Module apis.
(** [max(nums ...int)] *)
Definition max (nums : list Z) : Z :=
  match nums with
  | [] => 0
  | first :: rest => foldl (λ max num, if num >? max then num else max) first rest
  end.

(** [tickerIdx, nameIdx, priceIdx, changeIdx, changePercIdx] *)
Record columnIndex : Type := mkColumnIndex {
  tickerIdx : Z;
  nameIdx : Z;
  priceIdx : Z;
  changeIdx : Z;
  changePercIdx : Z;
}.

(** The body of [for i, col := range columns]: a column that is not a
    string is skipped, and the [switch] records the position of the five
    names. *)
Definition columnCase (i : Z) (col : jvalue) (idx : columnIndex) : columnIndex :=
  match col with
  | JString colName =>
      if bool_decide (colName = "SECID")
      then mkColumnIndex i (nameIdx idx) (priceIdx idx) (changeIdx idx) (changePercIdx idx)
      else if bool_decide (colName = "SHORTNAME")
      then mkColumnIndex (tickerIdx idx) i (priceIdx idx) (changeIdx idx) (changePercIdx idx)
      else if bool_decide (colName = "LAST")
      then mkColumnIndex (tickerIdx idx) (nameIdx idx) i (changeIdx idx) (changePercIdx idx)
      else if bool_decide (colName = "CHANGE")
      then mkColumnIndex (tickerIdx idx) (nameIdx idx) (priceIdx idx) i (changePercIdx idx)
      else if bool_decide (colName = "LASTTOPREVPRICE")
      then mkColumnIndex (tickerIdx idx) (nameIdx idx) (priceIdx idx) (changeIdx idx) i
      else idx
  | _ => idx
  end.

Fixpoint columnsLoop (i : Z) (columns : list jvalue) (idx : columnIndex) : columnIndex :=
  match columns with
  | [] => idx
  | col :: rest => columnsLoop (i + 1) rest (columnCase i col idx)
  end.

(** [stockData[i]]; [None] is the run-time panic of an index out of range. *)
Definition index (stockData : list jvalue) (i : Z) : option jvalue :=
  if i <? 0 then None else stockData !! Z.to_nat i.

(** [if s, ok := cell.(string); ok { field = s }] *)
Definition stringCell (cell : jvalue) (old : string) : string :=
  match cell with
  | JString s => s
  | _ => old
  end.

Section apis.
Context `{!External}.

(** [if v, ok := cell.(float64); ok { field = v } else if s, ok := cell.(string); ok {
       if f, err := strconv.ParseFloat(s, 64); err == nil { field = f } }] *)
Definition numberCell (cell : jvalue) (old : float) : float :=
  match cell with
  | JNumber v => v
  | JString s =>
      match strconv_ParseFloat s with
      | Ok f => f
      | Fail _ => old
      end
  | _ => old
  end.

(** The stock built from one row that passed the length check. *)
Definition parseRow (now : Time) (idx : columnIndex) (stockData : list jvalue)
  : option Stock :=
  ticker ← index stockData (tickerIdx idx);
  name ← index stockData (nameIdx idx);
  price ← index stockData (priceIdx idx);
  change ← index stockData (changeIdx idx);
  changePerc ← index stockData (changePercIdx idx);
  Some (mkStock (stringCell ticker "") (stringCell name "")
          (numberCell price 0%float) (numberCell change 0%float)
          (numberCell changePerc 0%float) 0 now).

(** [for _, item := range data { ... stocks = append(stocks, stock) }] *)
Fixpoint rowsLoop (now : Time) (idx : columnIndex) (data : list jvalue)
    (stocks : list Stock) : option (list Stock) :=
  match data with
  | [] => Some stocks
  | item :: rest =>
      match item with
      | JArray stockData =>
          if Z.of_nat (length stockData)
             <=? max [tickerIdx idx; nameIdx idx; priceIdx idx; changeIdx idx;
                      changePercIdx idx]
          then rowsLoop now idx rest stocks
          else
            match parseRow now idx stockData with
            | Some stock => rowsLoop now idx rest (stocks ++ [stock])
            | None => None
            end
      | _ => rowsLoop now idx rest stocks
      end
  end.

(** [parseStocksFromResponse(data)]; [None] is a run-time panic. *)
Definition parseStocksFromResponse (now : Time) (data : list (string * jvalue))
  : option (list Stock) :=
  match lookupField "securities" data with
  | Some (JObject securities) =>
      match lookupField "columns" securities with
      | Some (JArray columns) =>
          let idx := columnsLoop 0 columns (mkColumnIndex (-1) (-1) (-1) (-1) (-1)) in
          match lookupField "data" securities with
          | Some (JArray data) => rowsLoop now idx data []
          | _ => Some []
          end
      | _ => Some []
      end
  | _ => Some []
  end.
End apis.
End apis.

(** ** internal/config *)

Module config.
Module ServerConfig.
Record t : Type := mk {
  Port : Z;
  Host : string;
  TimeoutSeconds : Z;
}.
End ServerConfig.

Module DatabaseConfig.
Record t : Type := mk {
  URI : string;
  Database : string;
  Collection : string;
  Username : string;
  Password : string;
  Timeout : Z;
}.
End DatabaseConfig.

Module CacheConfig.
Record t : Type := mk {
  RedisURI : string;
  RedisDB : Z;
  DefaultTTL : Z;
  StocksTTL : Z;
  NewsTTL : Z;
}.
End CacheConfig.

Module MOEXConfig.
Record t : Type := mk {
  BaseURL : string;
  Timeout : Z;
  UseCache : bool;
  APIKey : string;
}.
End MOEXConfig.

Module NewsAPIConfig.
Record t : Type := mk {
  BaseURL : string;
  Timeout : Z;
  UseCache : bool;
  APIKey : string;
  Sources : list string;
}.
End NewsAPIConfig.

Module APIKeysConfig.
Record t : Type := mk {
  MOEXKey : string;
  NewsAPIKey : string;
}.
End APIKeysConfig.

Record Config : Type := mkConfig {
  Server : ServerConfig.t;
  Database : DatabaseConfig.t;
  Cache : CacheConfig.t;
  MOEX : MOEXConfig.t;
  NewsAPI : NewsAPIConfig.t;
  APIKeys : APIKeysConfig.t;
  LogLevel : string;
  Environment : string;
}.

(** [Config{}] *)
Definition zeroConfig : Config :=
  mkConfig (ServerConfig.mk 0 "" 0) (DatabaseConfig.mk "" "" "" "" "" 0)
    (CacheConfig.mk "" 0 0 0 0) (MOEXConfig.mk "" 0 false "")
    (NewsAPIConfig.mk "" 0 false "" []) (APIKeysConfig.mk "" "") "" "".

Definition setDefaults (config : Config) : Config :=
  let server := Server config in
  let cache := Cache config in
  let moex := MOEX config in
  let newsAPI := NewsAPI config in
  mkConfig
    (ServerConfig.mk
       (if ServerConfig.Port server =? 0 then 8080 else ServerConfig.Port server)
       (if bool_decide (ServerConfig.Host server = "") then "localhost"
        else ServerConfig.Host server)
       (if ServerConfig.TimeoutSeconds server =? 0 then 30
        else ServerConfig.TimeoutSeconds server))
    (Database config)
    (CacheConfig.mk (CacheConfig.RedisURI cache) (CacheConfig.RedisDB cache)
       (if CacheConfig.DefaultTTL cache =? 0 then 5 * Minute else CacheConfig.DefaultTTL cache)
       (if CacheConfig.StocksTTL cache =? 0 then 15 * Minute else CacheConfig.StocksTTL cache)
       (if CacheConfig.NewsTTL cache =? 0 then 30 * Minute else CacheConfig.NewsTTL cache))
    (MOEXConfig.mk (MOEXConfig.BaseURL moex)
       (if MOEXConfig.Timeout moex =? 0 then 10 * Second else MOEXConfig.Timeout moex)
       (MOEXConfig.UseCache moex) (MOEXConfig.APIKey moex))
    (NewsAPIConfig.mk (NewsAPIConfig.BaseURL newsAPI)
       (if NewsAPIConfig.Timeout newsAPI =? 0 then 10 * Second
        else NewsAPIConfig.Timeout newsAPI)
       (NewsAPIConfig.UseCache newsAPI) (NewsAPIConfig.APIKey newsAPI)
       (NewsAPIConfig.Sources newsAPI))
    (APIKeys config)
    (if bool_decide (LogLevel config = "") then "info" else LogLevel config)
    (Environment config).

(** [LoadConfig(configPath)]. What viper reads is given: [ReadInConfig] is the
    outcome of reading the file, [Unmarshal] the one of decoding it. *)
Definition LoadConfig (ReadInConfig : string → result ()) (Unmarshal : result Config)
    (configPath : string) : result Config :=
  match ReadInConfig configPath with
  | Fail err => Fail (wrapError "ошибка чтения конфигурации" err)
  | Ok _ =>
      match Unmarshal with
      | Fail err => Fail (wrapError "ошибка при анмаршалинге конфигурации" err)
      | Ok config => Ok (setDefaults config)
      end
  end.
End config.

(** ** cmd/server: how [main] wires the components *)

Module main.
Import config.

(** The cache client [main] creates. *)
Inductive cacheClient : Type :=
  | NewRedisCache (redisURI : string) (db : Z)
  | NewInMemoryCache (defaultTTL : Z).

(** What [main] has built when it starts the MCP server. *)
Record components : Type := mkComponents {
  cfg : Config;
  cacheOf : cacheClient;
  moexAPI : MOEXAPIClient.t;
  newsAPI : NewsAPIClient.t;
  stockRepo : StockRepositoryImpl.t;
  newsRepo : NewsRepositoryImpl.t;
}.

(** [log.Fatalf] ends the process; otherwise the server is started. *)
Inductive outcome : Type :=
  | Fatal (message : string) (err : option error)
  | Serving (c : components).

(** The configuration [main] falls back to when [LoadConfig] fails. *)
Definition fallbackConfig : Config :=
  mkConfig (ServerConfig.mk 8080 "" 0) (DatabaseConfig.mk "" "" "" "" "" 0)
    (CacheConfig.mk "" 0 (5 * Minute) 0 0)
    (MOEXConfig.mk "https://iss.moex.com/iss" 0 false "")
    (NewsAPIConfig.mk "https://newsapi.org/v2" 0 false "" []) (APIKeysConfig.mk "" "") "" "".

(** [apis.NewMOEXAPIClient(cfg, cache)] *)
Definition NewMOEXAPIClient (cfg : Config) : MOEXAPIClient.t :=
  MOEXAPIClient.mk (MOEXConfig.BaseURL (MOEX cfg)) (CacheConfig.StocksTTL (Cache cfg))
    (MOEXConfig.APIKey (MOEX cfg)) (MOEXConfig.UseCache (MOEX cfg)).

(** [apis.NewNewsAPIClient(cfg, cache)] *)
Definition NewNewsAPIClient (cfg : Config) : NewsAPIClient.t :=
  NewsAPIClient.mk (NewsAPIConfig.BaseURL (NewsAPI cfg)) (CacheConfig.NewsTTL (Cache cfg))
    (NewsAPIConfig.APIKey (NewsAPI cfg)) (NewsAPIConfig.UseCache (NewsAPI cfg))
    (NewsAPIConfig.Sources (NewsAPI cfg)).

(** [main], up to the start of the MCP server. [loaded] is what [LoadConfig]
    returned; [pingRedis] and [connectMongo] are the outcomes of the two
    connection attempts. *)
Definition main (loaded : result Config) (pingRedis : string → Z → result ())
    (connectMongo : DatabaseConfig.t → result ()) : outcome :=
  let cfg := match loaded with
             | Ok cfg => cfg
             | Fail _ => fallbackConfig
             end in
  let cacheClient :=
    if bool_decide (CacheConfig.RedisURI (Cache cfg) ≠ "")
    then match pingRedis (CacheConfig.RedisURI (Cache cfg)) (CacheConfig.RedisDB (Cache cfg)) with
         | Fail err => Fail err
         | Ok _ => Ok (NewRedisCache (CacheConfig.RedisURI (Cache cfg))
                         (CacheConfig.RedisDB (Cache cfg)))
         end
    else Ok (NewInMemoryCache (CacheConfig.DefaultTTL (Cache cfg))) in
  match cacheClient with
  | Fail err => Fatal "Ошибка инициализации Redis" (Some err)
  | Ok cacheClient =>
      let mongoDB :=
        if bool_decide (DatabaseConfig.URI (Database cfg) ≠ "")
        then match connectMongo (Database cfg) with
             | Fail err => Fail err
             | Ok _ => Ok true
             end
        else Ok false in
      match mongoDB with
      | Fail err => Fatal "Ошибка подключения к MongoDB" (Some err)
      | Ok connected =>
          let moexAPI := NewMOEXAPIClient cfg in
          let newsAPI := NewNewsAPIClient cfg in
          if connected then
            Serving (mkComponents cfg cacheClient moexAPI newsAPI
                       (StockRepositoryImpl.mk moexAPI (CacheConfig.StocksTTL (Cache cfg)) true)
                       (NewsRepositoryImpl.mk newsAPI (CacheConfig.NewsTTL (Cache cfg)) true))
          else Fatal "В текущей версии требуется MongoDB для работы сервера" None
      end
  end.
End main.

(** ** internal/adapters/mcp: the list of tickers in a prompt *)

Module mcp.
(** [for i, ticker := range tickers { if i > 0 { result += ", " }; result += ticker }] *)
Fixpoint formatLoop (i : nat) (tickers : list string) (result : string) : string :=
  match tickers with
  | [] => result
  | ticker :: rest =>
      let result := if (0 <? i)%nat then result +:+ ", " else result in
      formatLoop (S i) rest (result +:+ ticker)
  end.

Definition formatTickersList (tickers : list string) : string := formatLoop 0 tickers "".
End mcp.

(** ** What the specification asks of the stock search

    "Case-insensitive substring match against ticker+name": the letters a-z
    are folded to A-Z before the substring test. *)

Definition foldLetter (c : ascii) : ascii :=
  let n := nat_of_ascii c in
  if ((97 <=? n) && (n <=? 122))%nat then ascii_of_nat (n - 32) else c.

Fixpoint foldCase (s : string) : string :=
  match s with
  | EmptyString => EmptyString
  | String c rest => String (foldLetter c) (foldCase rest)
  end.

Definition matchesQuery (query : string) (stock : Stock) : bool :=
  GoStrings.Contains (foldCase (Ticker stock)) (foldCase query)
  || GoStrings.Contains (foldCase (Name stock)) (foldCase query).

(** ** What the specification asks of the news of a ticker

    "A news item is related to a ticker if the ticker appears in its
    related_to set or as a case-insensitive substring of title, description,
    or body." *)

Definition relatedToTicker (ticker : string) (news : News) : bool :=
  bool_decide (ticker ∈ RelatedTo news)
  || GoStrings.Contains (foldCase (Title news)) (foldCase ticker)
  || GoStrings.Contains (foldCase (Description news)) (foldCase ticker)
  || GoStrings.Contains (foldCase (Content news)) (foldCase ticker).

(** ** Vocabulary of the properties *)

(** The news item is related to one of the tickers, as the code decides it. *)
Definition matchesAny (tickers : list string) (news : News) : bool :=
  existsb (containsTickerInNews news) tickers.

(** What the loop of [GetNewsForMultipleTickers] maintains: the ids of
    [result] are distinct, and [seen] holds exactly them. *)
Definition dedupInv (st : NewsServiceImpl.dedupState) : Prop :=
  NoDup (ID <$> st.1) ∧ ∀ id, default false (st.2 !! id) = true ↔ id ∈ ID <$> st.1.

(** The collection after an upsert of [doc] under [filter]. *)
Definition upserted {D} (filter : D → bool) (doc : D) (c : mongo.Collection D)
  : mongo.Collection D :=
  match mongo.outage c with
  | Some _ => c
  | None =>
      match find filter (mongo.docs c) with
      | Some _ => mongo.mk (mongo.replaceFirst filter doc (mongo.docs c)) None
      | None => mongo.mk (mongo.docs c ++ [doc]) None
      end
  end.

(** The stock the cache read supplies, if any: [err == nil && cachedStock.Ticker != ""]. *)
Definition cacheHit (cached : result Stock) : option Stock :=
  match cached with
  | Ok cachedStock => if bool_decide (Ticker cachedStock ≠ "") then Some cachedStock else None
  | Fail _ => None
  end.

(** The byte occurs in the string. *)
Fixpoint hasByte (c : ascii) (s : string) : bool :=
  match s with
  | EmptyString => false
  | String d rest => Ascii.eqb d c || hasByte c rest
  end.

(** The column is the string [name]. *)
Definition isColumn (name : string) (col : jvalue) : bool :=
  match col with
  | JString s => bool_decide (s = name)
  | _ => false
  end.

(** The columns name all five fields the parser reads. *)
Definition namesAll (columns : list jvalue) : bool :=
  existsb (isColumn "SECID") columns && existsb (isColumn "SHORTNAME") columns
  && existsb (isColumn "LAST") columns && existsb (isColumn "CHANGE") columns
  && existsb (isColumn "LASTTOPREVPRICE") columns.

(** The indices the parser starts from. *)
Definition noColumn : apis.columnIndex := apis.mkColumnIndex (-1) (-1) (-1) (-1) (-1).

(** The largest of the five column indices. *)
Definition largestIndex (idx : apis.columnIndex) : Z :=
  apis.max [apis.tickerIdx idx; apis.nameIdx idx; apis.priceIdx idx;
            apis.changeIdx idx; apis.changePercIdx idx].

(** The row is an array with more cells than the largest column index. *)
Definition longEnough (idx : apis.columnIndex) (item : jvalue) : bool :=
  match item with
  | JArray stockData => negb (Z.of_nat (length stockData) <=? largestIndex idx)
  | _ => false
  end.

(** The stock read from the cells of [stockData] at the five positions. *)
Definition readFrom `{!External} (now : Time) (idx : apis.columnIndex) (item : jvalue) (stock : Stock)
  : Prop :=
  ∃ stockData ticker name price change changePerc,
    item = JArray stockData
    ∧ stockData !! Z.to_nat (apis.tickerIdx idx) = Some ticker
    ∧ stockData !! Z.to_nat (apis.nameIdx idx) = Some name
    ∧ stockData !! Z.to_nat (apis.priceIdx idx) = Some price
    ∧ stockData !! Z.to_nat (apis.changeIdx idx) = Some change
    ∧ stockData !! Z.to_nat (apis.changePercIdx idx) = Some changePerc
    ∧ stock = mkStock (apis.stringCell ticker "") (apis.stringCell name "")
                (apis.numberCell price 0%float) (apis.numberCell change 0%float)
                (apis.numberCell changePerc 0%float) 0 now.


(** None of the nine settings [setDefaults] looks at is left at its zero value. *)
Definition defaultsSet (c : config.Config) : Prop :=
  config.ServerConfig.Port (config.Server c) ≠ 0
  ∧ config.ServerConfig.Host (config.Server c) ≠ ""
  ∧ config.ServerConfig.TimeoutSeconds (config.Server c) ≠ 0
  ∧ config.LogLevel c ≠ ""
  ∧ config.CacheConfig.DefaultTTL (config.Cache c) ≠ 0
  ∧ config.CacheConfig.StocksTTL (config.Cache c) ≠ 0
  ∧ config.CacheConfig.NewsTTL (config.Cache c) ≠ 0
  ∧ config.MOEXConfig.Timeout (config.MOEX c) ≠ 0
  ∧ config.NewsAPIConfig.Timeout (config.NewsAPI c) ≠ 0.

(** The news item the cache read supplies, if any: [err == nil && cachedNews.ID != ""]. *)
Definition newsHit (cached : result News) : option News :=
  match cached with
  | Ok cachedNews => if bool_decide (ID cachedNews ≠ "") then Some cachedNews else None
  | Fail _ => None
  end.

(** [var cachedNews models.News], the destination of the cache read. *)
Definition zeroNews : News := mkNews "" "" "" "" "" "" zeroTime zeroTime [] [].

(** The world after one more action. *)
Definition logged {C} (ev : Event) (w : World C) : World C :=
  mkWorld (w_cache w) (w_stocks w) (w_news w) (w_upstream w) (w_now w) (w_log w ++ [ev]).

(** The cache reads its own writes of [v]: after a [Set'] of [v] a [Get]
    under the same key yields [v], or a miss, or an error, and never
    another value. *)
Definition readsOwnWrites (C : Type) `{!cache.Cache C}
    (k : cache.kind) (v : cache.typeOf k) : Prop :=
  ∀ now later key ttl dest c,
    match (cache.Get k later key dest (cache.Set' k now key v ttl c).2).1 with
    | Ok got => got = v ∨ got = dest
    | Fail _ => True
    end.

(** Marshalling [v] and unmarshalling the text gives [v] back. *)
Definition roundTrips `{!External} (k : cache.kind) (v : cache.typeOf k) : Prop :=
  ∃ data, json_Marshal k v = Ok data ∧ ∀ dest, json_Unmarshal k data dest = Ok v.

(** The stock as [SaveStock] stores it: stamped with the time of the call. *)
Definition stamped (now : Time) (stock : Stock) : Stock :=
  mkStock (Ticker stock) (models.Name stock) (Price stock) (Change stock)
    (ChangePerc stock) (Volume stock) now.

(** What the document store gives back for a [time.Time] it was given: a
    BSON datetime holds the whole milliseconds since the Unix epoch, and the
    driver decodes it in UTC. *)
Module bson.
Definition DateTime (t : Time) : Time :=
  mkTime (unixNano t - unixNano t `mod` Millisecond) 0.
End bson.

(** A news item, a stock, a quote and a document of the stocks collection as
    the store gives them back once written: all fields but the times are as
    they were. *)
Definition storedNews (n : News) : News :=
  mkNews (ID n) (Title n) (Description n) (Content n) (URL n) (Source n)
    (bson.DateTime (PublishedAt n)) (bson.DateTime (CreatedAt n)) (Tags n) (RelatedTo n).

Definition storedStock (s : Stock) : Stock :=
  mkStock (Ticker s) (models.Name s) (Price s) (Change s) (ChangePerc s) (Volume s)
    (bson.DateTime (UpdatedAt s)).

Definition storedQuote (q : StockQuote) : StockQuote :=
  mkStockQuote (q_Ticker q) (q_Open q) (q_High q) (q_Low q) (q_Close q) (q_Volume q)
    (bson.DateTime (q_Date q)) (q_MarketCapBln q) (q_PE q) (q_DividendYield q)
    (q_Sector q) (q_TradingSession q).

Definition storedDoc (d : StockDoc) : StockDoc :=
  match d with
  | DocStock s => DocStock (storedStock s)
  | DocQuote q => DocQuote (storedQuote q)
  end.

(** The collection as the server holds it, when [c] holds the structs as
    they were written. *)
Definition storedIn {D} (stored : D → D) (c : mongo.Collection D) : mongo.Collection D :=
  mongo.mk (stored <$> mongo.docs c) (mongo.outage c).

(** The world whose collections are read as the server holds them. *)
Definition asStored {C} (w : World C) : World C :=
  mkWorld (w_cache w) (storedIn storedDoc (w_stocks w)) (storedIn storedNews (w_news w))
    (w_upstream w) (w_now w) (w_log w).

(** The list the cache read supplies, if any: [err == nil && len(cached) > 0]. *)
Definition listHit (cached : result (list News)) : option (list News) :=
  match cached with
  | Ok cachedNews => if (0 <? length cachedNews)%nat then Some cachedNews else None
  | Fail _ => None
  end.

(** The action is a request to a provider. *)
Definition isHTTP (ev : Event) : bool :=
  match ev with
  | EvHTTP _ _ => true
  | _ => false
  end.

(** The filters of the three list look-ups of the news repository. *)
Definition publishedOn (start : Z) (n : News) : bool :=
  (start <=? unixNano (PublishedAt n)) && (unixNano (PublishedAt n) <? start + 24 * Hour).

Definition mentionsKeyword `{!External} (keyword : string) (n : News) : bool :=
  regex_MatchI keyword (Title n) || regex_MatchI keyword (Description n)
  || regex_MatchI keyword (Content n)
  || existsb (λ tag, bool_decide (tag = keyword)) (Tags n).

Definition mentionsTicker `{!External} (ticker : string) (n : News) : bool :=
  existsb (λ t, bool_decide (t = ticker)) (RelatedTo n)
  || regex_MatchI ticker (Title n) || regex_MatchI ticker (Description n)
  || regex_MatchI ticker (Content n).

(** The item that a look-up by [id] finds after the items of [saved] were
    saved one after the other into a collection with the documents [docs]:
    the last of them with that id, or what was there. *)
Definition lastSaved (id : string) (saved docs : list News) : option News :=
  match last (filter (λ n, ID n = id) saved) with
  | Some n => Some n
  | None => find (NewsRepositoryImpl.byId id) docs
  end.

(** The number of requests to a provider among the actions. *)
Definition requests (evs : list Event) : nat := length (List.filter isHTTP evs).

(** Whatever the world, the computation makes at most [bound] requests to a
    provider: the actions it adds to the log hold at most that many. *)
Definition requestsWithin {C A} (bound : nat) (m : M (World C) A) : Prop :=
  ∀ w, ∃ evs, w_log (m w).2 = w_log w ++ evs ∧ (requests evs ≤ bound)%nat.

(** The action is a read or a write of the cache. *)
Definition isCacheEvent (ev : Event) : bool :=
  match ev with
  | EvCacheGet _ | EvCacheSet _ _ => true
  | _ => false
  end.

(** A cache that serves nothing and keeps nothing, as one that cannot be
    reached: every read is a miss or an error, and neither a read nor a
    write changes it. *)
Definition unavailable {C} `{!cache.Cache C} (c : C) : Prop :=
  (∀ k now key dest,
     (cache.Get k now key dest c).2 = c
     ∧ ((cache.Get k now key dest c).1 = Ok dest ∨ ∃ err, (cache.Get k now key dest c).1 = Fail err))
  ∧ ∀ k now key v ttl, (cache.Set' k now key v ttl c).2 = c.

(** The two worlds differ at most in the reads and writes of the cache that
    their logs record. *)
Definition sameButCacheLog {C} (w1 w2 : World C) : Prop :=
  w_cache w1 = w_cache w2 ∧ w_stocks w1 = w_stocks w2 ∧ w_news w1 = w_news w2
  ∧ w_upstream w1 = w_upstream w2 ∧ w_now w1 = w_now w2
  ∧ List.filter (λ ev, negb (isCacheEvent ev)) (w_log w1)
    = List.filter (λ ev, negb (isCacheEvent ev)) (w_log w2).

(** With the cache [c] the two computations return the same and do the same
    to the stores and to the providers. *)
Definition agrees {C A} (c : C) (m1 m2 : M (World C) A) : Prop :=
  ∀ w1 w2, w_cache w1 = c → sameButCacheLog w1 w2 →
    (m1 w1).1 = (m2 w2).1 ∧ w_cache (m1 w1).2 = c ∧ sameButCacheLog (m1 w1).2 (m2 w2).2.

(** The repository with caching switched off, in it and in its provider client. *)
Definition withoutCache (r : StockRepositoryImpl.t) : StockRepositoryImpl.t :=
  StockRepositoryImpl.mk
    (MOEXAPIClient.mk (MOEXAPIClient.baseURL (StockRepositoryImpl.moexAPI r))
       (MOEXAPIClient.cacheExpiry (StockRepositoryImpl.moexAPI r))
       (MOEXAPIClient.apiKey (StockRepositoryImpl.moexAPI r)) false)
    (StockRepositoryImpl.cacheExpiry r) false.

(** The news repository with caching switched off, in it and in its provider client. *)
Definition newsWithoutCache (r : NewsRepositoryImpl.t) : NewsRepositoryImpl.t :=
  NewsRepositoryImpl.mk
    (NewsAPIClient.mk (NewsAPIClient.baseURL (NewsRepositoryImpl.newsAPI r))
       (NewsAPIClient.cacheExpiry (NewsRepositoryImpl.newsAPI r))
       (NewsAPIClient.apiKey (NewsRepositoryImpl.newsAPI r)) false
       (NewsAPIClient.sources (NewsRepositoryImpl.newsAPI r)))
    (NewsRepositoryImpl.cacheExpiry r) false.

(** Run in [w], the two computations return the same, and leave the same
    stores and the same actions on stores and providers. *)
Definition sameOutcome {C A} (w : World C) (m1 m2 : M (World C) A) : Prop :=
  (m1 w).1 = (m2 w).1 ∧ sameButCacheLog (m1 w).2 (m2 w).2.

(** ** A concrete world, to run the embedding on examples *)

Module Fixture.
(** A codec under which a marshalled value is the value itself. *)
Definition cast (k k' : cache.kind) : cache.typeOf k' → option (cache.typeOf k) :=
  match k, k' with
  | cache.KStock, cache.KStock => Some
  | cache.KStocks, cache.KStocks => Some
  | cache.KNews, cache.KNews => Some
  | cache.KNewsList, cache.KNewsList => Some
  | _, _ => λ _, None
  end.

Definition unmarshal (k : cache.kind) (data : cache.value) (dest : cache.typeOf k)
  : result (cache.typeOf k) :=
  match cast k (projT1 data) (projT2 data) with
  | Some v => Ok v
  | None => Fail (errorString "json: cannot unmarshal")
  end.

Definition parseFloat (s : string) : result float :=
  if bool_decide (s = "150.0") then Ok 150%float
  else if bool_decide (s = "-3.0") then Ok (-3)%float
  else if bool_decide (s = "-2.0") then Ok (-2)%float
  else if bool_decide (s = "NaN") then Ok nan
  else Fail (errorString "strconv.ParseFloat: invalid syntax").

Definition noon : Time := mkTime (1709542800 * 1000000000) 10800.   (* 2024-03-04 12:00 +03:00 *)

(** Every body decodes to the same quote row, or the same article. *)
Definition decodeObject (body : string) : result (list (string * jvalue)) :=
  Ok [("securities",
       JObject [("data",
                 JArray [JArray [JString "GAZP"; JString "TQBR"; JString "Gazprom";
                                 JString "150.0"; JString "-3.0"; JString "-2.0"]])])].

Definition decodeArticles (body : string) : result (list Article) :=
  Ok [mkArticle "Interfax" "SBER and GAZP rally" "MOEX index up"
        "https://example.org/markets/rally.html?ref=rss" noon "Shares of SBER rose"].

Definition external : External := {|
  json_text := cache.value;
  json_Marshal := λ k v, Ok (existT k v);
  json_Unmarshal := unmarshal;
  json_DecodeObject := decodeObject;
  json_DecodeArticles := decodeArticles;
  strconv_ParseFloat := parseFloat;
  strings_ToLower := λ s, s;
  strings_ToUpper := λ s, s;
  regex_MatchI := λ pattern text, GoStrings.Contains text pattern;
|}.
#[local] Existing Instance external.

(** The in-memory cache backend over this codec. *)
Definition inMemory : cache.Cache InMemoryCache.t := InMemoryCache.InMemoryCache_Cache.
#[local] Existing Instance inMemory.

Definition upstream (url : string) (params : list (string * string)) : HTTPResult :=
  Response 200 "200 OK" (Ok "{}").

Definition unreachable (url : string) (params : list (string * string)) : HTTPResult :=
  TransportFailure (backendError "dial tcp: connection refused").

Definition emptyCache : InMemoryCache.t := InMemoryCache.mk ∅ (5 * Minute).
Definition emptyRedis : RedisCache.t := RedisCache.mk ∅ None.
Definition redisDown : RedisCache.t :=
  RedisCache.mk ∅ (Some (backendError "dial tcp: connection refused")).

Definition sber : Stock := mkStock "SBER" "Sberbank" 300%float 4.5%float 1.5%float 1000 noon.
Definition gazp : Stock := mkStock "GAZP" "Gazprom" 150%float (-3)%float (-2)%float 500000 noon.
Definition lkoh : Stock := mkStock "LKOH" "Lukoil" 7000%float 17.5%float 0.25%float 700 noon.
Definition odd : Stock := mkStock "ODD" "Odd" 1%float 0%float nan 0 noon.

Definition morning : Time := mkTime (1709532000 * 1000000000) 10800.  (* 2024-03-04 09:00 +03:00 *)
Definition news1 : News :=
  mkNews "rally" "SBER and GAZP rally" "MOEX index up" "Shares rose"
    "https://example.org/markets/rally.html" "Interfax" morning morning ["MOEX"] ["SBER"; "GAZP"].
Definition news2 : News :=
  mkNews "rates" "Key rate unchanged" "The regulator kept the rate" "No change"
    "https://example.org/economy/rates.html" "Interfax" noon noon [] [].

Definition moex : MOEXAPIClient.t := MOEXAPIClient.mk "https://iss.moex.com/iss" (15 * Minute) "" true.
Definition newsapi : NewsAPIClient.t :=
  NewsAPIClient.mk "https://newsapi.org/v2" (30 * Minute) "key" true [].
Definition stockRepo : StockRepositoryImpl.t := StockRepositoryImpl.mk moex (15 * Minute) true.
Definition newsRepo : NewsRepositoryImpl.t := NewsRepositoryImpl.mk newsapi (30 * Minute) true.

Definition world (stocks : list StockDoc) (news : list News) (now : Time)
  : World InMemoryCache.t :=
  mkWorld emptyCache (mongo.mk stocks None) (mongo.mk news None) upstream now [].

(** Cache and stores empty, providers up. *)
Definition cold : World InMemoryCache.t := world [] [] noon.
(** The store holds three quotes and two news items of the day. *)
Definition warm : World InMemoryCache.t :=
  world [DocStock sber; DocStock gazp; DocStock lkoh] [news1; news2] noon.
(** The store holds a quote whose percent change is NaN. *)
Definition withNaN : World InMemoryCache.t :=
  world [DocStock lkoh; DocStock odd; DocStock sber] [] noon.

Definition stocks : ports.StockRepository (World InMemoryCache.t) :=
  StockRepositoryImpl.StockRepository stockRepo.
Definition news : ports.NewsRepository (World InMemoryCache.t) :=
  NewsRepositoryImpl.NewsRepository newsRepo.

(** A Redis server that holds one quote without expiry. *)
Definition redisSber : RedisCache.t :=
  RedisCache.mk (<["stock:SBER" := (existT cache.KStock sber : cache.value, 0)]> ∅) None.

(** The warm stores behind a Redis server that is down. *)
Definition cacheDown : World RedisCache.t :=
  mkWorld redisDown (mongo.mk [DocStock sber; DocStock gazp; DocStock lkoh] None)
    (mongo.mk [news1; news2] None) upstream noon [].

(** A table of securities with two rows, the second too short to be read. *)
Definition table (columns : list jvalue) : list (string * jvalue) :=
  [("securities",
    JObject [("columns", JArray columns);
             ("data", JArray [JArray [JString "GAZP"; JString "Gazprom"; JNumber 150%float;
                                      JString "-3.0"; JNumber (-2)%float];
                              JArray [JString "LKOH"]])])].

Definition allColumns : list jvalue :=
  [JString "SECID"; JString "SHORTNAME"; JString "LAST"; JString "CHANGE";
   JString "LASTTOPREVPRICE"].

Definition twoColumns : list jvalue := [JString "SECID"; JString "SHORTNAME"].

(** A configuration file that names the database and leaves the TTLs out. *)
Definition fileConfig : config.Config :=
  config.mkConfig (config.ServerConfig.mk 0 "" 0)
    (config.DatabaseConfig.mk "mongodb://mongo:27017" "stocks_db" "stocks" "" "" (5 * Second))
    (config.CacheConfig.mk "" 0 0 0 0)
    (config.MOEXConfig.mk "https://iss.moex.com/iss" 0 true "")
    (config.NewsAPIConfig.mk "https://newsapi.org/v2" 0 true "key" [])
    (config.APIKeysConfig.mk "" "") "" "".

(** What [main] builds from it when MongoDB can be connected. *)
Definition served : main.components :=
  let cfg := config.setDefaults fileConfig in
  main.mkComponents cfg (main.NewInMemoryCache (5 * Minute))
    (main.NewMOEXAPIClient cfg) (main.NewNewsAPIClient cfg)
    (StockRepositoryImpl.mk (main.NewMOEXAPIClient cfg) (15 * Minute) true)
    (NewsRepositoryImpl.mk (main.NewNewsAPIClient cfg) (30 * Minute) true).
End Fixture.

(** * Properties *)

(** ** Running a method: the monad laws the proofs unfold *)

Lemma bind_run {S A B} (m : M S A) (f : A → M S B) (s : S) :
  (m ≫= f) s = match m s with
               | (Ok a, s') => f a s'
               | (Fail e, s') => (Fail e, s')
               end.
Proof. reflexivity. Qed.

(** Unfolds the binds and returns of a method body. *)
Ltac run_monad := unfold mbind, M_bind, mbind', try, mret, M_ret, mpure, mfail.

Lemma bind_Ok {S A B} (m : M S A) (f : A → M S B) (s s' : S) (a : A) :
  m s = (Ok a, s') → (m ≫= f) s = f a s'.
Proof. intros H. rewrite bind_run, H. reflexivity. Qed.

(** ** The bubble sort *)

Section BubbleSortFacts.
Context {A : Type} (less : A → A → bool).

Lemma swapIfLess_app (l : list A) (a b : A) (t : list A) :
  swapIfLess less (length l) (l ++ a :: b :: t)
  = l ++ (if less a b then b :: a :: t else a :: b :: t).
Proof.
  unfold swapIfLess.
  rewrite lookup_app_r, Nat.sub_diag by lia. simpl.
  rewrite lookup_app_r by lia.
  replace (length l + 1 - length l)%nat with 1%nat by lia. simpl.
  destruct (less a b); [|done].
  rewrite (insert_app_r_alt l _ (length l + 1)) by lia.
  replace (length l + 1 - length l)%nat with 1%nat by lia. simpl.
  rewrite insert_app_r_alt, Nat.sub_diag by lia. done.
Qed.

Lemma swapIfLess_split (j : nat) (xs : list A) (a b : A) :
  xs !! j = Some a → xs !! (j + 1)%nat = Some b →
  xs = take j xs ++ a :: b :: drop (S (S j)) xs ∧ length (take j xs) = j.
Proof.
  intros Ha Hb. split.
  - rewrite <-(take_drop j xs) at 1. f_equal.
    rewrite (drop_S _ _ _ Ha). f_equal.
    replace (j + 1)%nat with (S j) in Hb by lia.
    by rewrite (drop_S _ _ _ Hb).
  - apply lookup_lt_Some in Ha. rewrite length_take. lia.
Qed.

Lemma swapIfLess_perm (j : nat) (xs : list A) : swapIfLess less j xs ≡ₚ xs.
Proof.
  destruct (xs !! j) as [a|] eqn:Ha; [|by unfold swapIfLess; rewrite Ha].
  destruct (xs !! (j + 1)%nat) as [b|] eqn:Hb; [|by unfold swapIfLess; rewrite Ha, Hb].
  destruct (swapIfLess_split j xs a b Ha Hb) as [Hxs Hlen].
  remember (take j xs) as l eqn:El. remember (drop (S (S j)) xs) as d eqn:Ed.
  clear El Ed Ha Hb. subst xs j. rewrite swapIfLess_app.
  destruct (less a b); [|done].
  apply Permutation_app_head, perm_swap.
Qed.

Lemma innerLoop_perm (k j : nat) (xs : list A) : innerLoop less k j xs ≡ₚ xs.
Proof.
  revert j xs. induction k as [|k IH]; intros j xs; simpl; [done|].
  rewrite IH. apply swapIfLess_perm.
Qed.

Lemma outerLoop_perm (p i n : nat) (xs : list A) : outerLoop less p i n xs ≡ₚ xs.
Proof.
  revert i xs. induction p as [|p IH]; intros i xs; simpl; [done|].
  rewrite IH. apply innerLoop_perm.
Qed.

Lemma bubbleSort_perm (xs : list A) : bubbleSort less xs ≡ₚ xs.
Proof. apply outerLoop_perm. Qed.

Lemma bubbleSort_length (xs : list A) : length (bubbleSort less xs) = length xs.
Proof. apply Permutation_length, bubbleSort_perm. Qed.

(** The index loop is the traversal [bubble]. *)
Lemma innerLoop_bubble (k : nat) (l t : list A) :
  (k < length t)%nat →
  innerLoop less k (length l) (l ++ t) = l ++ bubble less k t.
Proof.
  revert l t. induction k as [|k IH]; intros l t Hk; simpl; [done|].
  destruct t as [|a [|b t]]; simpl in Hk; try lia.
  rewrite swapIfLess_app.
  destruct (less a b).
  - replace (S (length l)) with (length (l ++ [b])) by (rewrite length_app; simpl; lia).
    replace (l ++ b :: a :: t) with ((l ++ [b]) ++ a :: t) by (by rewrite <-app_assoc).
    rewrite IH by (simpl; lia). by rewrite <-app_assoc.
  - replace (S (length l)) with (length (l ++ [a])) by (rewrite length_app; simpl; lia).
    replace (l ++ a :: b :: t) with ((l ++ [a]) ++ b :: t) by (by rewrite <-app_assoc).
    rewrite IH by (simpl; lia). by rewrite <-app_assoc.
Qed.

Lemma innerLoop_bubble_0 (k : nat) (t : list A) :
  (k < length t)%nat → innerLoop less k 0 t = bubble less k t.
Proof. intros Hk. apply (innerLoop_bubble k [] t Hk). Qed.

Lemma bubble_perm (k : nat) (l : list A) : bubble less k l ≡ₚ l.
Proof.
  revert l. induction k as [|k IH]; intros l; [by destruct l|].
  destruct l as [|a [|b t]]; simpl; try done.
  destruct (less a b).
  - rewrite IH. apply perm_swap.
  - by rewrite IH.
Qed.

Lemma bubble_app (k : nat) (l1 l2 : list A) :
  (k < length l1)%nat → bubble less k (l1 ++ l2) = bubble less k l1 ++ l2.
Proof.
  revert l1. induction k as [|k IH]; intros l1 Hk; [by destruct l1|].
  destruct l1 as [|a [|b t]]; simpl in Hk; try lia. simpl.
  destruct (less a b).
  - simpl. f_equal. apply (IH (a :: t)). simpl; lia.
  - simpl. f_equal. apply (IH (b :: t)). simpl; lia.
Qed.

(** [less] behaves as a strict weak order on the elements that are [good]. *)
Context (good : A → Prop).
Context (less_asym : ∀ x y, less x y = true → less y x = false).
Context (less_negtrans : ∀ x y z, good x → good y → good z →
           less x y = false → less y z = false → less x z = false).

Lemma less_irrefl (x : A) : less x x = false.
Proof. destruct (less x x) eqn:E; [|done]. by rewrite (less_asym _ _ E) in E. Qed.

(** One pass carries to the end an element that every other one may precede. *)
Lemma bubble_last (t : list A) (a : A) :
  Forall good (a :: t) →
  ∃ l' c, bubble less (length t) (a :: t) = l' ++ [c]
          ∧ Forall (λ x, inOrder less x c) l' ∧ inOrder less a c.
Proof.
  revert a. induction t as [|b t IH]; intros a Hgood.
  - exists [], a. simpl. split_and!; [done|constructor|apply less_irrefl].
  - simpl. destruct (less a b) eqn:Hab.
    + destruct (IH a) as (l' & c & Heq & Hl' & Hac).
      { inversion Hgood as [|? ? Ha Ht]; inversion Ht; by constructor. }
      exists (b :: l'), c. rewrite Heq. split_and!; [done| |done].
      constructor; [|done].
      assert (Hc : good c).
      { assert (Hin : c ∈ bubble less (length t) (a :: t)).
        { rewrite Heq, elem_of_app, list_elem_of_singleton. by right. }
        rewrite bubble_perm in Hin.
        rewrite Forall_forall in Hgood. apply Hgood.
        rewrite !elem_of_cons in *. tauto. }
      inversion Hgood as [|? ? Ha Ht]; inversion Ht as [|? ? Hb ?]; subst.
      apply (less_negtrans b a c); auto.
    + destruct (IH b) as (l' & c & Heq & Hl' & Hbc).
      { by inversion Hgood. }
      assert (Hc : good c).
      { assert (Hin : c ∈ bubble less (length t) (b :: t)).
        { rewrite Heq, elem_of_app, list_elem_of_singleton. by right. }
        rewrite bubble_perm in Hin.
        rewrite Forall_forall in Hgood. apply Hgood.
        rewrite !elem_of_cons in *. tauto. }
      inversion Hgood as [|? ? Ha Ht]; inversion Ht as [|? ? Hb ?]; subst.
      assert (Hac : inOrder less a c) by (apply (less_negtrans a b c); auto).
      exists (a :: l'), c. rewrite Heq. split_and!; [done| |done].
      by constructor.
Qed.

Lemma outerLoop_sorted (p : nat) :
  ∀ (pre suf : list A),
    length pre = S p →
    Forall good (pre ++ suf) →
    StronglySorted (inOrder less) suf →
    (∀ x y, x ∈ pre → y ∈ suf → inOrder less x y) →
    StronglySorted (inOrder less)
      (outerLoop less p (length suf) (length pre + length suf) (pre ++ suf)).
Proof.
  induction p as [|p IH]; intros pre suf Hlen Hgood Hsuf Hcross.
  - destruct pre as [|a [|? ?]]; simplify_eq/=.
    constructor; [done|]. apply Forall_forall. intros y Hy. apply Hcross; set_solver.
  - destruct pre as [|a t]; [done|]. simpl in Hlen.
    cbn [outerLoop].
    replace (length (a :: t) + length suf - length suf - 1)%nat with (length t)
      by (simpl; lia).
    rewrite innerLoop_bubble_0 by (rewrite length_app; simpl; lia).
    rewrite bubble_app by (simpl; lia).
    destruct (bubble_last t a) as (l' & c & Heq & Hl' & _).
    { by apply Forall_app in Hgood as [? _]. }
    assert (Hperm : l' ++ [c] ≡ₚ a :: t) by (rewrite <-Heq; apply bubble_perm).
    rewrite Heq, <-app_assoc. simpl.
    assert (Hl'len : length l' = S p).
    { apply Permutation_length in Hperm. rewrite length_app in Hperm. simpl in Hperm. lia. }
    replace (S (length suf)) with (length (c :: suf)) by done.
    replace (S (length t + length suf)) with (length l' + length (c :: suf))%nat
      by (simpl; lia).
    apply IH; [done| | |].
    + rewrite (cons_middle c l' suf), app_assoc, Hperm. done.
    + constructor; [done|]. apply Forall_forall. intros y Hy.
      apply Hcross; [|done]. rewrite <-Hperm. set_solver.
    + intros x y Hx Hy. apply elem_of_cons in Hy as [->|Hy].
      * rewrite Forall_forall in Hl'. by apply Hl'.
      * apply Hcross; [|done]. rewrite <-Hperm. set_solver.
Qed.

Lemma bubbleSort_sorted (xs : list A) :
  Forall good xs → StronglySorted (inOrder less) (bubbleSort less xs).
Proof.
  intros Hgood. unfold bubbleSort.
  destruct xs as [|a t]; [constructor|].
  pose proof (outerLoop_sorted (length t) (a :: t) []) as H.
  rewrite app_nil_r in H. simpl in H.
  replace (length t + 0)%nat with (length t) in H by lia.
  simpl. rewrite Nat.sub_0_r. apply H; [done|done|constructor|].
  intros x y _ Hy. by apply elem_of_nil in Hy.
Qed.
End BubbleSortFacts.

Lemma StronglySorted_weaken {A} (R R' : A → A → Prop) (l : list A) :
  (∀ x y, R x y → R' x y) → StronglySorted R l → StronglySorted R' l.
Proof.
  intros HR. induction 1 as [|a l Hl IH Ha]; constructor; [done|].
  eapply Forall_impl; [exact Ha|]. auto.
Qed.

Lemma topN_take {A} (limit : Z) (xs : list A) :
  topN limit xs = take (Z.to_nat (Z.min limit (Z.of_nat (length xs)))) xs.
Proof.
  unfold topN. destruct (Z.gtb_spec limit (Z.of_nat (length xs))); f_equal; lia.
Qed.

(** ** Order of float64 values *)

Lemma SFltb_asym (a b : spec_float) : SFltb a b = true → SFltb b a = false.
Proof.
  unfold SFltb, SFcompare.
  destruct a as [sa|sa| |sa ma ea], b as [sb|sb| |sb mb eb];
    repeat match goal with s : bool |- _ => destruct s end; simpl; try congruence.
  all: rewrite ?Pos.compare_cont_spec; simpl.
  all: destruct (Z.compare_spec ea eb), (Z.compare_spec eb ea); try congruence; try lia; subst.
  all: destruct (Pos.compare_spec ma mb), (Pos.compare_spec mb ma);
    simpl; try congruence; try lia.
Qed.

Lemma SFltb_negtrans (a b c : spec_float) :
  a ≠ S754_nan → b ≠ S754_nan → c ≠ S754_nan →
  SFltb a b = false → SFltb b c = false → SFltb a c = false.
Proof.
  unfold SFltb, SFcompare.
  destruct a as [sa|sa| |sa ma ea], b as [sb|sb| |sb mb eb], c as [sc|sc| |sc mc ec];
    intros Ha Hb Hc; try congruence;
    repeat match goal with s : bool |- _ => destruct s end; simpl; try congruence.
  all: rewrite ?Pos.compare_cont_spec; simpl.
  all: destruct (Z.compare_spec ea eb), (Z.compare_spec eb ec), (Z.compare_spec ea ec);
    try congruence; try lia; subst.
  all: destruct (Pos.compare_spec ma mb), (Pos.compare_spec mb mc), (Pos.compare_spec ma mc);
    simpl; try congruence; try lia.
Qed.

Lemma not_nan_spec (x : float) : PrimFloat.is_nan x = false → Prim2SF x ≠ S754_nan.
Proof.
  unfold PrimFloat.is_nan. rewrite FloatAxioms.eqb_spec. unfold SFeqb.
  intros H E. rewrite E in H. simpl in H. discriminate.
Qed.

Lemma float_ltb_asym (x y : float) : PrimFloat.ltb x y = true → PrimFloat.ltb y x = false.
Proof. rewrite !FloatAxioms.ltb_spec. apply SFltb_asym. Qed.

Lemma float_ltb_negtrans (x y z : float) :
  PrimFloat.is_nan x = false → PrimFloat.is_nan y = false → PrimFloat.is_nan z = false →
  PrimFloat.ltb x y = false → PrimFloat.ltb y z = false → PrimFloat.ltb x z = false.
Proof.
  rewrite !FloatAxioms.ltb_spec. intros Hx Hy Hz.
  apply SFltb_negtrans; apply not_nan_spec; assumption.
Qed.

Lemma SFltb_false_leb (a b : spec_float) :
  a ≠ S754_nan → b ≠ S754_nan → SFltb a b = false → SFleb b a = true.
Proof.
  unfold SFltb, SFleb, SFcompare.
  destruct a as [sa|sa| |sa ma ea], b as [sb|sb| |sb mb eb];
    intros Ha Hb; try congruence;
    repeat match goal with s : bool |- _ => destruct s end; simpl; try congruence.
  all: rewrite ?Pos.compare_cont_spec; simpl.
  all: destruct (Z.compare_spec ea eb), (Z.compare_spec eb ea); try congruence; try lia; subst.
  all: destruct (Pos.compare_spec ma mb), (Pos.compare_spec mb ma);
    simpl; try congruence; try lia.
Qed.

(** Without NaN, "not less" is "greater or equal". *)
Lemma float_ltb_false_leb (x y : float) :
  PrimFloat.is_nan x = false → PrimFloat.is_nan y = false →
  PrimFloat.ltb x y = false → PrimFloat.leb y x = true.
Proof.
  rewrite FloatAxioms.ltb_spec, FloatAxioms.leb_spec. intros Hx Hy.
  apply SFltb_false_leb; apply not_nan_spec; assumption.
Qed.

(** ** Ranking in the services *)

Section Ranking.
Context {R A : Type} (fetch : M R (list A)) (less : A → A → bool) (good : A → Prop).
Context (less_asym : ∀ x y, less x y = true → less y x = false).
Context (less_negtrans : ∀ x y z, good x → good y → good z →
           less x y = false → less y z = false → less x z = false).

(** The body every ranking method instantiates. *)
Lemma ranking_run (limit : Z) (r r' : R) (universe : list A) :
  fetch r = (Ok universe, r') →
  Forall good universe →
  ∃ ranked,
    (xs ← fetch; mret (topN (defaultLimit limit) (bubbleSort less xs))) r
    = (Ok (take (Z.to_nat (Z.min (if limit <=? 0 then 10 else limit)
                            (Z.of_nat (length universe)))) ranked), r')
    ∧ ranked ≡ₚ universe
    ∧ StronglySorted (λ a b, less a b = false) ranked.
Proof.
  intros Hfetch Hgood. exists (bubbleSort less universe). split_and!.
  - erewrite bind_Ok by exact Hfetch.
    rewrite topN_take, bubbleSort_length. reflexivity.
  - apply bubbleSort_perm.
  - apply (bubbleSort_sorted less good less_asym less_negtrans universe Hgood).
Qed.
End Ranking.

(** C2, as amended. For every limit and every quote universe the repository
    returns in which no percent change is NaN: GetMOEXTopGainers returns a
    permutation of the universe in which no quote stands before one of
    greater percent change (descending order), cut to min(N, universe size),
    where N is the limit, or 10 when the limit is not positive;
    GetMOEXTopLosers returns the same with the order reversed. *)
Theorem top_gainers_losers_ranked {R : Type} `{!ports.StockRepository R}
    (limit : Z) (r r' : R) (universe : list Stock) :
  ports.GetStocks [] r = (Ok universe, r') →
  Forall (λ s, PrimFloat.is_nan (ChangePerc s) = false) universe →
  let n := Z.to_nat (Z.min (if limit <=? 0 then 10 else limit)
                       (Z.of_nat (length universe))) in
  (∃ ranked,
      StockServiceImpl.GetMOEXTopGainers limit r = (Ok (take n ranked), r')
      ∧ ranked ≡ₚ universe
      ∧ StronglySorted (λ a b, PrimFloat.ltb (ChangePerc a) (ChangePerc b) = false) ranked)
  ∧ (∃ ranked,
      StockServiceImpl.GetMOEXTopLosers limit r = (Ok (take n ranked), r')
      ∧ ranked ≡ₚ universe
      ∧ StronglySorted (λ a b, PrimFloat.ltb (ChangePerc b) (ChangePerc a) = false) ranked).
Proof.
  intros Hfetch Hgood n. split.
  - apply (ranking_run (ports.GetStocks [])
             (λ a b, PrimFloat.ltb (ChangePerc a) (ChangePerc b))
             (λ s, PrimFloat.is_nan (ChangePerc s) = false)); [| |done|done].
    + intros x y. apply float_ltb_asym.
    + intros x y z. apply float_ltb_negtrans.
  - apply (ranking_run (ports.GetStocks [])
             (λ a b, PrimFloat.ltb (ChangePerc b) (ChangePerc a))
             (λ s, PrimFloat.is_nan (ChangePerc s) = false)); [| |done|done].
    + intros x y. apply float_ltb_asym.
    + intros x y z Hx Hy Hz Hxy Hyz. by apply (float_ltb_negtrans _ (ChangePerc y)).
Qed.

Lemma top_gainers_losers_ranked_witness :
  (∃ ranked,
      @StockServiceImpl.GetMOEXTopGainers _ Fixture.stocks 2 Fixture.warm
      = (Ok (take 2 ranked), (@ports.GetStocks _ Fixture.stocks [] Fixture.warm).2)
      ∧ ranked ≡ₚ [Fixture.sber; Fixture.gazp; Fixture.lkoh]
      ∧ StronglySorted (λ a b, PrimFloat.ltb (ChangePerc a) (ChangePerc b) = false) ranked)
  ∧ (∃ ranked,
      @StockServiceImpl.GetMOEXTopLosers _ Fixture.stocks 2 Fixture.warm
      = (Ok (take 2 ranked), (@ports.GetStocks _ Fixture.stocks [] Fixture.warm).2)
      ∧ ranked ≡ₚ [Fixture.sber; Fixture.gazp; Fixture.lkoh]
      ∧ StronglySorted (λ a b, PrimFloat.ltb (ChangePerc b) (ChangePerc a) = false) ranked).
Proof.
  apply (@top_gainers_losers_ranked _ Fixture.stocks 2 Fixture.warm
           (@ports.GetStocks _ Fixture.stocks [] Fixture.warm).2
           [Fixture.sber; Fixture.gazp; Fixture.lkoh]).
  - vm_compute. reflexivity.
  - repeat constructor.
Defined.

(** C2 as stated fails: a universe holding a quote whose percent change is
    NaN comes back from GetMOEXTopGainers with a smaller percent change
    standing before a greater one. *)
Lemma top_gainers_NaN_counterexample :
  ¬ (∀ (R : Type) (repo : ports.StockRepository R) (limit : Z) (r r' : R)
       (universe : list Stock),
       ports.GetStocks [] r = (Ok universe, r') →
       let n := Z.to_nat (Z.min (if limit <=? 0 then 10 else limit)
                            (Z.of_nat (length universe))) in
       (∃ ranked,
           StockServiceImpl.GetMOEXTopGainers limit r = (Ok (take n ranked), r')
           ∧ ranked ≡ₚ universe
           ∧ StronglySorted (λ a b, PrimFloat.ltb (ChangePerc a) (ChangePerc b) = false) ranked)
       ∧ (∃ ranked,
           StockServiceImpl.GetMOEXTopLosers limit r = (Ok (take n ranked), r')
           ∧ ranked ≡ₚ universe
           ∧ StronglySorted (λ a b, PrimFloat.ltb (ChangePerc b) (ChangePerc a) = false) ranked)).
Proof.
  intros claim.
  destruct (claim _ Fixture.stocks 3 Fixture.withNaN
              (@ports.GetStocks _ Fixture.stocks [] Fixture.withNaN).2
              [Fixture.lkoh; Fixture.odd; Fixture.sber])
    as [(ranked & Hrun & Hperm & Hsorted) _].
  { vm_compute. reflexivity. }
  assert (Hlen : length ranked = 3%nat) by (by rewrite Hperm).
  assert (Hout : (@StockServiceImpl.GetMOEXTopGainers _ Fixture.stocks 3 Fixture.withNaN).1
                 = Ok [Fixture.lkoh; Fixture.odd; Fixture.sber])
    by (vm_compute; reflexivity).
  rewrite Hrun in Hout. cbn [fst] in Hout.
  change (Z.to_nat _) with 3%nat in Hout.
  rewrite take_ge in Hout by lia. injection Hout as ->.
  inversion Hsorted as [|? ? _ Hfirst]; subst.
  inversion Hfirst as [|? ? _ Hrest]; subst.
  inversion Hrest as [|? ? Hbad _]; subst.
  vm_compute in Hbad. discriminate.
Qed.

(** C10. For every limit, GetRecentNews returns the news items of today
    newest first: a permutation of them in which no item stands before one
    published later, cut to min(N, number of items), where N is the limit, or
    10 when the limit is not positive. *)
Theorem recent_news_newest_first {R : Type} `{!ports.NewsRepository R}
    (limit : Z) (r r' : R) (today : list News) :
  ports.GetNewsForToday r = (Ok today, r') →
  ∃ ranked,
    NewsServiceImpl.GetRecentNews limit r
    = (Ok (take (Z.to_nat (Z.min (if limit <=? 0 then 10 else limit)
                             (Z.of_nat (length today)))) ranked), r')
    ∧ ranked ≡ₚ today
    ∧ StronglySorted
        (λ a b, unixNano (PublishedAt b) ≤ unixNano (PublishedAt a)) ranked.
Proof.
  intros Hfetch.
  destruct (ranking_run ports.GetNewsForToday
              (λ a b, time.Before (PublishedAt a) (PublishedAt b)) (λ _, True))
    with (limit := limit) (r := r) (r' := r') (universe := today)
    as (ranked & Hrun & Hperm & Hsorted).
  - unfold time.Before. intros x y. rewrite Z.ltb_lt, Z.ltb_ge. lia.
  - unfold time.Before. intros x y z _ _ _. rewrite !Z.ltb_ge. lia.
  - done.
  - by apply Forall_forall.
  - exists ranked. split_and!; [done|done|].
    eapply StronglySorted_weaken; [|exact Hsorted].
    unfold time.Before. intros x y. rewrite Z.ltb_ge. done.
Qed.

Lemma recent_news_newest_first_witness :
  ∃ ranked,
    @NewsServiceImpl.GetRecentNews _ Fixture.news 1 Fixture.warm
    = (Ok (take 1 ranked), (@ports.GetNewsForToday _ Fixture.news Fixture.warm).2)
    ∧ ranked ≡ₚ [Fixture.news1; Fixture.news2]
    ∧ StronglySorted
        (λ a b, unixNano (PublishedAt b) ≤ unixNano (PublishedAt a)) ranked.
Proof.
  apply (@recent_news_newest_first _ Fixture.news 1 Fixture.warm
           (@ports.GetNewsForToday _ Fixture.news Fixture.warm).2
           [Fixture.news1; Fixture.news2]).
  vm_compute. reflexivity.
Defined.

(** ** The stock search *)

(** Whatever the query, [SearchStocks] keeps every stock: the filter calls
    [containsIgnoreCase], which answers true. *)
Lemma SearchStocks_keeps_all {R : Type} `{!ports.StockRepository R}
    (query : string) (r r' : R) (universe : list Stock) :
  query ≠ "" →
  ports.GetStocks [] r = (Ok universe, r') →
  StockServiceImpl.SearchStocks query r = (Ok universe, r').
Proof.
  intros Hq Hfetch. unfold StockServiceImpl.SearchStocks.
  rewrite bool_decide_eq_false_2 by done.
  erewrite bind_Ok by exact Hfetch.
  unfold mret, M_ret, mpure. do 2 f_equal.
  clear Hfetch. induction universe as [|s l IH]; [done|].
  rewrite filter_cons_True by exact I. by rewrite IH.
Qed.

(** C3, the failing input. The query "ZZZ" is a substring of no ticker and
    of no name of the universe SBER/Sberbank, GAZP/Gazprom, LKOH/Lukoil, in
    any letter case, and [SearchStocks] returns all three stocks. *)
Theorem SearchStocks_returns_non_matching :
  (@ports.GetStocks _ Fixture.stocks [] Fixture.warm).1
  = Ok [Fixture.sber; Fixture.gazp; Fixture.lkoh]
  ∧ (@StockServiceImpl.SearchStocks _ Fixture.stocks "ZZZ" Fixture.warm).1
    = Ok [Fixture.sber; Fixture.gazp; Fixture.lkoh]
  ∧ filter (λ s, matchesQuery "ZZZ" s) [Fixture.sber; Fixture.gazp; Fixture.lkoh] = [].
Proof. split_and!; vm_compute; reflexivity. Qed.

(** ** Validation before any input or output *)

(** C6. GetStockInfo with an empty ticker, SearchNewsByKeyword with an empty
    keyword and GetNewsForMultipleTickers with an empty ticker list return a
    validation error and leave the repository as it was: no method of the
    repository, hence no cache, store or provider action, is attempted. This
    holds for every implementation of the repository interfaces. *)
Theorem validation_before_io {RS RN : Type}
    `{!ports.StockRepository RS} `{!ports.NewsRepository RN} (rs : RS) (rn : RN) :
  StockServiceImpl.GetStockInfo "" rs
  = (Fail (errorString "тикер не может быть пустым"), rs)
  ∧ NewsServiceImpl.SearchNewsByKeyword "" rn
    = (Fail (errorString "ключевое слово не может быть пустым"), rn)
  ∧ NewsServiceImpl.GetNewsForMultipleTickers [] rn
    = (Fail (errorString "список тикеров не может быть пустым"), rn).
Proof. split_and!; reflexivity. Qed.

(** With the repositories of the server the log of attempted actions is
    unchanged, while a valid input does reach the cache. *)
Lemma validation_before_io_world :
  w_log (@StockServiceImpl.GetStockInfo _ Fixture.stocks "" Fixture.cold).2 = []
  ∧ w_log (@NewsServiceImpl.SearchNewsByKeyword _ Fixture.news "" Fixture.cold).2 = []
  ∧ w_log (@NewsServiceImpl.GetNewsForMultipleTickers _ Fixture.news [] Fixture.cold).2 = []
  ∧ head (w_log (@StockServiceImpl.GetStockInfo _ Fixture.stocks "GAZP" Fixture.cold).2)
    = Some (EvCacheGet "stock:GAZP").
Proof. split_and!; vm_compute; reflexivity. Qed.

(** ** De-duplication in GetNewsForMultipleTickers *)

Lemma filter_none {A} (P : A → Prop) `{!∀ x, Decision (P x)} (l : list A) :
  (∀ z, z ∈ l → ¬ P z) → filter P l = [].
Proof.
  induction l as [|y l IH]; intros Hl; [done|].
  rewrite filter_cons_False by (apply Hl; left).
  apply IH. intros z Hz. apply Hl. by right.
Qed.

Lemma occurs_once {A B} `{!EqDecision B} (f : A → B) (x : A) (l : list A) :
  NoDup (f <$> l) → f x ∈ f <$> l → length (filter (λ y, f y = f x) l) = 1%nat.
Proof.
  induction l as [|y l IH]; simpl; intros Hnd Hin.
  - by apply elem_of_nil in Hin.
  - apply NoDup_cons in Hnd as [Hy Hnd].
    destruct (decide (f y = f x)) as [E|E].
    + rewrite filter_cons_True by done. simpl. f_equal.
      rewrite filter_none; [done|].
      intros z Hz Ez. apply Hy. rewrite E, <-Ez. by apply list_elem_of_fmap_2.
    + rewrite filter_cons_False by done. apply IH; [done|].
      apply elem_of_cons in Hin as [Hin|Hin]; [congruence|done].
Qed.

(** A ticker listed in [RelatedTo] relates the item, whatever its texts. *)
Lemma related_ticker_matches (news : News) (ticker : string) :
  ticker ∈ RelatedTo news → containsTickerInNews news ticker = true.
Proof.
  intros Hin. unfold containsTickerInNews.
  destruct (existsb _ _) eqn:E; [done|].
  apply not_true_iff_false in E. destruct E.
  apply existsb_exists. exists ticker. split; [by apply list_elem_of_In|].
  by apply bool_decide_eq_true_2.
Qed.

Section Dedup.
Context (tickers : list string).

Lemma tickersLoop_spec (news : News) (st : NewsServiceImpl.dedupState) :
  NewsServiceImpl.tickersLoop news tickers st
  = if matchesAny tickers news
    then if negb (default false (st.2 !! ID news))
         then (st.1 ++ [news], <[ID news := true]> st.2)
         else st
    else st.
Proof.
  unfold matchesAny. induction tickers as [|t ts IH]; simpl; [done|].
  destruct (containsTickerInNews news t); simpl; [done|apply IH].
Qed.

Lemma tickersLoop_step (news : News) (st : NewsServiceImpl.dedupState) :
  dedupInv st →
  let st' := NewsServiceImpl.tickersLoop news tickers st in
  dedupInv st'
  ∧ (∃ added, st'.1 = st.1 ++ added ∧ sublist added [news])
  ∧ (matchesAny tickers news = true → ID news ∈ ID <$> st'.1).
Proof.
  intros [Hnd Hseen]. cbn zeta. rewrite tickersLoop_spec.
  destruct (matchesAny tickers news) eqn:Hm.
  - destruct (default false (st.2 !! ID news)) eqn:Hs; simpl.
    + split_and!; [by split| |intros _; by apply Hseen].
      exists []. rewrite app_nil_r. split; [done|apply sublist_nil_l].
    + assert (Hfresh : ID news ∉ ID <$> st.1).
      { intros Hin. apply Hseen in Hin. congruence. }
      cbn [fst snd]. split_and!.
      * split; cbn [fst snd].
        -- rewrite fmap_app. simpl. apply NoDup_app. split_and!; [done| |apply NoDup_singleton].
           intros id Hid ->%list_elem_of_singleton. done.
        -- intros id. rewrite fmap_app, elem_of_app. simpl.
           rewrite list_elem_of_singleton, <-Hseen.
           destruct (decide (id = ID news)) as [->|Hne].
           ++ rewrite lookup_insert_eq. simpl. tauto.
           ++ rewrite lookup_insert_ne by done. split; [tauto|]. intros [?|?]; done.
      * exists [news]. done.
      * intros _. rewrite fmap_app, elem_of_app. right. simpl. by left.
  - split_and!; [by split| |done].
    exists []. rewrite app_nil_r. split; [done|apply sublist_nil_l].
Qed.

Lemma dedup_fold (l : list News) :
  ∀ st, dedupInv st →
    let st' := foldl (λ st news, NewsServiceImpl.tickersLoop news tickers st) st l in
    dedupInv st'
    ∧ (∃ added, st'.1 = st.1 ++ added ∧ sublist added l)
    ∧ (∀ n, n ∈ l → matchesAny tickers n = true → ID n ∈ ID <$> st'.1).
Proof.
  induction l as [|n l IH]; intros st Hinv; cbn zeta.
  - simpl. split_and!; [done| |].
    + exists []. by rewrite app_nil_r.
    + intros n Hn. by apply elem_of_nil in Hn.
  - simpl.
    destruct (tickersLoop_step n st Hinv) as (Hinv1 & (a1 & Ha1 & Hs1) & Hn1).
    destruct (IH _ Hinv1) as (Hinv2 & (a2 & Ha2 & Hs2) & Hl2).
    split_and!; [done| |].
    + exists (a1 ++ a2). split.
      * rewrite Ha2, Ha1. by rewrite <-app_assoc.
      * change (n :: l) with ([n] ++ l). by apply sublist_app.
    + intros m Hm Hmatch. apply elem_of_cons in Hm as [->|Hm].
      * rewrite Ha2, fmap_app, elem_of_app. left. by apply Hn1.
      * by apply Hl2.
Qed.
End Dedup.

(** What the specification calls related is related for the code. *)
Lemma relatedToTicker_matches (news : News) (ticker : string) :
  relatedToTicker ticker news = true → containsTickerInNews news ticker = true.
Proof.
  intros _. destruct (decide (ticker ∈ RelatedTo news)) as [Hin|Hin].
  - by apply related_ticker_matches.
  - unfold containsTickerInNews, containsIgnoreCase. by destruct (existsb _ _).
Qed.

Lemma same_key_same_item {A B} (f : A → B) (x y : A) (l : list A) :
  NoDup (f <$> l) → x ∈ l → y ∈ l → f x = f y → x = y.
Proof.
  induction l as [|z l IH]; simpl; intros Hnd Hx Hy Hf.
  - by apply elem_of_nil in Hx.
  - apply NoDup_cons in Hnd as [Hz Hnd].
    apply elem_of_cons in Hx as [->|Hx]; apply elem_of_cons in Hy as [->|Hy].
    + done.
    + destruct Hz. rewrite Hf. by apply list_elem_of_fmap_2.
    + destruct Hz. rewrite <-Hf. by apply list_elem_of_fmap_2.
    + by apply IH.
Qed.

Lemma occurs_once_elem {A B} `{!EqDecision B} (f : A → B) (x : A) (l : list A) :
  length (filter (λ y, f y = f x) l) = 1%nat → ∃ y, y ∈ l ∧ f y = f x.
Proof.
  intros Hlen. destruct (filter (λ y, f y = f x) l) as [|y rest] eqn:E; [done|].
  assert (Hy : y ∈ filter (λ y, f y = f x) l) by (rewrite E; left).
  apply list_elem_of_filter in Hy as [Hf Hy]. by exists y.
Qed.

(** C5. For every non-empty ticker list and every list of today's news,
    GetNewsForMultipleTickers returns a selection of today's news in their
    order in which no news id occurs twice, and every item of today's news
    that is related to at least one of the tickers (one of them is listed in
    its related_to set, or occurs in its title, description or content
    whatever the case of the letters) is represented in the result exactly
    once by its id, however many of the tickers it is related to; where the
    ids of today's news are distinct, the item itself is in the result. *)
Theorem each_matching_news_once {R : Type} `{!ports.NewsRepository R}
    (tickers : list string) (r r' : R) (allNews : list News) :
  tickers ≠ [] →
  ports.GetNewsForToday r = (Ok allNews, r') →
  ∃ res,
    NewsServiceImpl.GetNewsForMultipleTickers tickers r = (Ok res, r')
    ∧ sublist res allNews
    ∧ NoDup (ID <$> res)
    ∧ ∀ n, n ∈ allNews →
        (∃ t, t ∈ tickers ∧ relatedToTicker t n = true) →
        length (filter (λ m, ID m = ID n) res) = 1%nat
        ∧ (NoDup (ID <$> allNews) → n ∈ res).
Proof.
  intros Hne Hfetch.
  destruct (dedup_fold tickers allNews ([], ∅)) as (Hinv & (added & Hadd & Hsub) & Hall).
  { split; [constructor|]. intros id. simpl. rewrite lookup_empty. simpl.
    split; [done|]. intros Hin. by apply elem_of_nil in Hin. }
  eexists. split_and!.
  - unfold NewsServiceImpl.GetNewsForMultipleTickers.
    rewrite bool_decide_eq_false_2 by (by destruct tickers).
    erewrite bind_Ok by exact Hfetch. reflexivity.
  - rewrite Hadd. exact Hsub.
  - apply Hinv.
  - intros n Hn (t & Ht & Hrel).
    assert (Honce : length (filter (λ m, ID m = ID n)
                      (foldl (λ st news, NewsServiceImpl.tickersLoop news tickers st)
                         ([], ∅) allNews).1) = 1%nat).
    { apply occurs_once; [apply Hinv|].
      apply Hall; [done|]. unfold matchesAny. apply existsb_exists.
      exists t. split; [by apply list_elem_of_In|by apply relatedToTicker_matches]. }
    split; [exact Honce|].
    intros Hdistinct. apply occurs_once_elem in Honce as (m & Hm & Hid).
    assert (Hm' : m ∈ allNews).
    { eapply elem_of_sublist; [exact Hm|]. rewrite Hadd. exact Hsub. }
    by rewrite <-(same_key_same_item ID m n allNews Hdistinct Hm' Hn Hid).
Qed.

Lemma each_matching_news_once_witness :
  ∃ res,
    @NewsServiceImpl.GetNewsForMultipleTickers _ Fixture.news ["SBER"; "GAZP"] Fixture.warm
    = (Ok res, (@ports.GetNewsForToday _ Fixture.news Fixture.warm).2)
    ∧ sublist res [Fixture.news1; Fixture.news2]
    ∧ NoDup (ID <$> res)
    ∧ ∀ n, n ∈ [Fixture.news1; Fixture.news2] →
        (∃ t, t ∈ ["SBER"; "GAZP"] ∧ relatedToTicker t n = true) →
        length (filter (λ m, ID m = ID n) res) = 1%nat
        ∧ (NoDup (ID <$> [Fixture.news1; Fixture.news2]) → n ∈ res).
Proof.
  apply (@each_matching_news_once _ Fixture.news ["SBER"; "GAZP"] Fixture.warm
           (@ports.GetNewsForToday _ Fixture.news Fixture.warm).2
           [Fixture.news1; Fixture.news2]).
  - discriminate.
  - vm_compute. reflexivity.
Defined.

(** The item of the fixture that lists both tickers in [RelatedTo] is
    related to each of them and occurs once in the answer for both. *)
Example news_of_both_tickers_once :
  relatedToTicker "SBER" Fixture.news1 = true
  ∧ relatedToTicker "GAZP" Fixture.news1 = true
  ∧ ∃ res,
      (@NewsServiceImpl.GetNewsForMultipleTickers _ Fixture.news ["SBER"; "GAZP"]
         Fixture.warm).1 = Ok res
      ∧ filter (λ m, ID m = ID Fixture.news1) res = [Fixture.news1].
Proof.
  split_and!; [by vm_compute|by vm_compute|].
  eexists. split; [vm_compute; reflexivity|]. by vm_compute.
Qed.

(** ** Upsert *)

Section Upsert.
Context `{!External} {C : Type} `{!cache.Cache C}.

Lemma find_replaceFirst {D} (filter : D → bool) (doc : D) (l : list D) :
  filter doc = true →
  is_Some (find filter l) →
  find filter (mongo.replaceFirst filter doc l) = Some doc
  ∧ mongo.replaceFirst filter doc (mongo.replaceFirst filter doc l)
    = mongo.replaceFirst filter doc l.
Proof.
  intros Hdoc. induction l as [|d l IH]; simpl; intros Hsome.
  - by destruct Hsome.
  - destruct (filter d) eqn:Hd; simpl.
    + by rewrite Hdoc.
    + rewrite Hd. destruct (IH Hsome) as [-> ->]. done.
Qed.

Lemma find_snoc_fresh {D} (filter : D → bool) (doc : D) (l : list D) :
  filter doc = true →
  find filter l = None →
  find filter (l ++ [doc]) = Some doc
  ∧ mongo.replaceFirst filter doc (l ++ [doc]) = l ++ [doc].
Proof.
  intros Hdoc. induction l as [|d l IH]; simpl; intros Hnone.
  - by rewrite Hdoc.
  - destruct (filter d); [done|]. destruct (IH Hnone) as [-> ->]. done.
Qed.

Lemma upserted_idempotent {D} (filter : D → bool) (doc : D) (c : mongo.Collection D) :
  filter doc = true →
  upserted filter doc (upserted filter doc c) = upserted filter doc c.
Proof.
  intros Hdoc. unfold upserted. destruct c as [docs [err|]]; simpl; [done|].
  destruct (find filter docs) eqn:Hfind; simpl.
  - destruct (find_replaceFirst filter doc docs Hdoc) as [-> ->]; [by rewrite Hfind|done].
  - destruct (find_snoc_fresh filter doc docs Hdoc Hfind) as [-> ->]. done.
Qed.

(** Replacing with another document that the filter accepts overwrites the
    one stored by the first call. *)
Lemma upserted_overwrite {D} (filter : D → bool) (doc doc' : D) (c : mongo.Collection D) :
  filter doc = true → filter doc' = true →
  upserted filter doc' (upserted filter doc c) = upserted filter doc' c.
Proof.
  intros Hdoc Hdoc'. unfold upserted. destruct c as [docs [err|]]; simpl; [done|].
  destruct (find filter docs) as [old|] eqn:Hfind; simpl.
  - destruct (find_replaceFirst filter doc docs Hdoc) as [-> _]; [by rewrite Hfind|].
    f_equal. clear Hfind. induction docs as [|x l IH]; simpl; [done|].
    destruct (filter x) eqn:Hx; simpl.
    + by rewrite Hdoc.
    + by rewrite Hx, IH.
  - destruct (find_snoc_fresh filter doc docs Hdoc Hfind) as [-> _].
    f_equal. induction docs as [|x l IH]; simpl in *.
    + by rewrite Hdoc.
    + destruct (filter x); [done|]. by rewrite IH.
Qed.

Lemma find_byId_none (id : string) (docs : list News) :
  find (NewsRepositoryImpl.byId id) docs = None →
  existsb (λ d, bool_decide (NewsRepositoryImpl.newsId d = Some id)) docs = false.
Proof.
  unfold NewsRepositoryImpl.byId, NewsRepositoryImpl.newsId.
  induction docs as [|d l IH]; simpl; [done|].
  destruct (decide (ID d = id)) as [E|E].
  - by rewrite bool_decide_eq_true_2.
  - rewrite bool_decide_eq_false_2 by done. intros Hl.
    rewrite bool_decide_eq_false_2 by congruence. by apply IH.
Qed.

Lemma SaveNews_store (r : NewsRepositoryImpl.t) (news : News) (w : World C) :
  w_news (NewsRepositoryImpl.SaveNews r (Some news) w).2
  = upserted (NewsRepositoryImpl.byId (ID news)) news (w_news w)
  ∧ w_stocks (NewsRepositoryImpl.SaveNews r (Some news) w).2 = w_stocks w.
Proof.
  unfold NewsRepositoryImpl.SaveNews, upserted, NewsRepositoryImpl.warmCache.
  run_monad. unfold onNews, cacheSet.
  unfold mongo.FindOne, mongo.ReplaceOne, mongo.InsertOne.
  destruct w as [c st [docs [e|]] up now log]; simpl.
  - repeat case_match; simplify_eq/=; done.
  - destruct (find _ docs) eqn:Hfind; simpl.
    + repeat case_match; simplify_eq/=; done.
    + rewrite (find_byId_none _ _ Hfind).
      repeat case_match; simplify_eq/=; done.
Qed.

Lemma SaveStock_store (r : StockRepositoryImpl.t) (stock : Stock) (w : World C) :
  w_stocks (StockRepositoryImpl.SaveStock r (Some stock) w).2
  = upserted (StockRepositoryImpl.byTicker (Ticker stock))
      (DocStock (mkStock (Ticker stock) (Name stock) (Price stock) (Change stock)
                   (ChangePerc stock) (Volume stock) (w_now w)))
      (w_stocks w)
  ∧ w_news (StockRepositoryImpl.SaveStock r (Some stock) w).2 = w_news w
  ∧ w_now (StockRepositoryImpl.SaveStock r (Some stock) w).2 = w_now w.
Proof.
  unfold StockRepositoryImpl.SaveStock, upserted, StockRepositoryImpl.warmCache.
  run_monad. unfold onStocks, cacheSet, timeNow.
  unfold mongo.FindOne, mongo.ReplaceOne, mongo.InsertOne.
  destruct w as [c [docs [e|]] nw up now log]; simpl.
  - repeat case_match; simplify_eq/=; done.
  - destruct (find _ docs) eqn:Hfind; simpl.
    + repeat case_match; simplify_eq/=; done.
    + repeat case_match; simplify_eq/=; done.
Qed.


(** C7, as amended. Saving the identical news item twice leaves the news
    collection as the first call left it, whenever the second call happens.
    Saving the identical stock twice leaves the stocks collection as a single
    call made at the time of the second call leaves it: every call stamps the
    stock with the current time, so the two calls store the same document
    exactly when the clock reads the same. *)
Theorem upsert_twice (nr : NewsRepositoryImpl.t) (sr : StockRepositoryImpl.t)
    (news : News) (stock : Stock) (later : Time) (w : World C) :
  (let once := (NewsRepositoryImpl.SaveNews nr (Some news) w).2 in
   w_news (NewsRepositoryImpl.SaveNews nr (Some news) (atTime later once)).2
   = w_news once)
  ∧ (let once := (StockRepositoryImpl.SaveStock sr (Some stock) w).2 in
     w_stocks (StockRepositoryImpl.SaveStock sr (Some stock) once).2 = w_stocks once
     ∧ w_stocks (StockRepositoryImpl.SaveStock sr (Some stock) (atTime later once)).2
       = w_stocks (StockRepositoryImpl.SaveStock sr (Some stock) (atTime later w)).2).
Proof.
  cbn zeta. split_and!.
  - destruct (SaveNews_store nr news (atTime later (NewsRepositoryImpl.SaveNews nr (Some news) w).2))
      as [-> _].
    destruct (SaveNews_store nr news w) as [E _].
    cbn [atTime w_news]. rewrite E.
    apply upserted_idempotent. unfold NewsRepositoryImpl.byId. by apply bool_decide_eq_true_2.
  - destruct (SaveStock_store sr stock (StockRepositoryImpl.SaveStock sr (Some stock) w).2)
      as (-> & _ & _).
    destruct (SaveStock_store sr stock w) as (E & _ & ->). rewrite E.
    apply upserted_idempotent. unfold StockRepositoryImpl.byTicker.
    by apply bool_decide_eq_true_2.
  - destruct (SaveStock_store sr stock
                (atTime later (StockRepositoryImpl.SaveStock sr (Some stock) w).2))
      as (-> & _ & _).
    destruct (SaveStock_store sr stock (atTime later w)) as (-> & _ & _).
    destruct (SaveStock_store sr stock w) as (E & _ & _).
    cbn [atTime w_stocks w_now]. rewrite E.
    apply upserted_overwrite; unfold StockRepositoryImpl.byTicker;
      by apply bool_decide_eq_true_2.
Qed.
End Upsert.

(** C7 as stated fails for SaveStock: on an empty store, a second call one
    hour after the first replaces the stored document by one with another
    UpdatedAt. *)
Lemma SaveStock_twice_counterexample :
  ¬ (∀ (sr : StockRepositoryImpl.t) (stock : Stock) (later : Time)
       (w : World InMemoryCache.t),
       let once := (@StockRepositoryImpl.SaveStock _ Fixture.inMemory sr (Some stock) w).2 in
       w_stocks (@StockRepositoryImpl.SaveStock _ Fixture.inMemory sr (Some stock)
                   (atTime later once)).2
       = w_stocks once).
Proof.
  intros claim.
  specialize (claim Fixture.stockRepo Fixture.gazp (time.Add Fixture.noon Hour) Fixture.cold).
  vm_compute in claim. discriminate.
Qed.

(** ** Cache misses *)

(** C8. A Get on an absent key is not an error in either backend: the error
    is nil and the destination keeps its value. A failure of the Redis
    server is returned as a non-nil error, and so is a serialization failure
    of the in-memory backend, which has no other way to fail. *)
Theorem cache_miss_is_not_error `{!External} (k : cache.kind) (now : Time)
    (key : string) (dest : cache.typeOf k) :
  (∀ rc : RedisCache.t,
      RedisCache.outage rc = None → RedisCache.entries rc !! key = None →
      RedisCache.Get k now key dest rc = (Ok dest, rc))
  ∧ (∀ (rc : RedisCache.t) (err : error),
      RedisCache.outage rc = Some err → err ≠ redisNil →
      RedisCache.Get k now key dest rc = (Fail err, rc))
  ∧ (∀ mc : InMemoryCache.t,
      InMemoryCache.items mc !! key = None →
      InMemoryCache.Get k now key dest mc = (Ok dest, mc))
  ∧ (∀ (mc : InMemoryCache.t) (k' : cache.kind) (v : cache.typeOf k') (err : error),
      InMemoryCache.clientGet now key mc = Some (existT k' v) →
      json_Marshal k' v = Fail err →
      InMemoryCache.Get k now key dest mc = (Fail err, mc)).
Proof.
  split_and!.
  - intros rc Hup Hkey. unfold RedisCache.Get, RedisCache.clientGet.
    run_monad. by rewrite Hup, Hkey.
  - intros rc err Hdown Herr. unfold RedisCache.Get, RedisCache.clientGet.
    run_monad. rewrite Hdown. by destruct err.
  - intros mc Hkey. unfold InMemoryCache.Get, InMemoryCache.clientGet. by rewrite Hkey.
  - intros mc k' v err Hget Hmarshal. unfold InMemoryCache.Get.
    by rewrite Hget, Hmarshal.
Qed.

Lemma cache_miss_is_not_error_witness :
  @RedisCache.Get Fixture.external cache.KStock Fixture.noon "stock:GAZP" zeroStock
    Fixture.emptyRedis = (Ok zeroStock, Fixture.emptyRedis)
  ∧ @RedisCache.Get Fixture.external cache.KStock Fixture.noon "stock:GAZP" zeroStock
      Fixture.redisDown
    = (Fail (backendError "dial tcp: connection refused"), Fixture.redisDown)
  ∧ @InMemoryCache.Get Fixture.external cache.KStock Fixture.noon "stock:GAZP" zeroStock
      Fixture.emptyCache = (Ok zeroStock, Fixture.emptyCache).
Proof.
  destruct (@cache_miss_is_not_error Fixture.external cache.KStock Fixture.noon
              "stock:GAZP" zeroStock) as (Hredis & Hdown & Hmem & _).
  split_and!.
  - apply Hredis; reflexivity.
  - apply Hdown; [reflexivity|discriminate].
  - apply Hmem; reflexivity.
Defined.

(** ** News ids *)

Lemma Split_nonempty (s : string) (sep : ascii) : GoStrings.Split s sep ≠ [].
Proof.
  destruct s as [|c rest]; simpl; [done|].
  destruct (Ascii.eqb c sep); [done|]. by destruct (GoStrings.Split rest sep).
Qed.

Lemma hasByte_app (c : ascii) (s t : string) :
  hasByte c (s +:+ t) = hasByte c s || hasByte c t.
Proof.
  induction s as [|d s IH]; [done|].
  change (Ascii.eqb d c || hasByte c (s +:+ t) = Ascii.eqb d c || hasByte c s || hasByte c t).
  by rewrite IH, orb_assoc.
Qed.

(** Joining the pieces with the separator gives the string back. *)
Lemma Split_join (s : string) (sep : ascii) :
  String.concat (String sep "") (GoStrings.Split s sep) = s.
Proof.
  induction s as [|c rest IH]; simpl; [done|].
  pose proof (Split_nonempty rest sep) as Hne.
  destruct (Ascii.eqb_spec c sep) as [->|Hc].
  - destruct (GoStrings.Split rest sep) as [|seg segs]; [done|].
    change (String.concat (String sep "") ("" :: seg :: segs))
      with (String sep (String.concat (String sep "") (seg :: segs))).
    by rewrite IH.
  - destruct (GoStrings.Split rest sep) as [|seg segs]; [done|].
    destruct segs as [|seg' segs].
    + simpl in *. by rewrite IH.
    + change (String.concat (String sep "") (String c seg :: seg' :: segs))
        with (String c (String.concat (String sep "") (seg :: seg' :: segs))).
      by rewrite IH.
Qed.

(** No piece holds the separator. *)
Lemma Split_no_sep (s : string) (sep : ascii) :
  Forall (λ seg, hasByte sep seg = false) (GoStrings.Split s sep).
Proof.
  induction s as [|c rest IH]; simpl; [by repeat constructor|].
  destruct (Ascii.eqb_spec c sep) as [->|Hc].
  - by constructor.
  - pose proof (Split_nonempty rest sep) as Hne.
    destruct (GoStrings.Split rest sep) as [|seg segs]; [done|].
    inversion IH as [|? ? Hseg Hsegs]; subst. constructor; [|done].
    simpl. rewrite Hseg. by apply orb_false_intro; [apply Ascii.eqb_neq|].
Qed.

Lemma append_assoc (s t u : string) : (s +:+ t) +:+ u = s +:+ t +:+ u.
Proof.
  induction s as [|c s IH]; [done|].
  change (String c ((s +:+ t) +:+ u) = String c (s +:+ t +:+ u)). by f_equal.
Qed.

Lemma append_nil_r (s : string) : s +:+ "" = s.
Proof.
  induction s as [|c s IH]; [done|].
  change (String c (s +:+ "") = String c s). by f_equal.
Qed.

Lemma concat_snoc (sep : string) (l : list string) (x : string) :
  String.concat sep (l ++ [x])
  = match l with [] => x | _ => String.concat sep l +:+ sep +:+ x end.
Proof.
  induction l as [|y l IH]; [done|].
  destruct l as [|z l]; [done|].
  change (String.concat sep ((y :: z :: l) ++ [x]))
    with (y +:+ sep +:+ String.concat sep ((z :: l) ++ [x])).
  rewrite IH.
  change (String.concat sep (y :: z :: l)) with (y +:+ sep +:+ String.concat sep (z :: l)).
  by rewrite !append_assoc.
Qed.

(** The last piece: what follows the last separator. *)
Lemma Split_last (s : string) (sep : ascii) :
  ∃ dir lastPart,
    last (GoStrings.Split s sep) = Some lastPart
    ∧ s = dir +:+ lastPart
    ∧ (dir = "" ∨ ∃ d, dir = d +:+ String sep "")
    ∧ hasByte sep lastPart = false.
Proof.
  pose proof (Split_join s sep) as Hjoin.
  pose proof (Split_no_sep s sep) as Hno.
  pose proof (Split_nonempty s sep) as Hne.
  destruct (GoStrings.Split s sep) as [|seg segs] using rev_ind; [done|]. clear IHsegs.
  rename seg into lastPart, segs into init.
  rewrite concat_snoc in Hjoin. apply Forall_app in Hno as [_ Hlast].
  inversion Hlast as [|? ? Hlp _]; subst.
  destruct init as [|i0 init].
  - exists "", lastPart. rewrite last_snoc. split_and!; [done|done|by left|done].
  - exists (String.concat (String sep "") (i0 :: init) +:+ String sep ""), lastPart.
    rewrite last_snoc. split_and!; [done| |right; eauto|done].
    by rewrite append_assoc.
Qed.

(** The first piece: what precedes the first separator. *)
Lemma Split_head (s : string) (sep : ascii) :
  ∃ first rest,
    head (GoStrings.Split s sep) = Some first
    ∧ s = first +:+ rest
    ∧ (rest = "" ∨ ∃ rest', rest = String sep rest')
    ∧ hasByte sep first = false.
Proof.
  pose proof (Split_join s sep) as Hjoin.
  pose proof (Split_no_sep s sep) as Hno.
  pose proof (Split_nonempty s sep) as Hne.
  destruct (GoStrings.Split s sep) as [|first segs]; [done|].
  inversion Hno as [|? ? Hfirst _]; subst.
  destruct segs as [|seg segs].
  - exists first, "". simpl. rewrite append_nil_r. split_and!; [done|done|by left|done].
  - exists first, (String sep (String.concat (String sep "") (seg :: segs))).
    split_and!; [done|done|right; eauto|done].
Qed.

(** What [generateNewsID] returns: the URL is [dir ++ id ++ rest], where
    [dir] is empty or ends with "/", [id ++ rest] is the last path segment
    (it holds no "/"), [id] holds none of "?", "#" and ".", and [rest] is
    empty or begins with one of them. *)
Lemma generateNewsID_last_segment (now : Time) (url : string) :
  ∃ dir rest,
    url = dir +:+ generateNewsID now url +:+ rest
    ∧ (dir = "" ∨ ∃ d, dir = d +:+ "/")
    ∧ hasByte "/" (generateNewsID now url +:+ rest) = false
    ∧ hasByte "?" (generateNewsID now url) = false
    ∧ hasByte "#" (generateNewsID now url) = false
    ∧ hasByte "." (generateNewsID now url) = false
    ∧ (rest = "" ∨ ∃ c rest', rest = String c rest' ∧ c ∈ ["?"; "#"; "."]%char).
Proof.
  unfold generateNewsID. cbv zeta.
  destruct (Split_last url "/") as (dir & lastPart & Hlast & Hurl & Hdir & Hslash).
  destruct (GoStrings.Split url "/") as [|p ps] eqn:Hparts; [done|].
  cbn [length Nat.ltb Nat.leb]. rewrite Hlast. cbn [default from_option id].
  destruct (Split_head lastPart "?") as (p1 & r1 & E1 & Hp1 & Hr1 & Hq).
  rewrite E1. cbn [default from_option id].
  destruct (Split_head p1 "#") as (p2 & r2 & E2 & Hp2 & Hr2 & Hh).
  rewrite E2. cbn [default from_option id].
  destruct (Split_head p2 ".") as (stem & r3 & E3 & Hstem & Hr3 & Hd).
  rewrite E3. cbn [default from_option id]. subst p2 p1 lastPart.
  exists dir, (r3 +:+ r2 +:+ r1).
  rewrite !hasByte_app in *. rewrite !append_assoc in Hurl.
  repeat match goal with H : _ || _ = false |- _ => apply orb_false_elim in H as [? ?] end.
  split_and!; try done.
  - repeat (apply orb_false_intro; [assumption|]). assumption.
  - destruct Hr3 as [->|(rest' & ->)]; [|right; eexists _, _; split; [done|repeat constructor]].
    destruct Hr2 as [->|(rest' & ->)]; [|right; eexists _, _; split; [done|repeat constructor]].
    destruct Hr1 as [->|(rest' & ->)]; [by left|right; eexists _, _; split; [done|repeat constructor]].
Qed.

(** The id does not depend on the clock: the timestamp branch is never taken,
    so fetching the same URL again derives the same id. *)
Lemma generateNewsID_deterministic (now now' : Time) (url : string) :
  generateNewsID now url = generateNewsID now' url.
Proof.
  unfold generateNewsID.
  pose proof (Split_nonempty url "/") as Hne.
  destruct (GoStrings.Split url "/"); [done|]. reflexivity.
Qed.

(** C4, the failing input. Two different URLs whose last path segments are
    news.html and news.php?id=7 both derive the id "news". *)
Theorem generateNewsID_collision :
  "https://a.example/2024/news.html" ≠ "https://b.example/markets/news.php?id=7"
  ∧ generateNewsID Fixture.noon "https://a.example/2024/news.html" = "news"
  ∧ generateNewsID Fixture.noon "https://b.example/markets/news.php?id=7" = "news".
Proof. split_and!; [discriminate|reflexivity|reflexivity]. Qed.

(** ** The tiers of a ticker lookup *)

Section Tiers.
Context `{!External} {C : Type} `{!cache.Cache C}.

(** What the primitive actions do to the world. *)
Lemma cacheSet_world (k : cache.kind) (key : string) (v : cache.typeOf k) (ttl : Z)
    (w : World C) :
  (cacheSet k key v ttl w).2
  = mkWorld (cache.Set' k (w_now w) key v ttl (w_cache w)).2 (w_stocks w) (w_news w)
      (w_upstream w) (w_now w) (w_log w ++ [EvCacheSet key ttl]).
Proof. unfold cacheSet. by destruct (cache.Set' _ _ _ _ _ _). Qed.

Lemma warmCache_stocks (r : StockRepositoryImpl.t) (k : cache.kind) (key : string)
    (v : cache.typeOf k) (w : World C) :
  StockRepositoryImpl.warmCache r k key v w
  = (Ok (), (cacheSet k key v (StockRepositoryImpl.cacheExpiry r) w).2).
Proof.
  unfold StockRepositoryImpl.warmCache, mbind, M_bind, mbind', try.
  by destruct (cacheSet _ _ _ _ _).
Qed.

Lemma onStocks_FindOne (ev : Event) (filter : StockDoc → bool) (w : World C) :
  onStocks ev (mongo.FindOne filter) w
  = ((mongo.FindOne filter (w_stocks w)).1,
     mkWorld (w_cache w) (w_stocks w) (w_news w) (w_upstream w) (w_now w) (w_log w ++ [ev])).
Proof.
  unfold onStocks, mongo.FindOne.
  destruct (mongo.outage (w_stocks w)); [done|]. by destruct (find _ _).
Qed.

Lemma FindOne_Ok {D} (filter : D → bool) (c : mongo.Collection D) (doc : D) :
  (mongo.FindOne filter c).1 = Ok doc → find filter (mongo.docs c) = Some doc.
Proof.
  unfold mongo.FindOne. destruct (mongo.outage c); [done|].
  destruct (find _ _); simpl; congruence.
Qed.

Lemma onStocks_InsertOne_Ok (doc : StockDoc) (w w' : World C) :
  onStocks (EvStocksInsertOne doc) (mongo.InsertOne StockRepositoryImpl.noId doc) w
  = (Ok (), w') →
  w_log w' = w_log w ++ [EvStocksInsertOne doc] ∧ doc ∈ mongo.docs (w_stocks w').
Proof.
  unfold onStocks, mongo.InsertOne, StockRepositoryImpl.noId.
  destruct (mongo.outage (w_stocks w)); intros [= <-]; simpl.
  split; [done|]. rewrite elem_of_app, list_elem_of_singleton. by right.
Qed.

(** One run of [GetStock] with caching enabled, step by step. *)
Lemma GetStock_run (r : StockRepositoryImpl.t) (ticker : string) (w : World C)
    (cached : result Stock) (c1 : C) :
  StockRepositoryImpl.useCache r = true →
  let key := "stock:" +:+ ticker in
  let ttl := StockRepositoryImpl.cacheExpiry r in
  cache.Get cache.KStock (w_now w) key zeroStock (w_cache w) = (cached, c1) →
  let w1 := mkWorld c1 (w_stocks w) (w_news w) (w_upstream w) (w_now w)
              (w_log w ++ [EvCacheGet key]) in
  let w2 := mkWorld c1 (w_stocks w) (w_news w) (w_upstream w) (w_now w)
              ((w_log w ++ [EvCacheGet key]) ++ [EvStocksFindOne ticker]) in
  StockRepositoryImpl.GetStock r ticker w
  = match cacheHit cached with
    | Some s => (Ok s, w1)
    | None =>
        match (mongo.FindOne (StockRepositoryImpl.byTicker ticker) (w_stocks w)).1 with
        | Ok doc =>
            (Ok (decodeStock doc), (cacheSet cache.KStock key (decodeStock doc) ttl w2).2)
        | Fail _ =>
            match MOEXAPIClient.GetStock (StockRepositoryImpl.moexAPI r) ticker w2 with
            | (Fail err, w3) =>
                (Fail (wrapError "ошибка получения данных из MOEX API" err), w3)
            | (Ok stock, w3) =>
                match onStocks (EvStocksInsertOne (DocStock stock))
                        (mongo.InsertOne StockRepositoryImpl.noId (DocStock stock)) w3 with
                | (Ok _, w4) => (Ok stock, (cacheSet cache.KStock key stock ttl w4).2)
                | (Fail err, w4) =>
                    (Fail (wrapError "ошибка сохранения в базу данных" err), w4)
                end
            end
        end
    end.
Proof.
  intros Huse key ttl Hget w1 w2.
  unfold StockRepositoryImpl.GetStock. fold key. rewrite Huse.
  unfold mbind at 1. unfold M_bind, mbind' at 1.
  unfold mbind at 1. unfold M_bind, mbind' at 1.
  unfold try at 1. unfold cacheGet. rewrite Hget. fold w1.
  unfold mret at 1. unfold M_ret, mpure at 1. fold (cacheHit cached).
  destruct (cacheHit cached) as [s|]; [reflexivity|].
  unfold mbind at 1. unfold M_bind, mbind' at 1. unfold try at 1.
  rewrite onStocks_FindOne. cbn [w_stocks w_cache w_news w_upstream w_now w_log w1]. fold w2.
  destruct (mongo.FindOne _ _).1 as [doc|miss].
  - unfold mbind, M_bind, mbind'. rewrite warmCache_stocks. reflexivity.
  - unfold StockRepositoryImpl.fetchStockFromAPI.
    unfold mbind, M_bind, mbind', try.
    destruct (MOEXAPIClient.GetStock _ _ _) as [[stock|err] w3]; [|reflexivity].
    unfold mret, M_ret, mpure.
    destruct (onStocks _ _ w3) as [[[]|err] w4]; [|reflexivity].
    rewrite warmCache_stocks. reflexivity.
Qed.

(** C1. With caching enabled, a ticker lookup first reads the cache under
    "stock:<ticker>" and on a hit (a nil error and a stock with a ticker)
    returns it with nothing else attempted. Otherwise it reads the store, and
    on a hit writes the stock to the cache with the configured TTL and
    returns it. Otherwise it calls the provider; a failure of the provider
    is returned, wrapped; on success the stock is inserted into the store
    and, if that succeeds, written to the cache with the configured TTL and
    returned. So a stock is never returned without the write to the cache
    (unless the cache supplied it) and, when the provider supplied it,
    without the insertion into the store before. *)
Theorem GetStock_tiers (r : StockRepositoryImpl.t) (ticker : string) (w : World C)
    (cached : result Stock) (c1 : C) :
  StockRepositoryImpl.useCache r = true →
  let key := "stock:" +:+ ticker in
  let ttl := StockRepositoryImpl.cacheExpiry r in
  cache.Get cache.KStock (w_now w) key zeroStock (w_cache w) = (cached, c1) →
  let w1 := mkWorld c1 (w_stocks w) (w_news w) (w_upstream w) (w_now w)
              (w_log w ++ [EvCacheGet key]) in
  let w2 := mkWorld c1 (w_stocks w) (w_news w) (w_upstream w) (w_now w)
              ((w_log w ++ [EvCacheGet key]) ++ [EvStocksFindOne ticker]) in
  let found := (mongo.FindOne (StockRepositoryImpl.byTicker ticker) (w_stocks w)).1 in
  (* the cache read comes first, and a hit returns at once *)
  (∀ s, cached = Ok s → Ticker s ≠ "" →
     StockRepositoryImpl.GetStock r ticker w = (Ok s, w1))
  ∧ ((∀ s, cached = Ok s → Ticker s = "") →
     (* a hit in the store warms the cache *)
     (∀ doc, found = Ok doc →
        StockRepositoryImpl.GetStock r ticker w
        = (Ok (decodeStock doc), (cacheSet cache.KStock key (decodeStock doc) ttl w2).2))
     ∧ (∀ miss, found = Fail miss →
        ∀ fetched w3,
          MOEXAPIClient.GetStock (StockRepositoryImpl.moexAPI r) ticker w2 = (fetched, w3) →
          (* a failure of the provider is propagated *)
          (∀ err, fetched = Fail err →
             StockRepositoryImpl.GetStock r ticker w
             = (Fail (wrapError "ошибка получения данных из MOEX API" err), w3))
          (* its result warms the store, then the cache *)
          ∧ (∀ stock, fetched = Ok stock →
             ∀ inserted w4,
               onStocks (EvStocksInsertOne (DocStock stock))
                 (mongo.InsertOne StockRepositoryImpl.noId (DocStock stock)) w3
               = (inserted, w4) →
               (inserted = Ok () →
                  StockRepositoryImpl.GetStock r ticker w
                  = (Ok stock, (cacheSet cache.KStock key stock ttl w4).2))
               ∧ (∀ err, inserted = Fail err →
                  StockRepositoryImpl.GetStock r ticker w
                  = (Fail (wrapError "ошибка сохранения в базу данных" err), w4)))))
  (* the policy: whatever is returned was written to the tiers that missed *)
  ∧ (∀ stock w', StockRepositoryImpl.GetStock r ticker w = (Ok stock, w') →
       (cached = Ok stock ∧ Ticker stock ≠ "" ∧ w' = w1)
       ∨ (∃ before, w_log w' = before ++ [EvCacheSet key ttl]
            ∧ (is_Some (find (StockRepositoryImpl.byTicker ticker) (mongo.docs (w_stocks w)))
               ∨ (∃ earlier, before = earlier ++ [EvStocksInsertOne (DocStock stock)]
                    ∧ DocStock stock ∈ mongo.docs (w_stocks w'))))).
Proof.
  intros Huse key ttl Hget w1 w2 found.
  pose proof (GetStock_run r ticker w cached c1 Huse Hget) as Hrun.
  cbn zeta in Hrun. fold key ttl w1 w2 found in Hrun.
  split_and!.
  - intros s -> Hs. rewrite Hrun. unfold cacheHit. by rewrite bool_decide_eq_true_2.
  - intros Hmiss.
    assert (Hnone : cacheHit cached = None).
    { unfold cacheHit. destruct cached as [s|]; [|done].
      rewrite bool_decide_eq_false_2; [done|]. intros Hs. by apply Hs, Hmiss. }
    rewrite Hnone in Hrun. split.
    + intros doc Hdoc. by rewrite Hrun, Hdoc.
    + intros miss Hfound fetched w3 Hfetch. rewrite Hfound, Hfetch in Hrun. split.
      * intros err ->. exact Hrun.
      * intros stock -> inserted w4 Hins. rewrite Hins in Hrun. split.
        -- intros ->. exact Hrun.
        -- intros err ->. exact Hrun.
  - intros stock w' Hret. rewrite Hrun in Hret.
    destruct (cacheHit cached) as [s|] eqn:Hhit.
    + left. injection Hret as <- <-. unfold cacheHit in Hhit.
      destruct cached as [s'|]; [|done]. case_bool_decide; [|done].
      by injection Hhit as ->.
    + right. destruct found as [doc|miss] eqn:Hfound.
      * injection Hret as <- <-. rewrite cacheSet_world. cbn [w_log w2].
        eexists. split; [reflexivity|]. left.
        unfold found in Hfound. apply FindOne_Ok in Hfound. by rewrite Hfound.
      * destruct (MOEXAPIClient.GetStock _ _ _) as [[fetched|err] w3]; [|done].
        destruct (onStocks _ _ w3) as [[[]|err] w4] eqn:Hins; [|done].
        injection Hret as <- <-. rewrite cacheSet_world. cbn [w_log w_stocks].
        apply onStocks_InsertOne_Ok in Hins as [Hlog Hdoc].
        eexists. split; [reflexivity|]. right. eauto.
Qed.
End Tiers.

Lemma GetStock_tiers_witness :
  ∃ stock w',
    @StockRepositoryImpl.GetStock Fixture.external _ Fixture.inMemory
      Fixture.stockRepo "GAZP" Fixture.cold = (Ok stock, w')
    ∧ Ticker stock = "GAZP"
    ∧ DocStock stock ∈ mongo.docs (w_stocks w')
    ∧ ∃ earlier, w_log w' = (earlier ++ [EvStocksInsertOne (DocStock stock)])
                            ++ [EvCacheSet "stock:GAZP" (15 * Minute)].
Proof.
  destruct (@GetStock_tiers Fixture.external _ Fixture.inMemory Fixture.stockRepo "GAZP"
              Fixture.cold (Ok zeroStock) Fixture.emptyCache eq_refl eq_refl)
    as (_ & _ & Hpolicy).
  eexists _, _. split; [vm_compute; reflexivity|]. split; [reflexivity|].
  edestruct Hpolicy as [(Hhit & _)|(before & Hlog & [Hstore|(earlier & -> & Hdoc)])].
  - vm_compute. reflexivity.
  - discriminate Hhit.
  - by destruct Hstore.
  - split; [exact Hdoc|]. exists earlier. exact Hlog.
Defined.

(** The scenario of the specification: cache and store empty, the provider
    answers with the quote of GAZP. The first lookup returns it and leaves it
    in store and cache; the second one is served by the cache and reaches
    neither the store nor the provider. With the provider unreachable the
    first lookup returns the provider's error. *)
Example lookup_cold_then_cached :
  let first := @StockRepositoryImpl.GetStock Fixture.external _ Fixture.inMemory
                 Fixture.stockRepo "GAZP" Fixture.cold in
  let second := @StockRepositoryImpl.GetStock Fixture.external _ Fixture.inMemory
                  Fixture.stockRepo "GAZP" first.2 in
  first.1 = Ok (mkStock "GAZP" "Gazprom" 150%float (-3)%float (-2)%float 0 Fixture.noon)
  ∧ second.1 = first.1
  ∧ w_stocks second.2 = w_stocks first.2
  ∧ w_log second.2 = w_log first.2 ++ [EvCacheGet "stock:GAZP"].
Proof. cbn zeta. split_and!; vm_compute; reflexivity. Qed.

Example lookup_provider_down :
  let w := mkWorld Fixture.emptyCache (mongo.mk [] None) (mongo.mk [] None)
             Fixture.unreachable Fixture.noon [] in
  (@StockRepositoryImpl.GetStock Fixture.external _ Fixture.inMemory
     Fixture.stockRepo "GAZP" w).1
  = Fail (wrapError "ошибка получения данных из MOEX API"
            (wrapError "ошибка выполнения запроса"
               (backendError "dial tcp: connection refused"))).
Proof. vm_compute. reflexivity. Qed.

(** ** News of a date *)

Section NewsByDate.
Context `{!External} {C : Type} `{!cache.Cache C}.

(** What does hold of [GetNewsByDate]: when the cache has no list for the
    date, the store has no item published in its 24 hours, and the start of
    those 24 hours does not show today's calendar date, the result is empty
    and only the cache and the store were read. *)
Lemma GetNewsByDate_without_provider (r : NewsRepositoryImpl.t) (date : Time) (w : World C)
    (c1 : C) :
  let startDate := time.Truncate date (24 * Hour) in
  let endDate := time.Add startDate (24 * Hour) in
  let key := "news:date:" +:+ time.FormatDate startDate in
  NewsRepositoryImpl.useCache r = true →
  cache.Get cache.KNewsList (w_now w) key [] (w_cache w) = (Ok [], c1) →
  mongo.outage (w_news w) = None →
  List.filter (λ n, (unixNano startDate <=? unixNano (PublishedAt n))
                    && (unixNano (PublishedAt n) <? unixNano endDate))
    (mongo.docs (w_news w)) = [] →
  NewsRepositoryImpl.sameCalendarDay startDate (w_now w) = false →
  NewsRepositoryImpl.GetNewsByDate r date w
  = (Ok [], mkWorld c1 (w_stocks w) (w_news w) (w_upstream w) (w_now w)
              (w_log w ++ [EvCacheGet key; EvNewsFind])).
Proof.
  intros startDate endDate key Huse Hget Hup Hnone Hday.
  unfold NewsRepositoryImpl.GetNewsByDate, NewsRepositoryImpl.lookupList.
  fold startDate endDate key. rewrite Huse.
  unfold mbind, M_bind, mbind', try, cacheGet, onNews, mongo.Find, timeNow.
  rewrite Hget. unfold mret, M_ret, mpure.
  cbn [length Nat.ltb Nat.leb w_news w_cache w_stocks w_upstream w_now w_log].
  rewrite Hup, Hnone.
  cbn [length Nat.ltb Nat.leb w_news w_cache w_stocks w_upstream w_now w_log].
  rewrite Hday. by rewrite <-app_assoc.
Qed.
End NewsByDate.

(** C9, the failing input. The clock reads 2024-03-04 12:00 +03:00, the
    requested date is 2024-03-05 01:00 +03:00, and cache and store are empty.
    [Truncate(24 * time.Hour)] rounds the date down to 2024-03-04 03:00
    +03:00 (midnight UTC), whose calendar date is today's: the provider is
    called and its articles are returned. When the clock reads 2024-03-04
    01:00 +03:00 the same rounding makes [GetNewsForToday] return an empty
    list without calling the provider. *)
Theorem GetNewsByDate_fetches_for_another_day :
  let date := mkTime (1709589600 * 1000000000) 10800 in
  let ran := @NewsRepositoryImpl.GetNewsByDate Fixture.external _ Fixture.inMemory
               Fixture.newsRepo date Fixture.cold in
  let early := mkTime (1709503200 * 1000000000) 10800 in
  time.FormatDate date = "2024-03-05"
  ∧ time.FormatDate (w_now Fixture.cold) = "2024-03-04"
  ∧ time.FormatDate (time.Truncate date (24 * Hour)) = "2024-03-04"
  ∧ (∃ article, ran.1 = Ok [article])
  ∧ (∃ params, w_log ran.2 !! 3%nat = Some (EvHTTP "https://newsapi.org/v2/everything" params))
  ∧ time.FormatDate early = "2024-03-04"
  ∧ @NewsRepositoryImpl.GetNewsForToday Fixture.external _ Fixture.inMemory
      Fixture.newsRepo (atTime early Fixture.cold)
    = (Ok [], mkWorld Fixture.emptyCache (mongo.mk [] None) (mongo.mk [] None)
                Fixture.upstream early [EvCacheGet "news:date:2024-03-03"; EvNewsFind]).
Proof.
  cbn zeta. split_and!; try (vm_compute; reflexivity).
  - eexists. vm_compute. reflexivity.
  - eexists. vm_compute. reflexivity.
Qed.

(** * Further properties of the code *)

(** ** The cache backends *)

Lemma foldl_delete_lookup {A} (keys : list string) (m : gmap string A) (key : string) :
  foldl (λ m k, delete k m) m keys !! key = if decide (key ∈ keys) then None else m !! key.
Proof.
  revert m. induction keys as [|k keys IH]; intros m.
  - by rewrite decide_False by apply not_elem_of_nil.
  - cbn [foldl]. rewrite IH. destruct (decide (key ∈ keys)) as [Hin|Hin].
    + by rewrite decide_True by by right.
    + destruct (decide (key = k)) as [->|Hne].
      * rewrite decide_True by by left. apply lookup_delete_eq.
      * rewrite decide_False by (by intros [?|?]%elem_of_cons).
        by apply lookup_delete_ne.
Qed.

Lemma elem_of_keys {A} (m : gmap string A) (key : string) :
  key ∈ (map_to_list m).*1 ↔ is_Some (m !! key).
Proof.
  rewrite list_elem_of_fmap. split.
  - intros [[k v] [-> Hin]]. apply elem_of_map_to_list in Hin. by exists v.
  - intros [v Hv]. exists (key, v). split; [done|]. by apply elem_of_map_to_list.
Qed.

Section InMemoryCacheFacts.
Context `{!External}.

Lemma clientGet_clientSet (now later : Time) (key : string) (v : cache.value) (ttl : Z)
    (c : InMemoryCache.t) :
  let d := if ttl =? 0 then InMemoryCache.defaultExpiration c else ttl in
  InMemoryCache.clientGet later key (InMemoryCache.clientSet now key v ttl c)
  = if (0 <? d) && (0 <? unixNano now + d) && (unixNano now + d <? unixNano later)
    then None else Some v.
Proof.
  cbn zeta. unfold InMemoryCache.clientGet, InMemoryCache.clientSet.
  cbn [InMemoryCache.items]. rewrite lookup_insert_eq.
  destruct (ttl =? 0); repeat case_match; try done; lia.
Qed.

(** X1. A value set in the in-memory cache is read back (marshalled and
    unmarshalled into the destination) up to its expiry instant and is a miss
    after it. A zero ttl stands for the default one of the cache, a ttl that
    is then still not positive never expires, and no other key is affected. *)
Theorem InMemoryCache_set_then_get (k : cache.kind) (now later : Time) (key : string)
    (v dest : cache.typeOf k) (ttl : Z) (c : InMemoryCache.t) :
  let c' := (InMemoryCache.Set' k now key v ttl c).2 in
  let d := if ttl =? 0 then InMemoryCache.defaultExpiration c else ttl in
  let readBack := match json_Marshal k v with
                  | Ok data => json_Unmarshal k data dest
                  | Fail err => Fail err
                  end in
  (InMemoryCache.Set' k now key v ttl c).1 = Ok ()
  ∧ (d ≤ 0 ∨ unixNano later ≤ unixNano now + d →
     InMemoryCache.Get k later key dest c' = (readBack, c'))
  ∧ (0 < d → 0 < unixNano now + d → unixNano now + d < unixNano later →
     InMemoryCache.Get k later key dest c' = (Ok dest, c'))
  ∧ (∀ key', key' ≠ key →
     InMemoryCache.clientGet later key' c' = InMemoryCache.clientGet later key' c).
Proof.
  cbn zeta. unfold InMemoryCache.Set', InMemoryCache.Get.
  cbn [fst snd]. rewrite clientGet_clientSet.
  generalize (if ttl =? 0 then InMemoryCache.defaultExpiration c else ttl). intros d.
  split_and!; [done| | |].
  - intros Hlive. destruct (_ && _) eqn:Hexp;
      [exfalso; apply andb_true_iff in Hexp as [[? ?]%andb_true_iff ?]; lia|].
    destruct (json_Marshal k v); [by destruct (json_Unmarshal _ _ _)|done].
  - intros Hd Hpos Hlate. destruct (_ && _) eqn:Hexp; [done|]. exfalso.
    apply andb_false_iff in Hexp as [[?|?]%andb_false_iff|?]; lia.
  - intros key' Hne. unfold InMemoryCache.clientGet, InMemoryCache.clientSet.
    cbn [InMemoryCache.items]. by rewrite lookup_insert_ne.
Qed.

(** X2. After [Delete] the key is a miss for [Get] and [Exists] answers
    false, whatever was stored; the other keys read as before. [Exists]
    answers true for a key that was set and has not expired. *)
Theorem InMemoryCache_delete_then_absent (k : cache.kind) (now later : Time) (key : string)
    (dest : cache.typeOf k) (c : InMemoryCache.t) :
  let c' := (InMemoryCache.Delete now key c).2 in
  (InMemoryCache.Delete now key c).1 = Ok ()
  ∧ InMemoryCache.Get k later key dest c' = (Ok dest, c')
  ∧ InMemoryCache.Exists later key c' = (Ok false, c')
  ∧ (∀ key', key' ≠ key →
     InMemoryCache.clientGet later key' c' = InMemoryCache.clientGet later key' c)
  ∧ (∀ (v : cache.typeOf k) ttl,
       let set := (InMemoryCache.Set' k now key v ttl c').2 in
       unixNano later ≤ unixNano now + (if ttl =? 0 then InMemoryCache.defaultExpiration c else ttl) →
       InMemoryCache.Exists later key set = (Ok true, set)).
Proof.
  cbn zeta. unfold InMemoryCache.Delete, InMemoryCache.Get, InMemoryCache.Exists,
    InMemoryCache.Set'. cbn [fst snd].
  split_and!; [done| | | |].
  - unfold InMemoryCache.clientGet. cbn [InMemoryCache.items]. by rewrite lookup_delete_eq.
  - unfold InMemoryCache.clientGet. cbn [InMemoryCache.items]. by rewrite lookup_delete_eq.
  - intros key' Hne. unfold InMemoryCache.clientGet. cbn [InMemoryCache.items].
    by rewrite lookup_delete_ne.
  - intros v ttl Hlive. rewrite clientGet_clientSet. cbn [InMemoryCache.defaultExpiration].
    destruct (_ && _) eqn:Hexp;
      [exfalso; apply andb_true_iff in Hexp as [[? ?]%andb_true_iff ?]; lia|].
    by rewrite bool_decide_true.
Qed.

Lemma invalidate_fold (pattern : string) (keys : list string) (c : InMemoryCache.t) :
  let c' := foldl (λ c k, if String.prefix pattern k
                          then InMemoryCache.mk (delete k (InMemoryCache.items c))
                                 (InMemoryCache.defaultExpiration c)
                          else c) c keys in
  InMemoryCache.defaultExpiration c' = InMemoryCache.defaultExpiration c
  ∧ ∀ key, InMemoryCache.items c' !! key
           = if decide (key ∈ keys ∧ String.prefix pattern key = true) then None
             else InMemoryCache.items c !! key.
Proof.
  cbn zeta. revert c. induction keys as [|k keys IH]; intros c.
  - split; [done|]. intros key. rewrite decide_False; [done|].
    intros [?%not_elem_of_nil _]; done.
  - cbn [foldl]. destruct (IH (if String.prefix pattern k
                  then InMemoryCache.mk (delete k (InMemoryCache.items c))
                         (InMemoryCache.defaultExpiration c)
                  else c)) as [Hd Hl].
    split; [rewrite Hd; by destruct (String.prefix pattern k)|].
    intros key. rewrite Hl.
    destruct (decide (key ∈ keys ∧ String.prefix pattern key = true)) as [[Hin Hp]|Hn].
    + rewrite decide_True; [done|]. split; [by right|done].
    + destruct (decide (key = k)) as [->|Hne].
      * destruct (String.prefix pattern k) eqn:Hp.
        -- rewrite decide_True by (split; [by left|done]). apply lookup_delete_eq.
        -- rewrite decide_False; [done|]. by intros [_ ?].
      * rewrite decide_False by (intros [[?|?]%elem_of_cons ?]; [done|by apply Hn]).
        destruct (String.prefix pattern k); [|done]. by apply lookup_delete_ne.
Qed.

Lemma clientItems_lookup (now : Time) (key : string) (c : InMemoryCache.t) :
  is_Some (InMemoryCache.clientItems now c !! key)
  ↔ is_Some (InMemoryCache.clientGet now key c).
Proof.
  unfold InMemoryCache.clientItems, InMemoryCache.clientGet.
  destruct (InMemoryCache.items c !! key) as [[v expiry]|] eqn:Hk.
  - destruct ((0 <? expiry) && (expiry <? unixNano now)) eqn:Hexp.
    + apply andb_true_iff in Hexp as [?%Z.ltb_lt ?%Z.ltb_lt].
      split; [|by intros [? ?]]. intros [e He].
      apply map_lookup_filter_Some in He as [He Hlive]. rewrite Hk in He.
      injection He as <-. simpl in Hlive. lia.
    + split; [by eexists|]. intros _. exists (v, expiry).
      apply map_lookup_filter_Some. split; [done|]. simpl.
      apply andb_false_iff in Hexp as [?%Z.ltb_ge|?%Z.ltb_ge]; lia.
  - split; [|by intros [? ?]]. intros [e He].
    apply map_lookup_filter_Some in He as [He _]. by rewrite Hk in He.
Qed.

(** X3. [Invalidate] of the in-memory cache removes the keys that begin with
    the pattern and leaves the others: afterwards a key with that prefix is a
    miss and every other key reads as before, at the time of the call and
    later. The default ttl is kept and the call never fails. *)
Theorem InMemoryCache_invalidate_prefix (now : Time) (pattern : string)
    (c : InMemoryCache.t) :
  let c' := (InMemoryCache.Invalidate now pattern c).2 in
  (InMemoryCache.Invalidate now pattern c).1 = Ok ()
  ∧ InMemoryCache.defaultExpiration c' = InMemoryCache.defaultExpiration c
  ∧ ∀ later key, unixNano now ≤ unixNano later →
      InMemoryCache.clientGet later key c'
      = if String.prefix pattern key then None else InMemoryCache.clientGet later key c.
Proof.
  cbn zeta. unfold InMemoryCache.Invalidate. cbn [fst snd].
  destruct (invalidate_fold pattern (map_to_list (InMemoryCache.clientItems now c)).*1 c)
    as [Hd Hl].
  split_and!; [done|done|]. intros later key Hlater.
  unfold InMemoryCache.clientGet at 1. rewrite Hl.
  destruct (String.prefix pattern key) eqn:Hp.
  - destruct (decide _) as [_|Hn]; [done|].
    destruct (InMemoryCache.items c !! key) as [[v expiry]|] eqn:Hk; [|done].
    destruct ((0 <? expiry) && (expiry <? unixNano later)) eqn:Hexp; [done|exfalso].
    apply Hn. split; [|done]. apply elem_of_keys, clientItems_lookup.
    unfold InMemoryCache.clientGet. rewrite Hk.
    destruct ((0 <? expiry) && (expiry <? unixNano now)) eqn:Hexp'; [|by eexists].
    apply andb_true_iff in Hexp' as [?%Z.ltb_lt ?%Z.ltb_lt].
    apply andb_false_iff in Hexp as [?%Z.ltb_ge|?%Z.ltb_ge]; lia.
  - rewrite decide_False by (by intros [_ ?]). done.
Qed.
End InMemoryCacheFacts.

Section RedisCacheFacts.
Context `{!External}.

Lemma RedisCache_Get_run (k : cache.kind) (later : Time) (key : string)
    (dest : cache.typeOf k) (c : RedisCache.t) :
  RedisCache.outage c = None →
  RedisCache.Get k later key dest c
  = (match RedisCache.entries c !! key with
     | Some e => if RedisCache.live later e then json_Unmarshal k e.1 dest else Ok dest
     | None => Ok dest
     end, c).
Proof.
  intros Hup. unfold RedisCache.Get. run_monad. unfold RedisCache.clientGet. rewrite Hup.
  destruct (RedisCache.entries c !! key) as [e|]; [|done].
  destruct (RedisCache.live later e); [|done]. by destruct (json_Unmarshal _ _ _).
Qed.

(** What go-redis sends for a positive ttl is a whole number of
    milliseconds, at least one; from a millisecond on it is the ttl cut to
    whole milliseconds. *)
Lemma sentTTL_bounds (ttl : Z) :
  0 < ttl →
  Millisecond ≤ RedisCache.sentTTL ttl
  ∧ RedisCache.sentTTL ttl `mod` Millisecond = 0
  ∧ (Millisecond ≤ ttl → ttl - Millisecond < RedisCache.sentTTL ttl ≤ ttl).
Proof.
  intros Hpos.
  unfold RedisCache.sentTTL, RedisCache.usePrecise, RedisCache.formatMs, RedisCache.formatSec.
  destruct ((ttl <? Second) || negb (ttl `mod` Second =? 0)) eqn:Hprecise.
  - destruct ((0 <? ttl) && (ttl <? Millisecond)) eqn:Hsmall.
    + apply andb_true_iff in Hsmall as [_ Hlt%Z.ltb_lt].
      unfold Millisecond in *. split_and!; [lia|done|lia].
    + apply andb_false_iff in Hsmall as [Hsmall%Z.ltb_ge|Hsmall%Z.ltb_ge]; [lia|].
      rewrite Z.mod_mul by done.
      unfold Millisecond in *. split_and!; [|done|intros _]; Z.to_euclidean_division_equations; lia.
  - apply orb_false_iff in Hprecise as [Hge%Z.ltb_ge Hmod%negb_false_iff%Z.eqb_eq].
    replace ((0 <? ttl) && (ttl <? Second)) with false
      by (symmetry; apply andb_false_iff; right; by apply Z.ltb_ge).
    unfold Millisecond, Second in *.
    split_and!; [| |intros _]; Z.to_euclidean_division_equations; lia.
Qed.

(** X4. A value set in Redis with a positive ttl expires after what go-redis
    sends for that ttl: a whole number of milliseconds, at least one, which
    from a millisecond on is the ttl cut to whole milliseconds. Before that
    instant the value is read back as its JSON text unmarshalled into the
    destination, from it on the key is a miss. With a ttl that is not
    positive (KeepTTL apart, and KeepTTL on a key that was absent) the value
    does not expire. No other key is affected. *)
Theorem RedisCache_set_then_get (k : cache.kind) (now later : Time) (key : string)
    (v dest : cache.typeOf k) (ttl : Z) (c : RedisCache.t) (data : json_text) :
  RedisCache.outage c = None → json_Marshal k v = Ok data →
  let c' := (RedisCache.Set' k now key v ttl c).2 in
  let expiry := unixNano now + RedisCache.sentTTL ttl in
  (RedisCache.Set' k now key v ttl c).1 = Ok ()
  ∧ (0 < ttl →
     Millisecond ≤ RedisCache.sentTTL ttl
     ∧ RedisCache.sentTTL ttl `mod` Millisecond = 0
     ∧ (Millisecond ≤ ttl → ttl - Millisecond < RedisCache.sentTTL ttl ≤ ttl))
  ∧ (0 < ttl → unixNano later < expiry →
     RedisCache.Get k later key dest c' = (json_Unmarshal k data dest, c'))
  ∧ (0 < ttl → 0 < expiry → expiry ≤ unixNano later →
     RedisCache.Get k later key dest c' = (Ok dest, c'))
  ∧ (ttl ≤ 0 → ttl ≠ RedisCache.KeepTTL ∨ RedisCache.entries c !! key = None →
     RedisCache.Get k later key dest c' = (json_Unmarshal k data dest, c'))
  ∧ (∀ key', key' ≠ key → RedisCache.entries c' !! key' = RedisCache.entries c !! key').
Proof.
  intros Hup Hdata. cbn zeta.
  unfold RedisCache.Set', RedisCache.clientSet. rewrite Hdata, Hup. cbn [fst snd].
  split_and!; [done|apply sentTTL_bounds| | | |].
  - intros Hpos Hlive. rewrite RedisCache_Get_run by done.
    cbn [RedisCache.entries]. rewrite lookup_insert_eq. unfold RedisCache.live. cbn [fst snd].
    destruct (0 <? ttl) eqn:E; [|apply Z.ltb_ge in E; lia].
    destruct (_ || _) eqn:Hl; [done|exfalso].
    apply orb_false_iff in Hl as [_ Hl%Z.ltb_ge]. lia.
  - intros Hpos Hpos' Hlate. rewrite RedisCache_Get_run by done.
    cbn [RedisCache.entries]. rewrite lookup_insert_eq. unfold RedisCache.live. cbn [fst snd].
    destruct (0 <? ttl) eqn:E; [|apply Z.ltb_ge in E; lia].
    destruct (_ || _) eqn:Hl; [exfalso|done].
    apply orb_true_iff in Hl as [?%Z.eqb_eq|?%Z.ltb_lt]; lia.
  - intros Hnonpos Hkeep. rewrite RedisCache_Get_run by done.
    cbn [RedisCache.entries]. rewrite lookup_insert_eq. unfold RedisCache.live. cbn [fst snd].
    destruct (0 <? ttl) eqn:E; [apply Z.ltb_lt in E; lia|].
    destruct (ttl =? RedisCache.KeepTTL) eqn:Ek; [|done].
    apply Z.eqb_eq in Ek. destruct Hkeep as [Hkeep|Hkeep]; [done|].
    by rewrite Hkeep.
  - intros key' Hne. cbn [RedisCache.entries]. by rewrite lookup_insert_ne.
Qed.

(** X5. With Redis reachable, after [Delete] the key is a miss for [Get]
    and [Exists] answers false, and no other key is affected; [Exists]
    answers true exactly for a key that holds a value that has not
    expired. *)
Theorem RedisCache_delete_then_absent (k : cache.kind) (now later : Time) (key : string)
    (dest : cache.typeOf k) (c : RedisCache.t) :
  RedisCache.outage c = None →
  let c' := (RedisCache.Delete now key c).2 in
  (RedisCache.Delete now key c).1 = Ok ()
  ∧ RedisCache.Get k later key dest c' = (Ok dest, c')
  ∧ RedisCache.Exists later key c' = (Ok false, c')
  ∧ (∀ key', key' ≠ key → RedisCache.entries c' !! key' = RedisCache.entries c !! key')
  ∧ (∀ key', (RedisCache.Exists later key' c).1 = Ok true
             ↔ ∃ e, RedisCache.entries c !! key' = Some e ∧ RedisCache.live later e = true).
Proof.
  intros Hup. cbn zeta. unfold RedisCache.Delete, RedisCache.clientDel. rewrite Hup.
  cbn [fst snd foldl]. split_and!; [done| | | |].
  - rewrite RedisCache_Get_run by done. cbn [RedisCache.entries].
    by rewrite lookup_delete_eq.
  - unfold RedisCache.Exists. cbn [RedisCache.outage RedisCache.entries].
    by rewrite lookup_delete_eq.
  - intros key' Hne. cbn [RedisCache.entries]. by rewrite lookup_delete_ne.
  - intros key'. unfold RedisCache.Exists. rewrite Hup. cbn [fst].
    destruct (RedisCache.entries c !! key') as [e|]; split.
    + intros [= Hlive]. by exists e.
    + intros (e' & [= <-] & Hlive). by rewrite Hlive.
    + done.
    + by intros (e' & He & _).
Qed.

(** X6. [Invalidate] on Redis deletes the live keys that the pattern matches
    and no other key; when no key matches nothing is sent to delete and the
    cache is unchanged. *)
Theorem RedisCache_invalidate (glob : string → string → bool) (now : Time)
    (pattern : string) (c : RedisCache.t) :
  RedisCache.outage c = None →
  let r := RedisCache.Invalidate glob now pattern c in
  r.1 = Ok () ∧ RedisCache.outage r.2 = None
  ∧ (∀ key, RedisCache.entries r.2 !! key
            = match RedisCache.entries c !! key with
              | Some e => if RedisCache.live now e && glob pattern key then None else Some e
              | None => None
              end)
  ∧ ((∀ key e, RedisCache.entries c !! key = Some e →
               RedisCache.live now e && glob pattern key = false) → r.2 = c).
Proof.
  intros Hup. cbn zeta. unfold RedisCache.Invalidate. rewrite bind_run.
  unfold RedisCache.clientKeys. rewrite Hup.
  set (keys := (map_to_list _).*1).
  assert (Hkeys : ∀ key, key ∈ keys ↔
            ∃ e, RedisCache.entries c !! key = Some e
                 ∧ RedisCache.live now e && glob pattern key = true).
  { intros key. unfold keys. rewrite elem_of_keys. split.
    - intros [e [He [Hl Hg]]%map_lookup_filter_Some]. exists e. split; [done|].
      simpl in Hl, Hg. apply andb_true_iff. split; by apply Is_true_true.
    - intros [e [He [Hl Hg]%andb_true_iff]]. exists e.
      apply map_lookup_filter_Some. split; [done|]. simpl. split; by apply Is_true_true. }
  assert (Hlookup : ∀ key,
            (if decide (key ∈ keys) then None else RedisCache.entries c !! key)
            = match RedisCache.entries c !! key with
              | Some e => if RedisCache.live now e && glob pattern key then None else Some e
              | None => None
              end).
  { intros key. destruct (decide (key ∈ keys)) as [Hin|Hin].
    - apply Hkeys in Hin as [e [-> ->]]. done.
    - destruct (RedisCache.entries c !! key) as [e|] eqn:He; [|done].
      destruct (RedisCache.live now e && glob pattern key) eqn:Hm; [|done].
      exfalso. apply Hin, Hkeys. by exists e. }
  destruct (0 <? length keys)%nat eqn:Hlen.
  - unfold RedisCache.clientDel. rewrite Hup. cbn [fst snd RedisCache.outage RedisCache.entries].
    split_and!; [done|done| |].
    + intros key. by rewrite foldl_delete_lookup, Hlookup.
    + intros Hnone. exfalso. destruct keys as [|key keys']; [done|].
      destruct (proj1 (Hkeys key)) as [e [He Hm]]; [by left|].
      by rewrite (Hnone _ _ He) in Hm.
  - run_monad. cbn [fst snd]. split_and!; [done|done| |done].
    intros key. rewrite <-Hlookup. apply Nat.ltb_ge in Hlen.
    destruct keys; [|simpl in Hlen; lia].
    by rewrite decide_False by apply not_elem_of_nil.
Qed.

(** X7. With Redis unreachable (any error of the client other than
    [redis.Nil]) every cache operation returns that error and leaves the
    cache as it was; [Set'] of a value that cannot be marshalled returns the
    marshalling error instead. *)
Theorem RedisCache_outage (glob : string → string → bool) (err : error) (c : RedisCache.t) :
  RedisCache.outage c = Some err → err ≠ redisNil →
  (∀ k now key dest, RedisCache.Get k now key dest c = (Fail err, c))
  ∧ (∀ k now key v ttl,
       RedisCache.Set' k now key v ttl c
       = (match json_Marshal k v with Ok _ => Fail err | Fail e => Fail e end, c))
  ∧ (∀ now key, RedisCache.Delete now key c = (Fail err, c))
  ∧ (∀ now key, RedisCache.Exists now key c = (Fail err, c))
  ∧ (∀ now pattern, RedisCache.Invalidate glob now pattern c = (Fail err, c)).
Proof.
  intros Hdown Hne. split_and!.
  - intros k now key dest. unfold RedisCache.Get. run_monad.
    unfold RedisCache.clientGet. rewrite Hdown. by destruct err.
  - intros k now key v ttl. unfold RedisCache.Set'.
    destruct (json_Marshal k v); [|done].
    unfold RedisCache.clientSet. by rewrite Hdown.
  - intros now key. unfold RedisCache.Delete, RedisCache.clientDel. by rewrite Hdown.
  - intros now key. unfold RedisCache.Exists. by rewrite Hdown.
  - intros now pattern. unfold RedisCache.Invalidate. rewrite bind_run.
    unfold RedisCache.clientKeys. by rewrite Hdown.
Qed.
End RedisCacheFacts.

Lemma RedisCache_set_then_get_witness :
  @RedisCache.Get Fixture.external cache.KStock Fixture.noon "stock:SBER" zeroStock
    (@RedisCache.Set' Fixture.external cache.KStock Fixture.noon "stock:SBER" Fixture.sber
       (15 * Minute) Fixture.emptyRedis).2
  = (Ok Fixture.sber,
     (@RedisCache.Set' Fixture.external cache.KStock Fixture.noon "stock:SBER" Fixture.sber
        (15 * Minute) Fixture.emptyRedis).2).
Proof.
  destruct (@RedisCache_set_then_get Fixture.external cache.KStock Fixture.noon Fixture.noon
              "stock:SBER" Fixture.sber zeroStock (15 * Minute) Fixture.emptyRedis
              (existT cache.KStock Fixture.sber) eq_refl eq_refl)
    as (_ & _ & Hlive & _).
  apply Hlive; reflexivity.
Defined.

Lemma RedisCache_delete_then_absent_witness :
  @RedisCache.Exists Fixture.external Fixture.noon "stock:SBER"
    (@RedisCache.Delete Fixture.external Fixture.noon "stock:SBER" Fixture.redisSber).2
  = (Ok false,
     (@RedisCache.Delete Fixture.external Fixture.noon "stock:SBER" Fixture.redisSber).2).
Proof.
  destruct (@RedisCache_delete_then_absent Fixture.external cache.KStock Fixture.noon
              Fixture.noon "stock:SBER" zeroStock Fixture.redisSber eq_refl)
    as (_ & _ & Hexists & _).
  exact Hexists.
Defined.

Lemma RedisCache_invalidate_witness :
  RedisCache.entries
    (@RedisCache.Invalidate Fixture.external String.prefix Fixture.noon "stock:"
       Fixture.redisSber).2 !! "stock:SBER" = None.
Proof.
  destruct (@RedisCache_invalidate Fixture.external String.prefix Fixture.noon "stock:"
              Fixture.redisSber eq_refl) as (_ & _ & Hlookup & _).
  rewrite Hlookup. reflexivity.
Defined.

Lemma RedisCache_outage_witness :
  @RedisCache.Exists Fixture.external Fixture.noon "stock:SBER" Fixture.redisDown
  = (Fail (backendError "dial tcp: connection refused"), Fixture.redisDown).
Proof.
  destruct (@RedisCache_outage Fixture.external String.prefix
              (backendError "dial tcp: connection refused") Fixture.redisDown eq_refl)
    as (_ & _ & _ & Hexists & _); [discriminate|].
  apply Hexists.
Defined.

(** Short and negative ttls on the fixture: a ttl of one nanosecond is sent
    as one millisecond, one of a millisecond and a half as one millisecond,
    and a negative one sets no expiry. *)
Example redis_ttl_in_whole_milliseconds :
  let set ttl :=
    (@RedisCache.Set' Fixture.external cache.KStock Fixture.noon "stock:SBER" Fixture.sber
       ttl Fixture.emptyRedis).2 in
  let get later c :=
    (@RedisCache.Get Fixture.external cache.KStock later "stock:SBER" zeroStock c).1 in
  get (time.Add Fixture.noon 1) (set 1) = Ok Fixture.sber
  ∧ get (time.Add Fixture.noon 1200000) (set 1500000) = Ok zeroStock
  ∧ get (time.Add Fixture.noon Hour) (set (-5)) = Ok Fixture.sber.
Proof. by vm_compute. Qed.

(** ** The parser of a table of securities *)

Lemma max_foldl_spec (rest : list Z) (first : Z) :
  let m := foldl (λ max num, if num >? max then num else max) first rest in
  m ∈ first :: rest ∧ first ≤ m ∧ Forall (λ n, n ≤ m) rest.
Proof.
  cbn zeta. revert first. induction rest as [|n rest IH]; intros first; cbn [foldl].
  - split_and!; [by left|lia|constructor].
  - destruct (IH (if n >? first then n else first)) as (Hin & Hle & Hall).
    rewrite Z.gtb_ltb in *. split_and!.
    + apply elem_of_cons in Hin as [Hin|Hin]; [|by do 2 right].
      rewrite Hin. destruct (first <? n); [right; by left|by left].
    + destruct (first <? n) eqn:E; [apply Z.ltb_lt in E|]; lia.
    + constructor; [|done]. destruct (first <? n) eqn:E; [|apply Z.ltb_ge in E]; lia.
Qed.

(** X8. [max] of no numbers is 0; of at least one number it is one of them
    and none of them is greater. *)
Theorem max_is_greatest (nums : list Z) :
  match nums with
  | [] => apis.max nums = 0
  | _ :: _ => apis.max nums ∈ nums ∧ Forall (λ n, n ≤ apis.max nums) nums
  end.
Proof.
  destruct nums as [|first rest]; [done|]. unfold apis.max.
  destruct (max_foldl_spec rest first) as (Hin & Hle & Hall).
  split; [done|]. by constructor.
Qed.

Section ColumnsLoop.
Context (field : apis.columnIndex → Z) (name : string).
Context (field_case : ∀ i col idx,
           field (apis.columnCase i col idx) = if isColumn name col then i else field idx).

Lemma columnsLoop_field (columns : list jvalue) (i : Z) (idx : apis.columnIndex) :
  let found := field (apis.columnsLoop i columns idx) in
  if existsb (isColumn name) columns
  then i ≤ found < i + Z.of_nat (length columns)
       ∧ ∃ col, columns !! Z.to_nat (found - i) = Some col ∧ isColumn name col = true
  else found = field idx.
Proof.
  cbn zeta. revert i idx. induction columns as [|col rest IH]; intros i idx; [done|].
  cbn [apis.columnsLoop existsb length].
  specialize (IH (i + 1) (apis.columnCase i col idx)).
  destruct (existsb (isColumn name) rest) eqn:Hrest.
  - rewrite orb_true_r. destruct IH as [Hrange (c & Hc & Hname)].
    split; [lia|]. exists c. split; [|done].
    replace (Z.to_nat (field (apis.columnsLoop (i + 1) rest (apis.columnCase i col idx)) - i))
      with (S (Z.to_nat (field (apis.columnsLoop (i + 1) rest (apis.columnCase i col idx))
                         - (i + 1)))) by lia.
    done.
  - rewrite orb_false_r, IH, field_case.
    destruct (isColumn name col) eqn:Hcol; [|done].
    split; [lia|]. exists col. by rewrite Z.sub_diag.
Qed.
End ColumnsLoop.

Lemma columnCase_ticker (i : Z) (col : jvalue) (idx : apis.columnIndex) :
  apis.tickerIdx (apis.columnCase i col idx)
  = if isColumn "SECID" col then i else apis.tickerIdx idx.
Proof. destruct col; try done. simpl. repeat case_bool_decide; simplify_eq; done. Qed.

Lemma columnCase_name (i : Z) (col : jvalue) (idx : apis.columnIndex) :
  apis.nameIdx (apis.columnCase i col idx)
  = if isColumn "SHORTNAME" col then i else apis.nameIdx idx.
Proof. destruct col; try done. simpl. repeat case_bool_decide; simplify_eq; done. Qed.

Lemma columnCase_price (i : Z) (col : jvalue) (idx : apis.columnIndex) :
  apis.priceIdx (apis.columnCase i col idx)
  = if isColumn "LAST" col then i else apis.priceIdx idx.
Proof. destruct col; try done. simpl. repeat case_bool_decide; simplify_eq; done. Qed.

Lemma columnCase_change (i : Z) (col : jvalue) (idx : apis.columnIndex) :
  apis.changeIdx (apis.columnCase i col idx)
  = if isColumn "CHANGE" col then i else apis.changeIdx idx.
Proof. destruct col; try done. simpl. repeat case_bool_decide; simplify_eq; done. Qed.

Lemma columnCase_changePerc (i : Z) (col : jvalue) (idx : apis.columnIndex) :
  apis.changePercIdx (apis.columnCase i col idx)
  = if isColumn "LASTTOPREVPRICE" col then i else apis.changePercIdx idx.
Proof. destruct col; try done. simpl. repeat case_bool_decide; simplify_eq; done. Qed.

(** X9. The loop over [columns] leaves in each index the position of a
    column of that name when there is one, and -1 when there is none. *)
Theorem columnsLoop_positions (columns : list jvalue) :
  let idx := apis.columnsLoop 0 columns noColumn in
  let position (name : string) (found : Z) :=
    if existsb (isColumn name) columns
    then 0 ≤ found < Z.of_nat (length columns)
         ∧ ∃ col, columns !! Z.to_nat found = Some col ∧ isColumn name col = true
    else found = -1 in
  position "SECID" (apis.tickerIdx idx)
  ∧ position "SHORTNAME" (apis.nameIdx idx)
  ∧ position "LAST" (apis.priceIdx idx)
  ∧ position "CHANGE" (apis.changeIdx idx)
  ∧ position "LASTTOPREVPRICE" (apis.changePercIdx idx).
Proof.
  cbn zeta.
  pose proof (columnsLoop_field _ _ columnCase_ticker columns 0 noColumn) as H1.
  pose proof (columnsLoop_field _ _ columnCase_name columns 0 noColumn) as H2.
  pose proof (columnsLoop_field _ _ columnCase_price columns 0 noColumn) as H3.
  pose proof (columnsLoop_field _ _ columnCase_change columns 0 noColumn) as H4.
  pose proof (columnsLoop_field _ _ columnCase_changePerc columns 0 noColumn) as H5.
  cbn zeta in *. rewrite Z.sub_0_r, Z.add_0_l in *. done.
Qed.

Section RowsLoop.
Context `{!External}.

Lemma index_negative (stockData : list jvalue) (i : Z) :
  i < 0 → apis.index stockData i = None.
Proof. intros Hi. unfold apis.index. by rewrite (proj2 (Z.ltb_lt i 0)). Qed.

Lemma indices_below_largest (idx : apis.columnIndex) :
  apis.tickerIdx idx ≤ largestIndex idx ∧ apis.nameIdx idx ≤ largestIndex idx
  ∧ apis.priceIdx idx ≤ largestIndex idx ∧ apis.changeIdx idx ≤ largestIndex idx
  ∧ apis.changePercIdx idx ≤ largestIndex idx.
Proof.
  unfold largestIndex, apis.max.
  destruct (max_foldl_spec [apis.nameIdx idx; apis.priceIdx idx; apis.changeIdx idx;
                            apis.changePercIdx idx] (apis.tickerIdx idx)) as (_ & Hfirst & Hrest).
  repeat (apply Forall_cons in Hrest as [? Hrest]). done.
Qed.

(** With no index negative, a row that is long enough yields a stock. *)
Lemma parseRow_total (now : Time) (idx : apis.columnIndex) (stockData : list jvalue) :
  0 ≤ apis.tickerIdx idx → 0 ≤ apis.nameIdx idx → 0 ≤ apis.priceIdx idx →
  0 ≤ apis.changeIdx idx → 0 ≤ apis.changePercIdx idx →
  largestIndex idx < Z.of_nat (length stockData) →
  ∃ ticker name price change changePerc,
    stockData !! Z.to_nat (apis.tickerIdx idx) = Some ticker
    ∧ stockData !! Z.to_nat (apis.nameIdx idx) = Some name
    ∧ stockData !! Z.to_nat (apis.priceIdx idx) = Some price
    ∧ stockData !! Z.to_nat (apis.changeIdx idx) = Some change
    ∧ stockData !! Z.to_nat (apis.changePercIdx idx) = Some changePerc
    ∧ apis.parseRow now idx stockData
      = Some (mkStock (apis.stringCell ticker "") (apis.stringCell name "")
                (apis.numberCell price 0%float) (apis.numberCell change 0%float)
                (apis.numberCell changePerc 0%float) 0 now).
Proof.
  intros H1 H2 H3 H4 H5 Hlen.
  destruct (indices_below_largest idx) as (L1 & L2 & L3 & L4 & L5).
  unfold apis.parseRow, apis.index.
  rewrite !(proj2 (Z.ltb_ge _ 0)) by done.
  destruct (lookup_lt_is_Some_2 stockData (Z.to_nat (apis.tickerIdx idx))) as [c1 E1]; [lia|].
  destruct (lookup_lt_is_Some_2 stockData (Z.to_nat (apis.nameIdx idx))) as [c2 E2]; [lia|].
  destruct (lookup_lt_is_Some_2 stockData (Z.to_nat (apis.priceIdx idx))) as [c3 E3]; [lia|].
  destruct (lookup_lt_is_Some_2 stockData (Z.to_nat (apis.changeIdx idx))) as [c4 E4]; [lia|].
  destruct (lookup_lt_is_Some_2 stockData (Z.to_nat (apis.changePercIdx idx))) as [c5 E5]; [lia|].
  exists c1, c2, c3, c4, c5. rewrite E1, E2, E3, E4, E5. done.
Qed.

(** With an index negative, every row panics. *)
Lemma parseRow_panics (now : Time) (idx : apis.columnIndex) (stockData : list jvalue) :
  apis.tickerIdx idx < 0 ∨ apis.nameIdx idx < 0 ∨ apis.priceIdx idx < 0
  ∨ apis.changeIdx idx < 0 ∨ apis.changePercIdx idx < 0 →
  apis.parseRow now idx stockData = None.
Proof.
  intros Hneg. unfold apis.parseRow.
  destruct (apis.index stockData (apis.tickerIdx idx)) eqn:E1; [|done].
  destruct (apis.index stockData (apis.nameIdx idx)) eqn:E2; [|done].
  destruct (apis.index stockData (apis.priceIdx idx)) eqn:E3; [|done].
  destruct (apis.index stockData (apis.changeIdx idx)) eqn:E4; [|done].
  destruct (apis.index stockData (apis.changePercIdx idx)) eqn:E5; [|done].
  exfalso. destruct Hneg as [Hn|[Hn|[Hn|[Hn|Hn]]]];
    apply (index_negative stockData) in Hn; congruence.
Qed.

Lemma rowsLoop_total (now : Time) (idx : apis.columnIndex) (data : list jvalue)
    (stocks : list Stock) :
  0 ≤ apis.tickerIdx idx → 0 ≤ apis.nameIdx idx → 0 ≤ apis.priceIdx idx →
  0 ≤ apis.changeIdx idx → 0 ≤ apis.changePercIdx idx →
  ∃ parsed,
    apis.rowsLoop now idx data stocks = Some (stocks ++ parsed)
    ∧ Forall2 (readFrom now idx) (List.filter (longEnough idx) data) parsed.
Proof.
  intros H1 H2 H3 H4 H5. revert stocks.
  induction data as [|item rest IH]; intros stocks.
  - exists []. split; [by rewrite app_nil_r|constructor].
  - cbn [apis.rowsLoop List.filter].
    destruct item as [| | | |stockData|];
      try (destruct (IH stocks) as (parsed & -> & Hall); by exists parsed).
    cbn [longEnough]. fold (largestIndex idx).
    destruct (Z.of_nat (length stockData) <=? largestIndex idx) eqn:Hlen; cbn [negb].
    + destruct (IH stocks) as (parsed & -> & Hall). by exists parsed.
    + apply Z.leb_gt in Hlen.
      destruct (parseRow_total now idx stockData H1 H2 H3 H4 H5 Hlen)
        as (c1 & c2 & c3 & c4 & c5 & E1 & E2 & E3 & E4 & E5 & Hrow).
      rewrite Hrow. destruct (IH (stocks ++ [mkStock (apis.stringCell c1 "")
        (apis.stringCell c2 "") (apis.numberCell c3 0%float) (apis.numberCell c4 0%float)
        (apis.numberCell c5 0%float) 0 now])) as (parsed & -> & Hall).
      eexists (_ :: parsed). split; [by rewrite <-app_assoc|].
      constructor; [|done]. by exists stockData, c1, c2, c3, c4, c5.
Qed.

Lemma rowsLoop_panics (now : Time) (idx : apis.columnIndex) (data : list jvalue)
    (stocks : list Stock) :
  apis.tickerIdx idx < 0 ∨ apis.nameIdx idx < 0 ∨ apis.priceIdx idx < 0
  ∨ apis.changeIdx idx < 0 ∨ apis.changePercIdx idx < 0 →
  apis.rowsLoop now idx data stocks
  = if existsb (longEnough idx) data then None else Some stocks.
Proof.
  intros Hneg. induction data as [|item rest IH]; [done|].
  cbn [apis.rowsLoop existsb].
  destruct item as [| | | |stockData|]; try exact IH.
  cbn [longEnough]. fold (largestIndex idx).
  destruct (Z.of_nat (length stockData) <=? largestIndex idx); cbn [negb orb]; [exact IH|].
  by rewrite parseRow_panics.
Qed.

(** X10. On a table whose columns name all five fields the parser returns,
    in the order of the rows, one stock for every row that is an array
    reaching the largest of the five column positions, read from the cells
    at those positions; the other rows are skipped. *)
Theorem parseStocksFromResponse_complete_columns (now : Time)
    (data securities : list (string * jvalue)) (columns rows : list jvalue) :
  lookupField "securities" data = Some (JObject securities) →
  lookupField "columns" securities = Some (JArray columns) →
  lookupField "data" securities = Some (JArray rows) →
  namesAll columns = true →
  let idx := apis.columnsLoop 0 columns noColumn in
  ∃ stocks,
    apis.parseStocksFromResponse now data = Some stocks
    ∧ Forall2 (readFrom now idx) (List.filter (longEnough idx) rows) stocks.
Proof.
  intros Hsec Hcols Hrows Hall idx.
  unfold apis.parseStocksFromResponse. rewrite Hsec, Hcols, Hrows. cbn zeta.
  fold noColumn. fold idx.
  unfold namesAll in Hall. repeat (apply andb_true_iff in Hall as [Hall ?]).
  pose proof (columnsLoop_field _ _ columnCase_ticker columns 0 noColumn) as P1.
  pose proof (columnsLoop_field _ _ columnCase_name columns 0 noColumn) as P2.
  pose proof (columnsLoop_field _ _ columnCase_price columns 0 noColumn) as P3.
  pose proof (columnsLoop_field _ _ columnCase_change columns 0 noColumn) as P4.
  pose proof (columnsLoop_field _ _ columnCase_changePerc columns 0 noColumn) as P5.
  cbn zeta in *. fold idx in P1, P2, P3, P4, P5.
  repeat match goal with
         | E : existsb _ columns = true, P : context [existsb _ columns] |- _ =>
             rewrite E in P
         end.
  destruct P1 as [[? _] _], P2 as [[? _] _], P3 as [[? _] _], P4 as [[? _] _],
    P5 as [[? _] _].
  destruct (rowsLoop_total now idx rows []) as (parsed & Hrun & Hparsed); try done.
  by exists parsed.
Qed.

(** X11. On a table whose columns miss one of the five names the parser
    panics as soon as a row is an array reaching the largest column position
    found: the missing column is read at index -1. Without such a row it
    returns no stock. *)
Theorem parseStocksFromResponse_missing_column (now : Time)
    (data securities : list (string * jvalue)) (columns rows : list jvalue) :
  lookupField "securities" data = Some (JObject securities) →
  lookupField "columns" securities = Some (JArray columns) →
  lookupField "data" securities = Some (JArray rows) →
  namesAll columns = false →
  let idx := apis.columnsLoop 0 columns noColumn in
  apis.parseStocksFromResponse now data
  = if existsb (longEnough idx) rows then None else Some [].
Proof.
  intros Hsec Hcols Hrows Hmiss idx.
  unfold apis.parseStocksFromResponse. rewrite Hsec, Hcols, Hrows. cbn zeta.
  fold noColumn. fold idx. apply rowsLoop_panics.
  pose proof (columnsLoop_field _ _ columnCase_ticker columns 0 noColumn) as P1.
  pose proof (columnsLoop_field _ _ columnCase_name columns 0 noColumn) as P2.
  pose proof (columnsLoop_field _ _ columnCase_price columns 0 noColumn) as P3.
  pose proof (columnsLoop_field _ _ columnCase_change columns 0 noColumn) as P4.
  pose proof (columnsLoop_field _ _ columnCase_changePerc columns 0 noColumn) as P5.
  cbn zeta in *. fold idx in P1, P2, P3, P4, P5. unfold namesAll in Hmiss.
  destruct (existsb (isColumn "SECID") columns); [|left; rewrite P1; done].
  destruct (existsb (isColumn "SHORTNAME") columns); [|right; left; rewrite P2; done].
  destruct (existsb (isColumn "LAST") columns); [|do 2 right; left; rewrite P3; done].
  destruct (existsb (isColumn "CHANGE") columns); [|do 3 right; left; rewrite P4; done].
  destruct (existsb (isColumn "LASTTOPREVPRICE") columns); [done|].
  do 4 right. rewrite P5. done.
Qed.
End RowsLoop.

Lemma parseStocksFromResponse_complete_columns_witness :
  ∃ stocks,
    @apis.parseStocksFromResponse Fixture.external Fixture.noon
      (Fixture.table Fixture.allColumns) = Some stocks
    ∧ length stocks = 1%nat.
Proof.
  destruct (@parseStocksFromResponse_complete_columns Fixture.external Fixture.noon
              (Fixture.table Fixture.allColumns) _ Fixture.allColumns _
              eq_refl eq_refl eq_refl eq_refl) as (stocks & Hrun & Hall).
  exists stocks. split; [exact Hrun|].
  apply Forall2_length in Hall. rewrite <-Hall. reflexivity.
Defined.

Lemma parseStocksFromResponse_missing_column_witness :
  @apis.parseStocksFromResponse Fixture.external Fixture.noon
    (Fixture.table Fixture.twoColumns) = None.
Proof.
  rewrite (@parseStocksFromResponse_missing_column Fixture.external Fixture.noon
             (Fixture.table Fixture.twoColumns) _ Fixture.twoColumns _
             eq_refl eq_refl eq_refl eq_refl).
  reflexivity.
Defined.

(** ** The configuration and the wiring of the components *)

Lemma setDefaults_defaultsSet (c : config.Config) : defaultsSet (config.setDefaults c).
Proof.
  unfold defaultsSet, config.setDefaults. simpl.
  split_and!; first [by case_bool_decide | by (case_match eqn:E; [|apply Z.eqb_neq in E])].
Qed.

Lemma setDefaults_fixpoint (c : config.Config) : defaultsSet c → config.setDefaults c = c.
Proof.
  intros (H1 & H2 & H3 & H4 & H5 & H6 & H7 & H8 & H9).
  destruct c as [[port host tmo] db [uri rdb dttl sttl nttl] [mb mt mu mk] [nb nt nu nk ns]
                 keys lvl env].
  unfold config.setDefaults. simpl in *.
  rewrite !bool_decide_eq_false_2 by done.
  repeat match goal with
         | Hz : ?z ≠ 0 |- context [?z =? 0] => rewrite (proj2 (Z.eqb_neq z 0) Hz)
         end.
  done.
Qed.

(** X12. [setDefaults] leaves none of the nine settings it looks at zero or
    empty, changes nothing in a configuration in which they are all set (and
    only in such a one), is idempotent, and never touches the database
    settings, the API keys, the environment, the Redis address, the base
    URLs, the cache switches or the news sources. *)
Theorem setDefaults_fills_only_unset (c : config.Config) :
  let c' := config.setDefaults c in
  defaultsSet c'
  ∧ (defaultsSet c ↔ c' = c)
  ∧ config.setDefaults c' = c'
  ∧ config.Database c' = config.Database c
  ∧ config.APIKeys c' = config.APIKeys c
  ∧ config.Environment c' = config.Environment c
  ∧ config.CacheConfig.RedisURI (config.Cache c') = config.CacheConfig.RedisURI (config.Cache c)
  ∧ config.CacheConfig.RedisDB (config.Cache c') = config.CacheConfig.RedisDB (config.Cache c)
  ∧ config.MOEXConfig.BaseURL (config.MOEX c') = config.MOEXConfig.BaseURL (config.MOEX c)
  ∧ config.MOEXConfig.UseCache (config.MOEX c') = config.MOEXConfig.UseCache (config.MOEX c)
  ∧ config.MOEXConfig.APIKey (config.MOEX c') = config.MOEXConfig.APIKey (config.MOEX c)
  ∧ config.NewsAPIConfig.BaseURL (config.NewsAPI c')
    = config.NewsAPIConfig.BaseURL (config.NewsAPI c)
  ∧ config.NewsAPIConfig.UseCache (config.NewsAPI c')
    = config.NewsAPIConfig.UseCache (config.NewsAPI c)
  ∧ config.NewsAPIConfig.APIKey (config.NewsAPI c')
    = config.NewsAPIConfig.APIKey (config.NewsAPI c)
  ∧ config.NewsAPIConfig.Sources (config.NewsAPI c')
    = config.NewsAPIConfig.Sources (config.NewsAPI c).
Proof.
  cbn zeta. split_and!; try reflexivity.
  - apply setDefaults_defaultsSet.
  - split; [apply setDefaults_fixpoint|]. intros <-. apply setDefaults_defaultsSet.
  - apply setDefaults_fixpoint, setDefaults_defaultsSet.
Qed.

Lemma LoadConfig_Ok (ReadInConfig : string → result ()) (Unmarshal : result config.Config)
    (configPath : string) (c : config.Config) :
  config.LoadConfig ReadInConfig Unmarshal configPath = Ok c →
  ∃ read, Unmarshal = Ok read ∧ c = config.setDefaults read.
Proof.
  unfold config.LoadConfig. destruct (ReadInConfig configPath) as [[]|cause]; [|done].
  destruct Unmarshal as [read|cause]; [|done]. intros [= <-]. by exists read.
Qed.

Lemma main_run_Serving (cfg : config.Config) (pingRedis : string → Z → result ())
    (connectMongo : config.DatabaseConfig.t → result ()) (c : main.components) :
  main.main (Ok cfg) pingRedis connectMongo = main.Serving c →
  main.cfg c = cfg
  ∧ StockRepositoryImpl.cacheExpiry (main.stockRepo c)
    = config.CacheConfig.StocksTTL (config.Cache cfg)
  ∧ NewsRepositoryImpl.cacheExpiry (main.newsRepo c)
    = config.CacheConfig.NewsTTL (config.Cache cfg).
Proof.
  unfold main.main.
  destruct (bool_decide (config.CacheConfig.RedisURI (config.Cache cfg) ≠ ""));
    [destruct (pingRedis _ _) as [[]|err]; [|by cbn]|];
    (destruct (decide (config.DatabaseConfig.URI (config.Database cfg) = "")) as [Huri|Huri];
       [by rewrite bool_decide_eq_false_2 by (by intros ?)|]);
    rewrite (bool_decide_eq_true_2 _ Huri);
    (destruct (connectMongo _) as [[]|err]; [|by cbn]);
    cbn; by intros [= <-].
Qed.

(** X13. When the configuration cannot be loaded [main] never starts the
    server: the configuration it falls back to names no database, and [main]
    ends with the message that MongoDB is required, whatever the state of
    Redis and MongoDB. When the server is started, the configuration was
    loaded and names a database that could be connected, both repositories
    have caching switched on with the TTLs of the configuration, which the
    provider clients share, and the cache is Redis exactly when the
    configuration gives a Redis address. *)
Theorem main_serves_only_loaded_config (loaded : result config.Config)
    (pingRedis : string → Z → result ()) (connectMongo : config.DatabaseConfig.t → result ()) :
  (∀ err, loaded = Fail err →
     main.main loaded pingRedis connectMongo
     = main.Fatal "В текущей версии требуется MongoDB для работы сервера" None)
  ∧ (∀ c, main.main loaded pingRedis connectMongo = main.Serving c →
       let cache := config.Cache (main.cfg c) in
       loaded = Ok (main.cfg c)
       ∧ config.DatabaseConfig.URI (config.Database (main.cfg c)) ≠ ""
       ∧ connectMongo (config.Database (main.cfg c)) = Ok ()
       ∧ StockRepositoryImpl.useCache (main.stockRepo c) = true
       ∧ NewsRepositoryImpl.useCache (main.newsRepo c) = true
       ∧ StockRepositoryImpl.cacheExpiry (main.stockRepo c) = config.CacheConfig.StocksTTL cache
       ∧ NewsRepositoryImpl.cacheExpiry (main.newsRepo c) = config.CacheConfig.NewsTTL cache
       ∧ StockRepositoryImpl.moexAPI (main.stockRepo c) = main.moexAPI c
       ∧ NewsRepositoryImpl.newsAPI (main.newsRepo c) = main.newsAPI c
       ∧ MOEXAPIClient.cacheExpiry (main.moexAPI c) = config.CacheConfig.StocksTTL cache
       ∧ NewsAPIClient.cacheExpiry (main.newsAPI c) = config.CacheConfig.NewsTTL cache
       ∧ main.cacheOf c
         = if bool_decide (config.CacheConfig.RedisURI cache ≠ "")
           then main.NewRedisCache (config.CacheConfig.RedisURI cache)
                  (config.CacheConfig.RedisDB cache)
           else main.NewInMemoryCache (config.CacheConfig.DefaultTTL cache)).
Proof.
  split.
  - intros err ->. reflexivity.
  - intros c. unfold main.main.
    destruct loaded as [cfg|err]; [|by cbn].
    destruct (bool_decide (config.CacheConfig.RedisURI (config.Cache cfg) ≠ "")) eqn:Hredis.
    + destruct (pingRedis _ _) as [[]|err]; [|by cbn].
      destruct (decide (config.DatabaseConfig.URI (config.Database cfg) = "")) as [Huri|Huri];
        [by rewrite bool_decide_eq_false_2 by (by intros ?)|].
      rewrite (bool_decide_eq_true_2 _ Huri).
      destruct (connectMongo _) as [[]|err] eqn:Hmongo; [|by cbn].
      cbn. intros [= <-]. cbn. rewrite Hredis. by rewrite Hmongo.
    + destruct (decide (config.DatabaseConfig.URI (config.Database cfg) = "")) as [Huri|Huri];
        [by rewrite bool_decide_eq_false_2 by (by intros ?)|].
      rewrite (bool_decide_eq_true_2 _ Huri).
      destruct (connectMongo _) as [[]|err] eqn:Hmongo; [|by cbn].
      cbn. intros [= <-]. cbn. rewrite Hredis. by rewrite Hmongo.
Qed.

(** X14. A server started on a configuration that [LoadConfig] returned
    caches with TTLs that are not zero: the ones of the file, or 15 minutes
    for stocks and 30 minutes for news where the file gives none. *)
Theorem served_repositories_have_ttl (ReadInConfig : string → result ())
    (Unmarshal : result config.Config) (configPath : string)
    (pingRedis : string → Z → result ()) (connectMongo : config.DatabaseConfig.t → result ())
    (c : main.components) :
  main.main (config.LoadConfig ReadInConfig Unmarshal configPath) pingRedis connectMongo
  = main.Serving c →
  ∃ read,
    Unmarshal = Ok read
    ∧ StockRepositoryImpl.cacheExpiry (main.stockRepo c)
      = (if config.CacheConfig.StocksTTL (config.Cache read) =? 0 then 15 * Minute
         else config.CacheConfig.StocksTTL (config.Cache read))
    ∧ NewsRepositoryImpl.cacheExpiry (main.newsRepo c)
      = (if config.CacheConfig.NewsTTL (config.Cache read) =? 0 then 30 * Minute
         else config.CacheConfig.NewsTTL (config.Cache read))
    ∧ StockRepositoryImpl.cacheExpiry (main.stockRepo c) ≠ 0
    ∧ NewsRepositoryImpl.cacheExpiry (main.newsRepo c) ≠ 0.
Proof.
  intros Hserve.
  destruct (config.LoadConfig ReadInConfig Unmarshal configPath) as [cfg|err] eqn:E;
    [|discriminate Hserve].
  apply LoadConfig_Ok in E as (read & Hread & ->). exists read. split; [done|].
  destruct (main_run_Serving _ _ _ _ Hserve) as (Hcfg & Hs & Hn).
  rewrite Hs, Hn.
  destruct (setDefaults_defaultsSet read) as (_ & _ & _ & _ & _ & Hs' & Hn' & _).
  split_and!; done.
Qed.

Lemma served_repositories_have_ttl_witness :
  StockRepositoryImpl.cacheExpiry (main.stockRepo Fixture.served) = 15 * Minute
  ∧ NewsRepositoryImpl.cacheExpiry (main.newsRepo Fixture.served) = 30 * Minute.
Proof.
  destruct (served_repositories_have_ttl (λ _, Ok ()) (Ok Fixture.fileConfig) "config.yaml"
              (λ _ _, Ok ()) (λ _, Ok ()) Fixture.served eq_refl)
    as (read & Hread & Hstocks & Hnews & _).
  injection Hread as <-. split; [exact Hstocks|exact Hnews].
Defined.

(** ** The services *)

(** X15. For every limit and every quote universe the repository returns,
    GetMOEXTopVolume returns a permutation of the universe in which no quote
    stands before one of greater volume, cut to min(N, universe size), where
    N is the limit, or 10 when the limit is not positive. An error of the
    repository is returned as it is. *)
Theorem top_volume_ranked {R : Type} `{!ports.StockRepository R}
    (limit : Z) (r r' : R) (fetched : result (list Stock)) :
  ports.GetStocks [] r = (fetched, r') →
  match fetched with
  | Fail err => StockServiceImpl.GetMOEXTopVolume limit r = (Fail err, r')
  | Ok universe =>
      let n := Z.to_nat (Z.min (if limit <=? 0 then 10 else limit)
                           (Z.of_nat (length universe))) in
      ∃ ranked,
        StockServiceImpl.GetMOEXTopVolume limit r = (Ok (take n ranked), r')
        ∧ ranked ≡ₚ universe
        ∧ StronglySorted (λ a b, Volume b ≤ Volume a) ranked
  end.
Proof.
  intros Hfetch. destruct fetched as [universe|err].
  - destruct (ranking_run (ports.GetStocks []) (λ a b, Volume a <? Volume b) (λ _, True))
      with (limit := limit) (r := r) (r' := r') (universe := universe)
      as (ranked & Hrun & Hperm & Hsorted).
    + intros x y Hxy. apply Z.ltb_lt in Hxy. apply Z.ltb_ge. lia.
    + intros x y z _ _ _ Hxy Hyz. apply Z.ltb_ge in Hxy, Hyz. apply Z.ltb_ge. lia.
    + exact Hfetch.
    + by apply Forall_forall.
    + exists ranked. split_and!; [exact Hrun|exact Hperm|].
      eapply StronglySorted_weaken; [|exact Hsorted].
      intros a b Hab. by apply Z.ltb_ge in Hab.
  - unfold StockServiceImpl.GetMOEXTopVolume. rewrite bind_run, Hfetch. reflexivity.
Qed.

Lemma containsTickerInNews_always (news : News) (ticker : string) :
  containsTickerInNews news ticker = true.
Proof. unfold containsTickerInNews, containsIgnoreCase. by destruct (existsb _ _). Qed.

Lemma matchesAny_nonempty (tickers : list string) (news : News) :
  tickers ≠ [] → matchesAny tickers news = true.
Proof.
  destruct tickers as [|t ts]; [done|]. intros _. unfold matchesAny. simpl.
  by rewrite containsTickerInNews_always.
Qed.

Lemma dedup_fold_distinct (tickers : list string) (l : list News) :
  tickers ≠ [] →
  ∀ st, dedupInv st → NoDup (ID <$> l) → (∀ n, n ∈ l → ID n ∉ ID <$> st.1) →
    (foldl (λ st news, NewsServiceImpl.tickersLoop news tickers st) st l).1 = st.1 ++ l.
Proof.
  intros Hne. induction l as [|n l IH]; intros st Hinv Hnd Hfresh; simpl.
  - by rewrite app_nil_r.
  - apply NoDup_cons in Hnd as [Hn Hnd].
    destruct (tickersLoop_step tickers n st Hinv) as (Hinv1 & _ & _).
    rewrite IH; [|done|done|].
    + rewrite tickersLoop_spec, matchesAny_nonempty by done.
      assert (Hseen : default false (st.2 !! ID n) = false).
      { destruct (default false (st.2 !! ID n)) eqn:E; [|done].
        apply Hinv in E. exfalso. eapply Hfresh; [by left|done]. }
      rewrite Hseen. simpl. by rewrite <-app_assoc.
    + intros m Hm. rewrite tickersLoop_spec, matchesAny_nonempty by done.
      assert (Hseen : default false (st.2 !! ID n) = false).
      { destruct (default false (st.2 !! ID n)) eqn:E; [|done].
        apply Hinv in E. exfalso. eapply Hfresh; [by left|done]. }
      rewrite Hseen. simpl. rewrite fmap_app, elem_of_app. intros [Hin|Hin].
      * eapply Hfresh; [by right|done].
      * simpl in Hin. apply list_elem_of_singleton in Hin.
        apply Hn. rewrite <-Hin. by apply list_elem_of_fmap_2.
Qed.

(** X16. The tickers given to GetNewsForMultipleTickers have no influence on
    its result: the test of a news item against a ticker holds for every
    item and every ticker, so two non-empty ticker lists give the same
    result, and when today's news carry distinct ids all of them are
    returned. *)
Theorem news_for_tickers_unfiltered {R : Type} `{!ports.NewsRepository R}
    (tickers tickers' : list string) (r : R) :
  tickers ≠ [] → tickers' ≠ [] →
  (∀ news ticker, containsTickerInNews news ticker = true)
  ∧ NewsServiceImpl.GetNewsForMultipleTickers tickers r
    = NewsServiceImpl.GetNewsForMultipleTickers tickers' r
  ∧ ∀ allNews r', ports.GetNewsForToday r = (Ok allNews, r') → NoDup (ID <$> allNews) →
      NewsServiceImpl.GetNewsForMultipleTickers tickers r = (Ok allNews, r').
Proof.
  intros Hne Hne'. split_and!.
  - apply containsTickerInNews_always.
  - unfold NewsServiceImpl.GetNewsForMultipleTickers.
    rewrite (bool_decide_eq_false_2 (length tickers = 0%nat)) by (by destruct tickers).
    rewrite (bool_decide_eq_false_2 (length tickers' = 0%nat)) by (by destruct tickers').
    rewrite !bind_run. destruct (ports.GetNewsForToday r) as [[allNews|err] r']; [|done].
    unfold mret, M_ret, mpure. do 3 f_equal.
    generalize (([], ∅) : NewsServiceImpl.dedupState).
    induction allNews as [|n l IH]; intros st; [done|]. simpl.
    rewrite !tickersLoop_spec, !matchesAny_nonempty by done. apply IH.
  - intros allNews r' Hfetch Hnd.
    unfold NewsServiceImpl.GetNewsForMultipleTickers.
    rewrite bool_decide_eq_false_2 by (by destruct tickers).
    erewrite bind_Ok by exact Hfetch. unfold mret, M_ret, mpure. do 2 f_equal.
    rewrite (dedup_fold_distinct tickers allNews Hne ([], ∅)); [done| |done|].
    + split; [constructor|]. intros id. simpl. rewrite lookup_empty. simpl.
      split; [done|]. intros Hin. by apply elem_of_nil in Hin.
    + intros n _ Hin. by apply elem_of_nil in Hin.
Qed.

Lemma top_volume_ranked_witness :
  ∃ ranked,
    @StockServiceImpl.GetMOEXTopVolume _ Fixture.stocks 2 Fixture.warm
    = (Ok (take 2 ranked), (@ports.GetStocks _ Fixture.stocks [] Fixture.warm).2)
    ∧ ranked ≡ₚ [Fixture.sber; Fixture.gazp; Fixture.lkoh]
    ∧ StronglySorted (λ a b, Volume b ≤ Volume a) ranked.
Proof.
  apply (@top_volume_ranked _ Fixture.stocks 2 Fixture.warm
           (@ports.GetStocks _ Fixture.stocks [] Fixture.warm).2
           (Ok [Fixture.sber; Fixture.gazp; Fixture.lkoh])).
  vm_compute. reflexivity.
Defined.

Lemma news_for_tickers_unfiltered_witness :
  @NewsServiceImpl.GetNewsForMultipleTickers _ Fixture.news ["SBER"] Fixture.warm
  = @NewsServiceImpl.GetNewsForMultipleTickers _ Fixture.news ["LKOH"; "VTBR"] Fixture.warm.
Proof.
  destruct (@news_for_tickers_unfiltered _ Fixture.news ["SBER"] ["LKOH"; "VTBR"]
              Fixture.warm) as (_ & Hsame & _); [discriminate|discriminate|].
  exact Hsame.
Defined.

(** ** The list of tickers in a prompt *)

Lemma formatLoop_joins (rest done : list string) :
  mcp.formatLoop (length done) rest (String.concat ", " done)
  = String.concat ", " (done ++ rest).
Proof.
  revert done. induction rest as [|ticker rest IH]; intros done.
  - by rewrite app_nil_r.
  - cbn [mcp.formatLoop]. cbv zeta.
    replace (done ++ ticker :: rest) with ((done ++ [ticker]) ++ rest)
      by (by rewrite <-app_assoc).
    rewrite <-IH. rewrite length_app, Nat.add_1_r. f_equal.
    rewrite concat_snoc. destruct done as [|t done']; [done|].
    cbn [length Nat.ltb Nat.leb]. apply append_assoc.
Qed.

(** X17. [formatTickersList] joins the tickers with a comma and a space: no
    separator before the first or after the last, and the empty string for
    no ticker. *)
Theorem formatTickersList_joins (tickers : list string) :
  mcp.formatTickersList tickers = String.concat ", " tickers.
Proof. apply (formatLoop_joins tickers []). Qed.

(** ** The repositories *)

Section NewsLookup.
Context `{!External} {C : Type} `{!cache.Cache C}.

Lemma onNews_FindOne (ev : Event) (filter : News → bool) (w : World C) :
  onNews ev (mongo.FindOne filter) w = ((mongo.FindOne filter (w_news w)).1, logged ev w).
Proof.
  unfold onNews, mongo.FindOne, logged.
  destruct (mongo.outage (w_news w)); [done|]. by destruct (find _ _).
Qed.

Lemma warmCache_news (r : NewsRepositoryImpl.t) (k : cache.kind) (key : string)
    (v : cache.typeOf k) (w : World C) :
  NewsRepositoryImpl.warmCache r k key v w
  = (Ok (), (cacheSet k key v (NewsRepositoryImpl.cacheExpiry r) w).2).
Proof.
  unfold NewsRepositoryImpl.warmCache, mbind, M_bind, mbind', try.
  by destruct (cacheSet _ _ _ _ _).
Qed.

Lemma cacheGet_world (k : cache.kind) (key : string) (dest : cache.typeOf k) (w : World C) :
  cacheGet k key dest w
  = ((cache.Get k (w_now w) key dest (w_cache w)).1,
     mkWorld (cache.Get k (w_now w) key dest (w_cache w)).2 (w_stocks w) (w_news w)
       (w_upstream w) (w_now w) (w_log w ++ [EvCacheGet key])).
Proof. unfold cacheGet. by destruct (cache.Get _ _ _ _ _). Qed.

(** One run of [GetNews], step by step. *)
Lemma GetNews_run (r : NewsRepositoryImpl.t) (id : string) (w : World C) :
  let key := "news:" +:+ id in
  let w1 := if NewsRepositoryImpl.useCache r then (cacheGet cache.KNews key zeroNews w).2
            else w in
  let cached := if NewsRepositoryImpl.useCache r
                then newsHit (cache.Get cache.KNews (w_now w) key zeroNews (w_cache w)).1
                else None in
  NewsRepositoryImpl.GetNews r id w
  = match cached with
    | Some n => (Ok n, w1)
    | None =>
        let w2 := logged (EvNewsFindOne id) w1 in
        match (mongo.FindOne (NewsRepositoryImpl.byId id) (w_news w)).1 with
        | Ok n =>
            (Ok n, if NewsRepositoryImpl.useCache r
                   then (cacheSet cache.KNews key n (NewsRepositoryImpl.cacheExpiry r) w2).2
                   else w2)
        | Fail _ => (Fail (errorString ("новость с ID " +:+ id +:+ " не найдена")), w2)
        end
    end.
Proof.
  cbn zeta. unfold NewsRepositoryImpl.GetNews. cbv zeta. fold zeroNews.
  destruct (NewsRepositoryImpl.useCache r).
  - rewrite bind_run. rewrite bind_run. unfold try at 1. rewrite cacheGet_world.
    unfold mret at 1, M_ret, mpure. cbn [fst snd].
    fold (newsHit (cache.Get cache.KNews (w_now w) ("news:" +:+ id) zeroNews (w_cache w)).1).
    destruct (newsHit _) as [n|]; [done|].
    rewrite bind_run. unfold try at 1. rewrite onNews_FindOne. cbn [w_news].
    destruct (mongo.FindOne _ _).1 as [n|err]; [|done].
    by rewrite bind_run, warmCache_news.
  - rewrite bind_run. unfold mret at 1, M_ret, mpure.
    rewrite bind_run. unfold try at 1. rewrite onNews_FindOne.
    by destruct (mongo.FindOne _ _).1 as [n|err].
Qed.

(** X18. A look-up of a news item by id does nothing but read the cache,
    read the store and write to the cache: it never calls the provider and
    never writes to a collection. It returns the cached item (one with an
    id) or else the first stored item with that id. Every failure, an
    outage of the store included, is reported as the item not being
    found. *)
Theorem GetNews_reads_cache_then_store (r : NewsRepositoryImpl.t) (id : string) (w : World C) :
  let key := "news:" +:+ id in
  let cached := if NewsRepositoryImpl.useCache r
                then newsHit (cache.Get cache.KNews (w_now w) key zeroNews (w_cache w)).1
                else None in
  let res := (NewsRepositoryImpl.GetNews r id w).1 in
  let w' := (NewsRepositoryImpl.GetNews r id w).2 in
  res = match cached with
        | Some n => Ok n
        | None =>
            match mongo.outage (w_news w),
                  find (NewsRepositoryImpl.byId id) (mongo.docs (w_news w)) with
            | None, Some n => Ok n
            | _, _ => Fail (errorString ("новость с ID " +:+ id +:+ " не найдена"))
            end
        end
  ∧ w_news w' = w_news w ∧ w_stocks w' = w_stocks w
  ∧ ∃ evs, w_log w' = w_log w ++ evs
           ∧ Forall (λ ev, ev = EvCacheGet key ∨ ev = EvNewsFindOne id
                           ∨ ev = EvCacheSet key (NewsRepositoryImpl.cacheExpiry r)) evs.
Proof.
  cbn zeta. rewrite GetNews_run. cbn zeta.
  destruct (NewsRepositoryImpl.useCache r).
  - rewrite cacheGet_world. cbn [snd].
    destruct (newsHit _) as [n|].
    + cbn. split_and!; try done. exists [EvCacheGet ("news:" +:+ id)].
      split; [done|]. repeat constructor.
    + unfold mongo.FindOne. destruct (mongo.outage (w_news w)) as [err|]; cbn [fst].
      * cbn. split_and!; try done. eexists [_; _]. rewrite <-app_assoc.
        split; [done|]. repeat constructor; by right; left.
      * destruct (find _ _) as [n|]; cbn [fst].
        -- rewrite cacheSet_world. cbn.
           split_and!; try done. eexists [_; _; _]. rewrite <-!app_assoc.
           split; [done|]. constructor; [by left|]. constructor; [by right; left|].
           constructor; [by do 2 right|constructor].
        -- cbn. split_and!; try done. eexists [_; _]. rewrite <-app_assoc.
           split; [done|]. repeat constructor; by right; left.
  - unfold mongo.FindOne. destruct (mongo.outage (w_news w)) as [err|]; cbn [fst].
    + cbn. split_and!; try done. eexists [_]. split; [done|]. repeat constructor; by right; left.
    + destruct (find _ _) as [n|]; cbn [fst].
      * cbn. split_and!; try done. eexists [_]. split; [done|].
        repeat constructor; by right; left.
      * cbn. split_and!; try done. eexists [_]. split; [done|].
        repeat constructor; by right; left.
Qed.
End NewsLookup.

Section ReadOwnWrites.
Context `{!External}.

Lemma InMemoryCache_readsOwnWrites (k : cache.kind) (v : cache.typeOf k) :
  roundTrips k v → @readsOwnWrites InMemoryCache.t InMemoryCache.InMemoryCache_Cache k v.
Proof.
  intros (data & Hdata & Hback) now later key ttl dest c.
  cbn [cache.Get cache.Set' InMemoryCache.InMemoryCache_Cache].
  unfold InMemoryCache.Set', InMemoryCache.Get. cbn [snd].
  rewrite clientGet_clientSet. destruct (_ && _); [by right|].
  rewrite Hdata, Hback. by left.
Qed.

Lemma RedisCache_readsOwnWrites (k : cache.kind) (v : cache.typeOf k) :
  roundTrips k v → @readsOwnWrites RedisCache.t RedisCache.RedisCache_Cache k v.
Proof.
  intros (data & Hdata & Hback) now later key ttl dest c.
  cbn [cache.Get cache.Set' RedisCache.RedisCache_Cache].
  unfold RedisCache.Set'. rewrite Hdata. unfold RedisCache.clientSet.
  destruct (RedisCache.outage c) as [err|] eqn:Hout; cbn [snd].
  - unfold RedisCache.Get. run_monad. unfold RedisCache.clientGet. rewrite Hout.
    destruct err; cbn; auto.
  - rewrite RedisCache_Get_run by done. cbn [RedisCache.entries fst].
    rewrite lookup_insert_eq. destruct (RedisCache.live _ _); [|by right].
    cbn [fst]. rewrite Hback. by left.
Qed.

(** X19. Both cache backends read their own writes: after a [Set] of a value
    that the JSON codec gives back unchanged, a [Get] under the same key
    yields that value, or a miss, or an error, and never another value,
    whatever the ttl, the times of the two calls and the state of the
    cache. *)
Theorem backends_read_own_writes (k : cache.kind) (v : cache.typeOf k) :
  roundTrips k v →
  @readsOwnWrites InMemoryCache.t InMemoryCache.InMemoryCache_Cache k v
  ∧ @readsOwnWrites RedisCache.t RedisCache.RedisCache_Cache k v.
Proof.
  intros Hcodec. split.
  - by apply InMemoryCache_readsOwnWrites.
  - by apply RedisCache_readsOwnWrites.
Qed.
End ReadOwnWrites.

Lemma backends_read_own_writes_witness :
  @readsOwnWrites InMemoryCache.t Fixture.inMemory cache.KStock Fixture.sber
  ∧ @readsOwnWrites RedisCache.t (@RedisCache.RedisCache_Cache Fixture.external)
      cache.KStock Fixture.sber.
Proof.
  apply (@backends_read_own_writes Fixture.external cache.KStock Fixture.sber).
  exists (existT cache.KStock Fixture.sber). split; reflexivity.
Defined.


Section SaveThenGet.
Context `{!External} {C : Type} `{!cache.Cache C}.

Lemma find_upserted {D} (filter : D → bool) (doc : D) (c : mongo.Collection D) :
  filter doc = true → mongo.outage c = None →
  mongo.outage (upserted filter doc c) = None
  ∧ find filter (mongo.docs (upserted filter doc c)) = Some doc.
Proof.
  intros Hdoc Hup. unfold upserted. rewrite Hup.
  destruct (find filter (mongo.docs c)) eqn:Hfind; cbn [mongo.docs mongo.outage].
  - split; [done|]. apply find_replaceFirst; [done|]. by rewrite Hfind.
  - split; [done|]. by apply find_snoc_fresh.
Qed.

Lemma SaveNews_up (r : NewsRepositoryImpl.t) (n : News) (w : World C) :
  mongo.outage (w_news w) = None →
  let w' := (NewsRepositoryImpl.SaveNews r (Some n) w).2 in
  (NewsRepositoryImpl.SaveNews r (Some n) w).1 = Ok ()
  ∧ w_cache w'
    = (if NewsRepositoryImpl.useCache r
       then (cache.Set' cache.KNews (w_now w) ("news:" +:+ ID n) n
               (NewsRepositoryImpl.cacheExpiry r) (w_cache w)).2
       else w_cache w).
Proof.
  intros Hup. cbn zeta.
  unfold NewsRepositoryImpl.SaveNews, NewsRepositoryImpl.warmCache.
  run_monad. unfold onNews, cacheSet.
  unfold mongo.FindOne, mongo.ReplaceOne, mongo.InsertOne.
  destruct w as [c st [docs out] up now log]. simpl in Hup. subst out. simpl.
  destruct (find _ docs) eqn:Hfind; simpl.
  - destruct (NewsRepositoryImpl.useCache r); simpl; [|done].
    by destruct (cache.Set' _ _ _ _ _ _).
  - rewrite (find_byId_none _ _ Hfind). simpl.
    destruct (NewsRepositoryImpl.useCache r); simpl; [|done].
    by destruct (cache.Set' _ _ _ _ _ _).
Qed.

Lemma DateTime_idempotent (t : Time) : bson.DateTime (bson.DateTime t) = bson.DateTime t.
Proof.
  unfold bson.DateTime. cbn [unixNano]. f_equal.
  unfold Millisecond. Z.to_euclidean_division_equations. lia.
Qed.

(** A datetime of the store is at most a millisecond before the time it
    was given, and the same instant for a time of whole milliseconds. *)
Lemma DateTime_close (t : Time) :
  unixNano t - Millisecond < unixNano (bson.DateTime t) ≤ unixNano t
  ∧ (unixNano t `mod` Millisecond = 0 → unixNano (bson.DateTime t) = unixNano t).
Proof.
  unfold bson.DateTime. cbn [unixNano]. unfold Millisecond.
  split; [|intros ->; lia]. Z.to_euclidean_division_equations. lia.
Qed.

Lemma storedNews_idempotent (n : News) : storedNews (storedNews n) = storedNews n.
Proof. unfold storedNews. cbn. by rewrite !DateTime_idempotent. Qed.

Lemma find_storedNews (id : string) (l : list News) :
  find (NewsRepositoryImpl.byId id) (storedNews <$> l)
  = storedNews <$> find (NewsRepositoryImpl.byId id) l.
Proof.
  induction l as [|n l IH]; [done|]. cbn [fmap list_fmap find].
  change (NewsRepositoryImpl.byId id (storedNews n)) with (NewsRepositoryImpl.byId id n).
  by destruct (NewsRepositoryImpl.byId id n).
Qed.

Lemma find_storedDoc (ticker : string) (l : list StockDoc) :
  find (StockRepositoryImpl.byTicker ticker) (storedDoc <$> l)
  = storedDoc <$> find (StockRepositoryImpl.byTicker ticker) l.
Proof.
  induction l as [|d l IH]; [done|]. cbn [fmap list_fmap find].
  assert (E : StockRepositoryImpl.byTicker ticker (storedDoc d)
              = StockRepositoryImpl.byTicker ticker d) by by destruct d.
  rewrite E. by destruct (StockRepositoryImpl.byTicker ticker d).
Qed.

(** Reading the collection as the server holds it goes along with the
    writes: an upsert of the struct, read as the server holds it, is the
    upsert of the stored document into the collection the server held. *)
Lemma storedIn_upserted {D} (stored : D → D) (filter : D → bool) (doc : D)
    (c : mongo.Collection D) :
  (∀ d, filter (stored d) = filter d) →
  storedIn stored (upserted filter doc c) = upserted filter (stored doc) (storedIn stored c).
Proof.
  intros Hfilter. destruct c as [docs [err|]]; [done|].
  unfold upserted, storedIn. cbn [mongo.outage mongo.docs].
  assert (Hfind : find filter (stored <$> docs) = stored <$> find filter docs).
  { induction docs as [|d l IH]; [done|]. cbn [fmap list_fmap find].
    rewrite Hfilter. by destruct (filter d). }
  rewrite Hfind. clear Hfind.
  destruct (find filter docs) as [found|];
    cbn [fmap option_fmap option_map mongo.docs mongo.outage].
  - f_equal. induction docs as [|d l IH]; [done|].
    cbn [mongo.replaceFirst fmap list_fmap]. rewrite Hfilter.
    destruct (filter d); [done|]. cbn [fmap list_fmap]. by rewrite <-IH.
  - by rewrite fmap_app.
Qed.

(** X20. A news item that was saved is the one a look-up by its id returns
    afterwards, at any time, whether the cache still holds it or not: with
    the store reachable [SaveNews] succeeds, and [GetNews], reading the
    collection as the server holds it, then returns the saved item: as it
    was saved from a cache that reads its own writes, and with its times as
    datetimes of the store (whole milliseconds, in UTC) from the store. *)
Theorem SaveNews_then_GetNews (r : NewsRepositoryImpl.t) (n : News) (later : Time)
    (w : World C) :
  mongo.outage (w_news w) = None →
  readsOwnWrites C cache.KNews n →
  let saved := NewsRepositoryImpl.SaveNews r (Some n) w in
  let cached := if NewsRepositoryImpl.useCache r
                then newsHit (cache.Get cache.KNews later ("news:" +:+ ID n) zeroNews
                                (w_cache saved.2)).1
                else None in
  saved.1 = Ok ()
  ∧ (NewsRepositoryImpl.GetNews r (ID n) (atTime later (asStored saved.2))).1
    = Ok match cached with Some _ => n | None => storedNews n end.
Proof.
  intros Hup Hlaw. cbn zeta.
  destruct (SaveNews_up r n w Hup) as [Hok Hcache]. split; [done|].
  destruct (SaveNews_store r n w) as [Hstore _].
  destruct (find_upserted (NewsRepositoryImpl.byId (ID n)) n (w_news w)) as [Hup' Hfind];
    [by apply bool_decide_eq_true_2|done|].
  rewrite GetNews_run. cbn zeta. cbn [atTime asStored w_now w_cache w_news].
  unfold mongo.FindOne at 1, storedIn. cbn [mongo.outage mongo.docs].
  rewrite find_storedNews, Hstore, Hup', Hfind. cbn [fst fmap option_fmap option_map].
  destruct (NewsRepositoryImpl.useCache r); [|done].
  rewrite Hcache.
  specialize (Hlaw (w_now w) later ("news:" +:+ ID n) (NewsRepositoryImpl.cacheExpiry r)
                zeroNews (w_cache w)).
  destruct (cache.Get _ _ _ _ _).1 as [got|err]; [|done].
  unfold newsHit. destruct Hlaw as [->| ->].
  - by case_bool_decide.
  - rewrite bool_decide_eq_false_2; [done|]. by intros Hne.
Qed.

Lemma SaveStock_up (r : StockRepositoryImpl.t) (stock : Stock) (w : World C) :
  mongo.outage (w_stocks w) = None →
  let w' := (StockRepositoryImpl.SaveStock r (Some stock) w).2 in
  (StockRepositoryImpl.SaveStock r (Some stock) w).1 = Ok ()
  ∧ w_cache w'
    = (if StockRepositoryImpl.useCache r
       then (cache.Set' cache.KStock (w_now w) ("stock:" +:+ Ticker stock)
               (stamped (w_now w) stock) (StockRepositoryImpl.cacheExpiry r) (w_cache w)).2
       else w_cache w).
Proof.
  intros Hup. cbn zeta.
  unfold StockRepositoryImpl.SaveStock, StockRepositoryImpl.warmCache, stamped.
  run_monad. unfold onStocks, cacheSet, timeNow.
  unfold mongo.FindOne, mongo.ReplaceOne, mongo.InsertOne.
  destruct w as [c [docs out] nw up now log]. simpl in Hup. subst out. simpl.
  destruct (find _ docs) eqn:Hfind; simpl.
  - destruct (StockRepositoryImpl.useCache r); simpl; [|done].
    by destruct (cache.Set' _ _ _ _ _ _).
  - destruct (StockRepositoryImpl.useCache r); simpl; [|done].
    by destruct (cache.Set' _ _ _ _ _ _).
Qed.

(** A look-up that finds the ticker in the store, unless the cache supplies it. *)
Lemma GetStock_store_hit (r : StockRepositoryImpl.t) (ticker : string) (w : World C)
    (doc : StockDoc) :
  mongo.outage (w_stocks w) = None →
  find (StockRepositoryImpl.byTicker ticker) (mongo.docs (w_stocks w)) = Some doc →
  (StockRepositoryImpl.GetStock r ticker w).1
  = Ok (default (decodeStock doc)
          (if StockRepositoryImpl.useCache r
           then cacheHit (cache.Get cache.KStock (w_now w) ("stock:" +:+ ticker) zeroStock
                            (w_cache w)).1
           else None)).
Proof.
  intros Hup Hfind. destruct (StockRepositoryImpl.useCache r) eqn:Huse.
  - destruct (cache.Get cache.KStock (w_now w) ("stock:" +:+ ticker) zeroStock (w_cache w))
      as [cached c1] eqn:Hget.
    rewrite (GetStock_run r ticker w cached c1 Huse Hget). cbn [fst].
    destruct (cacheHit cached) as [s|]; [done|].
    unfold mongo.FindOne. by rewrite Hup, Hfind.
  - unfold StockRepositoryImpl.GetStock. rewrite Huse. cbv zeta.
    rewrite bind_run. unfold mret at 1, M_ret, mpure.
    rewrite bind_run. unfold try at 1. rewrite onStocks_FindOne.
    unfold mongo.FindOne. by rewrite Hup, Hfind.
Qed.

(** X21. A stock that was saved is the one a look-up of its ticker returns
    afterwards, at any time, stamped with the time of the save: with the
    store reachable [SaveStock] succeeds, and [GetStock], reading the
    collection as the server holds it, then returns the stamped stock: as it
    was written from a cache that reads its own writes, and with the stamp
    as a datetime of the store (cut to the millisecond, in UTC) from the
    store. *)
Theorem SaveStock_then_GetStock (r : StockRepositoryImpl.t) (stock : Stock) (later : Time)
    (w : World C) :
  mongo.outage (w_stocks w) = None →
  readsOwnWrites C cache.KStock (stamped (w_now w) stock) →
  let saved := StockRepositoryImpl.SaveStock r (Some stock) w in
  let cached := if StockRepositoryImpl.useCache r
                then cacheHit (cache.Get cache.KStock later ("stock:" +:+ Ticker stock)
                                 zeroStock (w_cache saved.2)).1
                else None in
  saved.1 = Ok ()
  ∧ (StockRepositoryImpl.GetStock r (Ticker stock) (atTime later (asStored saved.2))).1
    = Ok match cached with
         | Some _ => stamped (w_now w) stock
         | None => storedStock (stamped (w_now w) stock)
         end
  ∧ unixNano (w_now w) - Millisecond
    < unixNano (UpdatedAt (storedStock (stamped (w_now w) stock))) ≤ unixNano (w_now w).
Proof.
  intros Hup Hlaw. cbn zeta.
  destruct (SaveStock_up r stock w Hup) as [Hok Hcache]. split; [done|split].
  - destruct (SaveStock_store r stock w) as (Hstore & _ & _).
    destruct (find_upserted (StockRepositoryImpl.byTicker (Ticker stock))
                (DocStock (stamped (w_now w) stock)) (w_stocks w)) as [Hup' Hfind];
      [by apply bool_decide_eq_true_2|done|].
    rewrite (GetStock_store_hit r (Ticker stock) _
               (storedDoc (DocStock (stamped (w_now w) stock))));
      cbn [atTime asStored storedIn w_stocks w_now w_cache mongo.outage mongo.docs].
    + f_equal. destruct (StockRepositoryImpl.useCache r); [|done].
      rewrite Hcache.
      specialize (Hlaw (w_now w) later ("stock:" +:+ Ticker stock)
                    (StockRepositoryImpl.cacheExpiry r) zeroStock (w_cache w)).
      destruct (cache.Get _ _ _ _ _).1 as [got|err]; [|done].
      unfold cacheHit. destruct Hlaw as [->| ->].
      * by case_bool_decide.
      * rewrite bool_decide_eq_false_2; [done|]. by intros Hne.
    + by rewrite Hstore.
    + rewrite find_storedDoc, Hstore. exact (f_equal (fmap storedDoc) Hfind).
  - apply (DateTime_close (w_now w)).
Qed.
End SaveThenGet.

Section Loops.
Context `{!External} {C : Type} `{!cache.Cache C}.

Lemma repo_GetStocksFrom_spec (r : StockRepositoryImpl.t) (tickers : list string) :
  ∀ (stocks : list Stock) (w : World C),
    match (StockRepositoryImpl.GetStocksFrom r tickers stocks w).1 with
    | Ok all => ∃ more, all = stocks ++ more ∧ length more = length tickers
    | Fail err =>
        ∃ ticker cause, ticker ∈ tickers
          ∧ err = wrapError ("ошибка получения информации о " +:+ ticker) cause
    end.
Proof.
  induction tickers as [|ticker rest IH]; intros stocks w.
  - exists []. by rewrite app_nil_r.
  - cbn [StockRepositoryImpl.GetStocksFrom]. rewrite bind_run. unfold try at 1.
    destruct (StockRepositoryImpl.GetStock r ticker w) as [[stock|cause] w1].
    + specialize (IH (stocks ++ [stock]) w1).
      destruct (StockRepositoryImpl.GetStocksFrom r rest _ w1).1 as [all|err].
      * destruct IH as (more & -> & Hlen). exists (stock :: more).
        split; [by rewrite <-app_assoc|]. simpl. by rewrite Hlen.
      * destruct IH as (t & c & Hin & ->). exists t, c. split; [by right|done].
    + exists ticker, cause. split; [by left|done].
Qed.

Lemma MOEX_GetStock_ticker (m : MOEXAPIClient.t) (ticker : string) (w : World C)
    (stock : Stock) :
  MOEXAPIClient.useCache m = false →
  (MOEXAPIClient.GetStock m ticker w).1 = Ok stock → Ticker stock = ticker.
Proof.
  intros Hoff. unfold MOEXAPIClient.GetStock. rewrite Hoff. cbv zeta.
  run_monad. unfold httpDo, timeNow.
  destruct (w_upstream w _ _) as [err|err|status line [body|err]]; cbn; try done;
    (destruct (negb _); cbn; [done|]); [|done].
  destruct (json_DecodeObject body) as [data|err]; cbn; [|done].
  intros [= <-]. unfold parseStockFromResponse.
  repeat case_match; done.
Qed.

Lemma MOEX_GetStocksFrom_spec (m : MOEXAPIClient.t) (tickers : list string) :
  ∀ (stocks : list Stock) (w : World C),
    match (MOEXAPIClient.GetStocksFrom m tickers stocks w).1 with
    | Ok all =>
        ∃ more, all = stocks ++ more ∧ length more = length tickers
                ∧ (MOEXAPIClient.useCache m = false → Ticker <$> more = tickers)
    | Fail err =>
        ∃ ticker cause, ticker ∈ tickers
          ∧ err = wrapError ("ошибка получения информации о " +:+ ticker) cause
    end.
Proof.
  induction tickers as [|ticker rest IH]; intros stocks w.
  - exists []. by rewrite app_nil_r.
  - cbn [MOEXAPIClient.GetStocksFrom]. rewrite bind_run. unfold try at 1.
    pose proof (MOEX_GetStock_ticker m ticker w) as Hticker.
    destruct (MOEXAPIClient.GetStock m ticker w) as [[stock|cause] w1].
    + specialize (IH (stocks ++ [stock]) w1).
      destruct (MOEXAPIClient.GetStocksFrom m rest _ w1).1 as [all|err].
      * destruct IH as (more & -> & Hlen & Hnames). exists (stock :: more).
        split_and!; [by rewrite <-app_assoc|simpl; by rewrite Hlen|].
        intros Hoff. rewrite fmap_cons. by rewrite (Hnames Hoff), (Hticker stock Hoff).
      * destruct IH as (t & c & Hin & ->). exists t, c. split; [by right|done].
    + exists ticker, cause. split; [by left|done].
Qed.

(** X22. A look-up of several tickers returns, when it succeeds, one stock
    for each ticker asked, and when it fails names one of the tickers asked
    in its error; this holds for the repository (for a list that is not
    empty) and for the MOEX client. With its cache off the client returns
    the stocks of exactly the tickers asked, in their order. *)
Theorem GetStocks_one_per_ticker (r : StockRepositoryImpl.t) (m : MOEXAPIClient.t)
    (tickers : list string) (w : World C) :
  let outcome (res : result (list Stock)) (named : Prop) : Prop :=
    match res with
    | Ok stocks => length stocks = length tickers ∧ named
    | Fail err =>
        ∃ ticker cause, ticker ∈ tickers
          ∧ err = wrapError ("ошибка получения информации о " +:+ ticker) cause
    end in
  (tickers ≠ [] → outcome (StockRepositoryImpl.GetStocks r tickers w).1 True)
  ∧ outcome (MOEXAPIClient.GetStocks m tickers w).1 True
  ∧ (MOEXAPIClient.useCache m = false →
     ∀ stocks, (MOEXAPIClient.GetStocks m tickers w).1 = Ok stocks →
       Ticker <$> stocks = tickers).
Proof.
  cbn zeta. split_and!.
  - intros Hne. unfold StockRepositoryImpl.GetStocks.
    rewrite bool_decide_eq_false_2 by (by destruct tickers).
    pose proof (repo_GetStocksFrom_spec r tickers [] w) as Hspec.
    destruct (StockRepositoryImpl.GetStocksFrom r tickers [] w).1 as [all|err]; [|done].
    by destruct Hspec as (more & -> & Hlen).
  - unfold MOEXAPIClient.GetStocks.
    pose proof (MOEX_GetStocksFrom_spec m tickers [] w) as Hspec.
    destruct (MOEXAPIClient.GetStocksFrom m tickers [] w).1 as [all|err]; [|done].
    by destruct Hspec as (more & -> & Hlen & Hnames).
  - intros Hoff stocks. unfold MOEXAPIClient.GetStocks.
    pose proof (MOEX_GetStocksFrom_spec m tickers [] w) as Hspec.
    destruct (MOEXAPIClient.GetStocksFrom m tickers [] w).1 as [all|err]; [|done].
    destruct Hspec as (more & -> & Hlen & Hnames). intros [= <-]. by apply Hnames.
Qed.
End Loops.

Section ListLookups.
Context `{!External} {C : Type} `{!cache.Cache C}.

Lemma onNews_Find (filter : News → bool) (w : World C) :
  onNews EvNewsFind (mongo.Find filter) w
  = ((mongo.Find filter (w_news w)).1, logged EvNewsFind w).
Proof. unfold onNews, mongo.Find, logged. by destruct (mongo.outage (w_news w)). Qed.

(** One run of a list look-up that the cache does not answer and the store does. *)
Lemma lookupList_run (r : NewsRepositoryImpl.t) (cacheKey : string)
    (filter : News → bool) (miss : M (World C) (list News)) (w : World C) :
  (NewsRepositoryImpl.useCache r = true →
   listHit (cache.Get cache.KNewsList (w_now w) cacheKey [] (w_cache w)).1 = None) →
  mongo.outage (w_news w) = None →
  List.filter filter (mongo.docs (w_news w)) ≠ [] →
  NewsRepositoryImpl.lookupList r cacheKey filter miss w
  = (Ok (List.filter filter (mongo.docs (w_news w))),
     if NewsRepositoryImpl.useCache r
     then (cacheSet cache.KNewsList cacheKey (List.filter filter (mongo.docs (w_news w)))
             (NewsRepositoryImpl.cacheExpiry r)
             (logged EvNewsFind (cacheGet cache.KNewsList cacheKey [] w).2)).2
     else logged EvNewsFind w).
Proof.
  intros Hmiss Hup Hsome. unfold NewsRepositoryImpl.lookupList.
  assert (Hlen : (0 <? length (List.filter filter (mongo.docs (w_news w))))%nat = true).
  { apply Nat.ltb_lt. destruct (List.filter _ _); [done|simpl; lia]. }
  destruct (NewsRepositoryImpl.useCache r).
  - rewrite bind_run. rewrite bind_run. unfold try at 1. rewrite cacheGet_world.
    unfold mret at 1, M_ret, mpure. cbn [fst snd].
    fold (listHit (cache.Get cache.KNewsList (w_now w) cacheKey [] (w_cache w)).1).
    rewrite Hmiss by done.
    rewrite bind_run. unfold try at 1. rewrite onNews_Find. cbn [w_news fst].
    unfold mongo.Find. rewrite Hup. cbn [fst]. rewrite Hlen.
    by rewrite bind_run, warmCache_news.
  - rewrite bind_run. unfold mret at 1, M_ret, mpure.
    rewrite bind_run. unfold try at 1. rewrite onNews_Find. cbn [w_news fst].
    unfold mongo.Find. rewrite Hup. cbn [fst]. by rewrite Hlen.
Qed.

Lemma lookupList_store_hit (r : NewsRepositoryImpl.t) (cacheKey : string)
    (filter : News → bool) (miss : M (World C) (list News)) (w : World C) :
  (NewsRepositoryImpl.useCache r = true →
   listHit (cache.Get cache.KNewsList (w_now w) cacheKey [] (w_cache w)).1 = None) →
  mongo.outage (w_news w) = None →
  List.filter filter (mongo.docs (w_news w)) ≠ [] →
  let res := NewsRepositoryImpl.lookupList r cacheKey filter miss w in
  res.1 = Ok (List.filter filter (mongo.docs (w_news w)))
  ∧ w_news res.2 = w_news w ∧ w_stocks res.2 = w_stocks w
  ∧ ∃ evs, w_log res.2 = w_log w ++ evs ∧ existsb isHTTP evs = false
           ∧ (NewsRepositoryImpl.useCache r = true →
              last evs = Some (EvCacheSet cacheKey (NewsRepositoryImpl.cacheExpiry r))).
Proof.
  intros Hmiss Hup Hsome. cbn zeta. rewrite lookupList_run by done.
  destruct (NewsRepositoryImpl.useCache r).
  - rewrite cacheSet_world, cacheGet_world. cbn [fst snd logged w_news w_stocks w_log].
    split_and!; try done. eexists [_; _; _]. rewrite <-!app_assoc. split; [done|]. done.
  - cbn [fst snd logged w_news w_stocks w_log].
    split_and!; try done. eexists [_]. split; [done|]. done.
Qed.

(** The day that [GetNewsByDate] looks up begins at a multiple of 24 hours
    of Unix time and holds the date asked. *)
Lemma Truncate_day (date : Time) :
  let start := unixNano (time.Truncate date (24 * Hour)) in
  start `mod` (24 * Hour) = 0
  ∧ start ≤ unixNano date < start + 24 * Hour
  ∧ unixNano (time.Add (time.Truncate date (24 * Hour)) (24 * Hour)) = start + 24 * Hour.
Proof.
  cbn zeta. unfold time.Truncate, time.Add, Hour. cbn [unixNano].
  pose proof (Z.mod_pos_bound (unixNano date) (24 * (3600 * 1000000000))) as Hb.
  split_and!; [|lia|lia|done].
  rewrite Zminus_mod, Zmod_mod, Z.sub_diag. done.
Qed.

(** X23. When the cache gives no list and the store holds matching items,
    the three list look-ups of the news repository return exactly the
    stored items that match, in the order of the store, without calling the
    provider or writing to a collection, and with caching on they end by
    writing the list to the cache under the key of the look-up. For
    [GetNewsByDate] the items that match are those published in the 24
    hours from a multiple of 24 hours of Unix time that hold the date
    asked. *)
Theorem list_lookups_served_by_store (r : NewsRepositoryImpl.t) (w : World C) :
  mongo.outage (w_news w) = None →
  let served (cacheKey : string) (filter : News → bool)
             (run : result (list News) * World C) : Prop :=
    (NewsRepositoryImpl.useCache r = true →
     listHit (cache.Get cache.KNewsList (w_now w) cacheKey [] (w_cache w)).1 = None) →
    List.filter filter (mongo.docs (w_news w)) ≠ [] →
    run.1 = Ok (List.filter filter (mongo.docs (w_news w)))
    ∧ w_news run.2 = w_news w ∧ w_stocks run.2 = w_stocks w
    ∧ ∃ evs, w_log run.2 = w_log w ++ evs ∧ existsb isHTTP evs = false
             ∧ (NewsRepositoryImpl.useCache r = true →
                last evs = Some (EvCacheSet cacheKey (NewsRepositoryImpl.cacheExpiry r))) in
  (∀ date,
     let start := unixNano date - unixNano date `mod` (24 * Hour) in
     start `mod` (24 * Hour) = 0 ∧ start ≤ unixNano date < start + 24 * Hour
     ∧ served ("news:date:" +:+ time.FormatDate (mkTime start (zoneOffset date)))
         (publishedOn start) (NewsRepositoryImpl.GetNewsByDate r date w))
  ∧ (∀ keyword, keyword ≠ "" →
       served ("news:keyword:" +:+ keyword) (mentionsKeyword keyword)
         (NewsRepositoryImpl.GetNewsByKeyword r keyword w))
  ∧ (∀ ticker, ticker ≠ "" →
       served ("news:ticker:" +:+ ticker) (mentionsTicker ticker)
         (NewsRepositoryImpl.GetNewsByTicker r ticker w)).
Proof.
  intros Hup. cbn zeta. split_and!.
  - intros date. destruct (Truncate_day date) as (Hmod & Hin & Hend).
    split_and!; [exact Hmod|apply Hin|apply Hin|].
    intros Hmiss Hsome. unfold NewsRepositoryImpl.GetNewsByDate. cbv zeta.
    rewrite Hend. by apply lookupList_store_hit.
  - intros keyword Hne Hmiss Hsome. unfold NewsRepositoryImpl.GetNewsByKeyword.
    rewrite bool_decide_eq_false_2 by done. by apply lookupList_store_hit.
  - intros ticker Hne Hmiss Hsome. unfold NewsRepositoryImpl.GetNewsByTicker.
    rewrite bool_decide_eq_false_2 by done. by apply lookupList_store_hit.
Qed.
End ListLookups.

Section SaveMany.
Context `{!External} {C : Type} `{!cache.Cache C}.

Lemma find_upserted_other (id : string) (n : News) (c : mongo.Collection News) :
  mongo.outage c = None → id ≠ ID n →
  find (NewsRepositoryImpl.byId id)
    (mongo.docs (upserted (NewsRepositoryImpl.byId (ID n)) n c))
  = find (NewsRepositoryImpl.byId id) (mongo.docs c).
Proof.
  intros Hup Hne. unfold upserted. rewrite Hup.
  assert (Hn : NewsRepositoryImpl.byId id n = false).
  { unfold NewsRepositoryImpl.byId. by rewrite bool_decide_eq_false_2. }
  destruct (find (NewsRepositoryImpl.byId (ID n)) (mongo.docs c)) eqn:Hfind;
    cbn [mongo.docs]; clear Hfind.
  - induction (mongo.docs c) as [|d l IH]; [done|]. cbn [mongo.replaceFirst].
    destruct (NewsRepositoryImpl.byId (ID n) d) eqn:Hd; cbn [find].
    + rewrite Hn. unfold NewsRepositoryImpl.byId in *.
      apply bool_decide_eq_true_1 in Hd.
      by rewrite (bool_decide_eq_false_2 (ID d = id)) by congruence.
    + by rewrite IH.
  - induction (mongo.docs c) as [|d l IH]; cbn [app find]; [by rewrite Hn|].
    by rewrite IH.
Qed.

Lemma lastSaved_cons (id : string) (n : News) (rest docs : list News)
    (c : mongo.Collection News) :
  mongo.outage c = None → mongo.docs c = docs →
  lastSaved id rest (mongo.docs (upserted (NewsRepositoryImpl.byId (ID n)) n c))
  = lastSaved id (n :: rest) docs.
Proof.
  intros Hup <-. unfold lastSaved.
  destruct (decide (ID n = id)) as [E|E].
  - rewrite filter_cons_True by done. rewrite last_cons.
    destruct (last (filter (λ m, ID m = id) rest)); [done|]. subst id.
    by destruct (find_upserted (NewsRepositoryImpl.byId (ID n)) n c) as [_ ->];
      [apply bool_decide_eq_true_2| |].
  - rewrite filter_cons_False by done.
    destruct (last _); [done|]. by apply find_upserted_other.
Qed.

Lemma SaveNews_world (r : NewsRepositoryImpl.t) (n : News) (w : World C) :
  mongo.outage (w_news w) = None →
  let w' := (NewsRepositoryImpl.SaveNews r (Some n) w).2 in
  (NewsRepositoryImpl.SaveNews r (Some n) w).1 = Ok ()
  ∧ w_news w' = upserted (NewsRepositoryImpl.byId (ID n)) n (w_news w)
  ∧ mongo.outage (w_news w') = None.
Proof.
  intros Hup. cbn zeta.
  destruct (SaveNews_up r n w Hup) as [Hok _].
  destruct (SaveNews_store r n w) as [Hstore _].
  split_and!; [done|done|]. rewrite Hstore.
  by destruct (find_upserted (NewsRepositoryImpl.byId (ID n)) n (w_news w)) as [-> _];
    [apply bool_decide_eq_true_2| |].
Qed.

Lemma SaveNews_down (r : NewsRepositoryImpl.t) (n : News) (w : World C) (err : error) :
  mongo.outage (w_news w) = Some err →
  (NewsRepositoryImpl.SaveNews r (Some n) w).1
  = Fail (wrapError "ошибка сохранения в базу данных" err)
  ∧ w_news (NewsRepositoryImpl.SaveNews r (Some n) w).2 = w_news w
  ∧ w_cache (NewsRepositoryImpl.SaveNews r (Some n) w).2 = w_cache w.
Proof.
  intros Hdown. unfold NewsRepositoryImpl.SaveNews. run_monad. unfold onNews.
  unfold mongo.FindOne, mongo.InsertOne.
  destruct w as [c st [docs out] up now log]. simpl in Hdown. subst out. done.
Qed.

Lemma saveEach_cons (r : NewsRepositoryImpl.t) (n : News) (rest : list News) (w : World C) :
  NewsRepositoryImpl.saveEach r (n :: rest) w
  = NewsRepositoryImpl.saveEach r rest (NewsRepositoryImpl.SaveNews r (Some n) w).2.
Proof.
  cbn [NewsRepositoryImpl.saveEach]. rewrite bind_run. unfold try at 1.
  by destruct (NewsRepositoryImpl.SaveNews r (Some n) w).
Qed.

Lemma SaveNewsCollection_cons (r : NewsRepositoryImpl.t) (n : News) (rest : list News)
    (w : World C) :
  NewsRepositoryImpl.SaveNewsCollection r (n :: rest) w
  = match NewsRepositoryImpl.SaveNews r (Some n) w with
    | (Ok _, w1) => NewsRepositoryImpl.SaveNewsCollection r rest w1
    | (Fail err, w1) => (Fail err, w1)
    end.
Proof. cbn [NewsRepositoryImpl.SaveNewsCollection]. by rewrite bind_run. Qed.

Lemma saveEach_spec (r : NewsRepositoryImpl.t) (news : list News) :
  ∀ w : World C, mongo.outage (w_news w) = None →
    let w' := (NewsRepositoryImpl.saveEach r news w).2 in
    (NewsRepositoryImpl.saveEach r news w).1 = Ok ()
    ∧ mongo.outage (w_news w') = None
    ∧ ∀ id, find (NewsRepositoryImpl.byId id) (mongo.docs (w_news w'))
            = lastSaved id news (mongo.docs (w_news w)).
Proof.
  induction news as [|n rest IH]; intros w Hup; cbn zeta.
  - done.
  - rewrite saveEach_cons.
    destruct (SaveNews_world r n w Hup) as (Hok & Hstore & Hup1).
    destruct (IH _ Hup1) as (Hok' & Hup' & Hfind).
    split_and!; [done|done|]. intros id. rewrite Hfind, Hstore.
    by apply lastSaved_cons.
Qed.

Lemma saveEach_Ok (r : NewsRepositoryImpl.t) (news : list News) (w : World C) :
  (NewsRepositoryImpl.saveEach r news w).1 = Ok ().
Proof.
  revert w. induction news as [|n rest IH]; intros w; [done|].
  rewrite saveEach_cons. apply IH.
Qed.

Lemma SaveNewsCollection_up (r : NewsRepositoryImpl.t) (news : list News) :
  ∀ w : World C, mongo.outage (w_news w) = None →
    (NewsRepositoryImpl.SaveNewsCollection r news w).1 = Ok ()
    ∧ ∀ id, find (NewsRepositoryImpl.byId id)
              (mongo.docs (w_news (NewsRepositoryImpl.SaveNewsCollection r news w).2))
            = lastSaved id news (mongo.docs (w_news w)).
Proof.
  induction news as [|n rest IH]; intros w Hup; [done|].
  rewrite SaveNewsCollection_cons.
  destruct (SaveNews_world r n w Hup) as (Hok & Hstore & Hup1).
  destruct (NewsRepositoryImpl.SaveNews r (Some n) w) as [res w1].
  cbn [fst snd] in *. subst res. destruct (IH w1 Hup1) as (Hok' & Hfind).
  split; [done|]. intros id. rewrite Hfind, Hstore. by apply lastSaved_cons.
Qed.

(** X24. With the store reachable [SaveNewsCollection] succeeds, and
    afterwards a look-up by id in the collection as the server holds it
    finds the last item of the list with that id, or, for an id that is not
    in the list, what it found before, with their times as datetimes of the
    store (whole milliseconds, in UTC) and every other field as it was
    saved. With the store unreachable a list that is not empty fails at its
    first item with the store's error, wrapped, and the collection and the
    cache are as before. *)
Theorem SaveNewsCollection_last_wins (r : NewsRepositoryImpl.t) (news : list News)
    (w : World C) :
  let res := NewsRepositoryImpl.SaveNewsCollection r news w in
  match mongo.outage (w_news w) with
  | None =>
      res.1 = Ok ()
      ∧ ∀ id, find (NewsRepositoryImpl.byId id)
                (mongo.docs (storedIn storedNews (w_news res.2)))
              = storedNews <$> lastSaved id news (mongo.docs (w_news w))
  | Some err =>
      news ≠ [] →
      res.1 = Fail (wrapError "ошибка сохранения в базу данных" err)
      ∧ w_news res.2 = w_news w ∧ w_cache res.2 = w_cache w
  end.
Proof.
  cbn zeta. destruct (mongo.outage (w_news w)) as [err|] eqn:Hout.
  - destruct news as [|n rest]; [done|]. intros _.
    rewrite SaveNewsCollection_cons.
    destruct (SaveNews_down r n w err Hout) as (Hfail & Hnews & Hcache).
    destruct (NewsRepositoryImpl.SaveNews r (Some n) w) as [res w1].
    cbn [fst snd] in *. by subst res.
  - destruct (SaveNewsCollection_up r news w Hout) as [Hok Hfind].
    split; [done|]. intros id. cbn [storedIn mongo.docs].
    by rewrite find_storedNews, Hfind.
Qed.
End SaveMany.

Section Providers.
Context `{!External} {C : Type} `{!cache.Cache C}.

(** The news client acts on the cache and on the network only. *)
Lemma NewsAPIClient_fetch_stores (n : NewsAPIClient.t) (cacheKey : string)
    (params : list (string * string)) (w : World C) :
  w_news (NewsAPIClient.fetch n cacheKey params w).2 = w_news w
  ∧ w_stocks (NewsAPIClient.fetch n cacheKey params w).2 = w_stocks w
  ∧ w_now (NewsAPIClient.fetch n cacheKey params w).2 = w_now w.
Proof.
  unfold NewsAPIClient.fetch. run_monad. unfold cacheGet, cacheSet, httpDo, timeNow.
  destruct w as [c st nw up now log]. cbn [w_cache w_stocks w_news w_upstream w_now w_log].
  repeat case_match; simplify_eq/=; done.
Qed.

End Providers.

(** ** How many requests a call makes *)

Section Requests.
Context `{!External} {C : Type} `{!cache.Cache C}.

Lemma requests_app (evs evs' : list Event) :
  requests (evs ++ evs') = (requests evs + requests evs')%nat.
Proof. unfold requests. by rewrite List.filter_app, length_app. Qed.

Lemma within_weaken {A} (k k' : nat) (m : M (World C) A) :
  (k ≤ k')%nat → requestsWithin k m → requestsWithin k' m.
Proof. intros Hk Hm w. destruct (Hm w) as (evs & Hlog & Hreq). exists evs. split; [done|lia]. Qed.

Lemma within_ret {A} (k : nat) (a : A) : requestsWithin (C := C) k (mret a).
Proof. intros w. exists []. split; [by rewrite app_nil_r|unfold requests; simpl; lia]. Qed.

Lemma within_fail {A} (k : nat) (err : error) : requestsWithin (C := C) (A := A) k (mfail err).
Proof. intros w. exists []. split; [by rewrite app_nil_r|unfold requests; simpl; lia]. Qed.

Lemma within_bind {A B} (k1 k2 : nat) (m : M (World C) A) (f : A → M (World C) B) :
  requestsWithin k1 m → (∀ a, requestsWithin k2 (f a)) → requestsWithin (k1 + k2) (m ≫= f).
Proof.
  intros Hm Hf w. rewrite bind_run. destruct (Hm w) as (evs & Hlog & Hreq).
  destruct (m w) as [[a|err] w1]; cbn [snd] in *.
  - destruct (Hf a w1) as (evs' & Hlog' & Hreq'). exists (evs ++ evs').
    split; [by rewrite Hlog', Hlog, app_assoc|]. rewrite requests_app. lia.
  - exists evs. split; [done|lia].
Qed.

Lemma within_bind_l {A B} (k : nat) (m : M (World C) A) (f : A → M (World C) B) :
  requestsWithin 0 m → (∀ a, requestsWithin k (f a)) → requestsWithin k (m ≫= f).
Proof. intros Hm Hf. by apply (within_bind 0 k). Qed.

Lemma within_bind_r {A B} (k : nat) (m : M (World C) A) (f : A → M (World C) B) :
  requestsWithin k m → (∀ a, requestsWithin 0 (f a)) → requestsWithin k (m ≫= f).
Proof.
  intros Hm Hf. apply (within_weaken (k + 0)); [lia|]. by apply within_bind.
Qed.

Lemma within_try {A} (k : nat) (m : M (World C) A) :
  requestsWithin k m → requestsWithin k (try m).
Proof.
  intros Hm w. destruct (Hm w) as (evs & Hlog & Hreq). exists evs.
  unfold try. by destruct (m w) as [[a|err] w1].
Qed.

Lemma within_timeNow (k : nat) : requestsWithin (C := C) k timeNow.
Proof. intros w. exists []. split; [by rewrite app_nil_r|unfold requests; simpl; lia]. Qed.

Lemma within_cacheGet (k : nat) (kind : cache.kind) (key : string) (dest : cache.typeOf kind) :
  requestsWithin k (cacheGet kind key dest).
Proof.
  intros w. rewrite cacheGet_world. exists [EvCacheGet key].
  split; [done|unfold requests; simpl; lia].
Qed.

Lemma within_cacheSet (k : nat) (kind : cache.kind) (key : string) (v : cache.typeOf kind)
    (ttl : Z) :
  requestsWithin k (cacheSet kind key v ttl).
Proof.
  intros w. rewrite cacheSet_world. exists [EvCacheSet key ttl].
  split; [done|unfold requests; simpl; lia].
Qed.

Lemma within_onStocks {A} (k : nat) (ev : Event) (op : M (mongo.Collection StockDoc) A) :
  isHTTP ev = false → requestsWithin (C := C) k (onStocks ev op).
Proof.
  intros Hev w. unfold onStocks. destruct (op (w_stocks w)) as [res c]. exists [ev].
  split; [done|]. unfold requests. simpl. rewrite Hev. simpl. lia.
Qed.

Lemma within_onNews {A} (k : nat) (ev : Event) (op : M (mongo.Collection News) A) :
  isHTTP ev = false → requestsWithin (C := C) k (onNews ev op).
Proof.
  intros Hev w. unfold onNews. destruct (op (w_news w)) as [res c]. exists [ev].
  split; [done|]. unfold requests. simpl. rewrite Hev. simpl. lia.
Qed.

Lemma within_httpDo (k : nat) (url : string) (params : list (string * string)) :
  requestsWithin (C := C) (S k) (httpDo url params).
Proof.
  intros w. exists [EvHTTP url params]. split; [done|unfold requests; simpl; lia].
Qed.
End Requests.

(** Splits a computation into its steps; the steps that make no request
    are closed at once. *)
Ltac within_free :=
  repeat first
    [ apply within_ret | apply within_fail | apply within_timeNow
    | match goal with
      | |- requestsWithin ?k (cacheGet ?kind ?key ?dest) =>
          exact (within_cacheGet k kind key dest)
      | |- requestsWithin ?k (cacheSet ?kind ?key ?v ?ttl) =>
          exact (within_cacheSet k kind key v ttl)
      end
    | apply within_onStocks; reflexivity | apply within_onNews; reflexivity
    | apply within_try
    | apply within_bind_l; [|intros ?]
    | match goal with
      | |- requestsWithin _ (match ?x with _ => _ end) => destruct x
      end ].

Section RequestBounds.
Context `{!External} {C : Type} `{!cache.Cache C}.

Lemma MOEXAPIClient_GetStock_within (m : MOEXAPIClient.t) (ticker : string) :
  requestsWithin (C := C) 1 (MOEXAPIClient.GetStock m ticker).
Proof.
  unfold MOEXAPIClient.GetStock. cbv zeta.
  apply within_bind_l; [within_free|intros cached].
  destruct cached; [within_free|].
  apply within_bind_r; [apply within_httpDo|intros resp]. within_free.
Qed.

Lemma NewsAPIClient_fetch_within (n : NewsAPIClient.t) (cacheKey : string)
    (params : list (string * string)) :
  requestsWithin (C := C) 1 (NewsAPIClient.fetch n cacheKey params).
Proof.
  unfold NewsAPIClient.fetch. cbv zeta.
  apply within_bind_l; [within_free|intros cached].
  destruct cached; [within_free|].
  apply within_bind_r; [apply within_httpDo|intros resp]. within_free.
Qed.
End RequestBounds.

Section StockRequests.
Context `{!External} {C : Type} `{!cache.Cache C}.

Lemma stock_warmCache_within (k : nat) (r : StockRepositoryImpl.t) (kind : cache.kind)
    (key : string) (v : cache.typeOf kind) :
  requestsWithin (C := C) k (StockRepositoryImpl.warmCache r kind key v).
Proof. unfold StockRepositoryImpl.warmCache. within_free. Qed.

Lemma repo_GetStock_within (r : StockRepositoryImpl.t) (ticker : string) :
  requestsWithin (C := C) 1 (StockRepositoryImpl.GetStock r ticker).
Proof.
  unfold StockRepositoryImpl.GetStock. cbv zeta.
  apply within_bind_l; [within_free|intros cached].
  destruct cached; [within_free|].
  apply within_bind_l; [within_free|intros found].
  destruct found as [doc|miss].
  - apply within_bind_l; [|within_free].
    destruct (StockRepositoryImpl.useCache r); [apply stock_warmCache_within|within_free].
  - apply within_bind_r.
    + unfold StockRepositoryImpl.fetchStockFromAPI.
      apply within_bind_r; [apply within_try, MOEXAPIClient_GetStock_within|].
      intros res. within_free.
    + intros stock. apply within_bind_l; [within_free|intros ins].
      destruct ins; [|within_free].
      apply within_bind_l; [|within_free].
      destruct (StockRepositoryImpl.useCache r); [apply stock_warmCache_within|within_free].
Qed.

Lemma repo_GetStocksFrom_within (r : StockRepositoryImpl.t) (tickers : list string)
    (stocks : list Stock) :
  requestsWithin (C := C) (length tickers) (StockRepositoryImpl.GetStocksFrom r tickers stocks).
Proof.
  revert stocks. induction tickers as [|ticker rest IH]; intros stocks.
  - apply within_ret.
  - cbn [StockRepositoryImpl.GetStocksFrom length].
    apply (within_bind 1 (length rest)); [apply within_try, repo_GetStock_within|].
    intros res. destruct res; [apply IH|within_free].
Qed.

Lemma MOEX_GetStocksFrom_within (m : MOEXAPIClient.t) (tickers : list string)
    (stocks : list Stock) :
  requestsWithin (C := C) (length tickers) (MOEXAPIClient.GetStocksFrom m tickers stocks).
Proof.
  revert stocks. induction tickers as [|ticker rest IH]; intros stocks.
  - apply within_ret.
  - cbn [MOEXAPIClient.GetStocksFrom length].
    apply (within_bind 1 (length rest)); [apply within_try, MOEXAPIClient_GetStock_within|].
    intros res. destruct res; [apply IH|within_free].
Qed.

Lemma insertAll_within (k : nat) (stocks : list Stock) :
  requestsWithin (C := C) k (StockRepositoryImpl.insertAll stocks).
Proof.
  induction stocks as [|stock rest IH]; [apply within_ret|].
  cbn [StockRepositoryImpl.insertAll].
  apply within_bind_l; [within_free|intros ins]. destruct ins; [apply IH|within_free].
Qed.

Lemma getAllStocks_within (r : StockRepositoryImpl.t) :
  requestsWithin (C := C) 14 (StockRepositoryImpl.getAllStocks r).
Proof.
  unfold StockRepositoryImpl.getAllStocks. cbv zeta.
  apply within_bind_l; [within_free|intros cached].
  destruct cached; [within_free|].
  apply within_bind_l; [within_free|intros found].
  destruct found as [docs|err]; [|within_free].
  destruct (0 <? _)%nat.
  - apply within_bind_l; [|within_free].
    destruct (StockRepositoryImpl.useCache r); [apply stock_warmCache_within|within_free].
  - apply within_bind_r.
    + unfold StockRepositoryImpl.fetchAllStocksFromAPI, MOEXAPIClient.GetStocks. cbv zeta.
      apply (MOEX_GetStocksFrom_within _ [_; _; _; _; _; _; _; _; _; _; _; _; _; _]).
    + intros stocks. apply within_bind_l; [apply insertAll_within|intros _].
      apply within_bind_l; [|within_free].
      destruct (_ && _); [apply stock_warmCache_within|within_free].
Qed.

Lemma repo_GetStocks_within (r : StockRepositoryImpl.t) (tickers : list string) :
  requestsWithin (C := C) (if bool_decide (tickers = []) then 14 else length tickers)
    (StockRepositoryImpl.GetStocks r tickers).
Proof.
  unfold StockRepositoryImpl.GetStocks. destruct tickers as [|ticker rest].
  - apply getAllStocks_within.
  - rewrite !bool_decide_eq_false_2 by done. apply repo_GetStocksFrom_within.
Qed.

(** X25. The stock repository and the services on top of it are sparing
    with the provider: a look-up of one ticker makes at most one request, a
    look-up of a list of tickers at most one for each ticker, and a look-up
    of the whole universe, which every ranking and every search starts
    with, at most 14, one for each of the default tickers. *)
Theorem stock_lookups_request_bounds (r : StockRepositoryImpl.t) :
  let repo := StockRepositoryImpl.StockRepository (C := C) r in
  (∀ ticker, requestsWithin (C := C) 1 (StockRepositoryImpl.GetStock r ticker))
  ∧ (∀ tickers, tickers ≠ [] →
       requestsWithin (C := C) (length tickers) (StockRepositoryImpl.GetStocks r tickers))
  ∧ requestsWithin (C := C) 14 (StockRepositoryImpl.GetStocks r [])
  ∧ (∀ ticker, requestsWithin 1 (@StockServiceImpl.GetStockInfo _ repo ticker))
  ∧ (∀ limit, requestsWithin 14 (@StockServiceImpl.GetMOEXTopGainers _ repo limit))
  ∧ (∀ limit, requestsWithin 14 (@StockServiceImpl.GetMOEXTopLosers _ repo limit))
  ∧ (∀ limit, requestsWithin 14 (@StockServiceImpl.GetMOEXTopVolume _ repo limit))
  ∧ (∀ query, requestsWithin 14 (@StockServiceImpl.SearchStocks _ repo query)).
Proof.
  cbn zeta. split_and!.
  - apply repo_GetStock_within.
  - intros tickers Hne. pose proof (repo_GetStocks_within r tickers) as Hb.
    by rewrite bool_decide_eq_false_2 in Hb.
  - apply (repo_GetStocks_within r []).
  - intros ticker. unfold StockServiceImpl.GetStockInfo.
    case_bool_decide; [apply within_fail|apply repo_GetStock_within].
  - intros limit. unfold StockServiceImpl.GetMOEXTopGainers. cbv zeta.
    apply within_bind_r; [apply (repo_GetStocks_within r [])|intros; apply within_ret].
  - intros limit. unfold StockServiceImpl.GetMOEXTopLosers. cbv zeta.
    apply within_bind_r; [apply (repo_GetStocks_within r [])|intros; apply within_ret].
  - intros limit. unfold StockServiceImpl.GetMOEXTopVolume. cbv zeta.
    apply within_bind_r; [apply (repo_GetStocks_within r [])|intros; apply within_ret].
  - intros query. unfold StockServiceImpl.SearchStocks. cbv zeta.
    case_bool_decide; [apply within_fail|].
    apply within_bind_r; [apply (repo_GetStocks_within r [])|intros; apply within_ret].
Qed.
End StockRequests.

Section NewsRequests.
Context `{!External} {C : Type} `{!cache.Cache C}.

Lemma news_warmCache_within (k : nat) (r : NewsRepositoryImpl.t) (kind : cache.kind)
    (key : string) (v : cache.typeOf kind) :
  requestsWithin (C := C) k (NewsRepositoryImpl.warmCache r kind key v).
Proof. unfold NewsRepositoryImpl.warmCache. within_free. Qed.

Lemma SaveNews_within (k : nat) (r : NewsRepositoryImpl.t) (news : option News) :
  requestsWithin (C := C) k (NewsRepositoryImpl.SaveNews r news).
Proof.
  unfold NewsRepositoryImpl.SaveNews. destruct news as [news|]; [|within_free].
  apply within_bind_l; [within_free|intros found].
  apply within_bind_l; [destruct found; within_free|intros res].
  destruct res; [|within_free].
  apply within_bind_l; [|within_free].
  destruct (NewsRepositoryImpl.useCache r); [apply news_warmCache_within|within_free].
Qed.

Lemma saveEach_within (k : nat) (r : NewsRepositoryImpl.t) (news : list News) :
  requestsWithin (C := C) k (NewsRepositoryImpl.saveEach r news).
Proof.
  induction news as [|n rest IH]; [apply within_ret|].
  cbn [NewsRepositoryImpl.saveEach].
  apply within_bind_l; [apply within_try, SaveNews_within|intros _; apply IH].
Qed.

Lemma fetchTodayNewsFromAPI_within (r : NewsRepositoryImpl.t) :
  requestsWithin (C := C) 1 (NewsRepositoryImpl.fetchTodayNewsFromAPI r).
Proof.
  unfold NewsRepositoryImpl.fetchTodayNewsFromAPI.
  apply within_bind_r.
  - apply within_try. unfold NewsAPIClient.GetTodayNews. cbv zeta.
    apply within_bind_l; [within_free|intros now]. apply NewsAPIClient_fetch_within.
  - intros res. destruct res as [news|err]; [|within_free].
    apply within_bind_l; [apply saveEach_within|intros _].
    apply within_bind_l; [within_free|intros now].
    apply within_bind_l; [|within_free].
    destruct (_ && _); [apply news_warmCache_within|within_free].
Qed.

Lemma fetchNewsByKeywordFromAPI_within (r : NewsRepositoryImpl.t) (keyword : string) :
  requestsWithin (C := C) 1 (NewsRepositoryImpl.fetchNewsByKeywordFromAPI r keyword).
Proof.
  unfold NewsRepositoryImpl.fetchNewsByKeywordFromAPI.
  apply within_bind_r.
  - apply within_try. unfold NewsAPIClient.GetNewsByKeyword. cbv zeta.
    case_bool_decide; [apply within_fail|apply NewsAPIClient_fetch_within].
  - intros res. destruct res as [news|err]; [|within_free].
    apply within_bind_l; [apply saveEach_within|intros _].
    apply within_bind_l; [|within_free].
    destruct (_ && _); [apply news_warmCache_within|within_free].
Qed.

Lemma lookupList_within (k : nat) (r : NewsRepositoryImpl.t) (cacheKey : string)
    (filter : News → bool) (miss : M (World C) (list News)) :
  requestsWithin k miss →
  requestsWithin k (NewsRepositoryImpl.lookupList r cacheKey filter miss).
Proof.
  intros Hmiss. unfold NewsRepositoryImpl.lookupList.
  apply within_bind_l; [within_free|intros cached].
  destruct cached; [within_free|].
  apply within_bind_l; [within_free|intros found].
  destruct found as [news|err]; [|within_free].
  destruct (0 <? _)%nat; [|exact Hmiss].
  apply within_bind_l; [|within_free].
  destruct (NewsRepositoryImpl.useCache r); [apply news_warmCache_within|within_free].
Qed.

Lemma GetNewsByDate_within (r : NewsRepositoryImpl.t) (date : Time) :
  requestsWithin (C := C) 1 (NewsRepositoryImpl.GetNewsByDate r date).
Proof.
  unfold NewsRepositoryImpl.GetNewsByDate. cbv zeta. apply lookupList_within.
  apply within_bind_l; [within_free|intros now].
  destruct (NewsRepositoryImpl.sameCalendarDay _ _);
    [apply fetchTodayNewsFromAPI_within|apply within_ret].
Qed.

Lemma GetNewsForToday_within (r : NewsRepositoryImpl.t) :
  requestsWithin (C := C) 1 (NewsRepositoryImpl.GetNewsForToday r).
Proof.
  unfold NewsRepositoryImpl.GetNewsForToday.
  apply within_bind_l; [within_free|intros now]. apply GetNewsByDate_within.
Qed.

Lemma GetNewsByKeyword_within (r : NewsRepositoryImpl.t) (keyword : string) :
  requestsWithin (C := C) 1 (NewsRepositoryImpl.GetNewsByKeyword r keyword).
Proof.
  unfold NewsRepositoryImpl.GetNewsByKeyword.
  case_bool_decide; [apply within_fail|].
  apply lookupList_within, fetchNewsByKeywordFromAPI_within.
Qed.

Lemma GetNewsByTicker_within (r : NewsRepositoryImpl.t) (ticker : string) :
  requestsWithin (C := C) 1 (NewsRepositoryImpl.GetNewsByTicker r ticker).
Proof.
  unfold NewsRepositoryImpl.GetNewsByTicker.
  case_bool_decide; [apply within_fail|].
  apply lookupList_within, fetchNewsByKeywordFromAPI_within.
Qed.

(** X26. Every list look-up of the news repository, and every method of
    the news service on top of it, makes at most one request to the
    provider, however many items it stores afterwards; saving news makes
    none. *)
Theorem news_lookups_request_bounds (r : NewsRepositoryImpl.t) :
  let repo := NewsRepositoryImpl.NewsRepository (C := C) r in
  (∀ date, requestsWithin (C := C) 1 (NewsRepositoryImpl.GetNewsByDate r date))
  ∧ requestsWithin (C := C) 1 (NewsRepositoryImpl.GetNewsForToday r)
  ∧ (∀ keyword, requestsWithin (C := C) 1 (NewsRepositoryImpl.GetNewsByKeyword r keyword))
  ∧ (∀ ticker, requestsWithin (C := C) 1 (NewsRepositoryImpl.GetNewsByTicker r ticker))
  ∧ (∀ news, requestsWithin (C := C) 0 (NewsRepositoryImpl.SaveNews r news))
  ∧ (∀ news, requestsWithin (C := C) 0 (NewsRepositoryImpl.SaveNewsCollection r news))
  ∧ requestsWithin 1 (@NewsServiceImpl.GetTodayNews _ repo)
  ∧ (∀ limit, requestsWithin 1 (@NewsServiceImpl.GetRecentNews _ repo limit))
  ∧ (∀ keyword, requestsWithin 1 (@NewsServiceImpl.SearchNewsByKeyword _ repo keyword))
  ∧ (∀ ticker, requestsWithin 1 (@NewsServiceImpl.GetNewsForTicker _ repo ticker))
  ∧ (∀ tickers, requestsWithin 1 (@NewsServiceImpl.GetNewsForMultipleTickers _ repo tickers)).
Proof.
  cbn zeta. split_and!.
  - apply GetNewsByDate_within.
  - apply GetNewsForToday_within.
  - apply GetNewsByKeyword_within.
  - apply GetNewsByTicker_within.
  - intros news. apply SaveNews_within.
  - intros news. induction news as [|n rest IH]; [apply within_ret|].
    cbn [NewsRepositoryImpl.SaveNewsCollection].
    apply within_bind_l; [apply SaveNews_within|intros _; apply IH].
  - apply GetNewsForToday_within.
  - intros limit. unfold NewsServiceImpl.GetRecentNews. cbv zeta.
    apply within_bind_r; [apply GetNewsForToday_within|intros; apply within_ret].
  - intros keyword. unfold NewsServiceImpl.SearchNewsByKeyword.
    case_bool_decide; [apply within_fail|apply GetNewsByKeyword_within].
  - intros ticker. unfold NewsServiceImpl.GetNewsForTicker.
    case_bool_decide; [apply within_fail|apply GetNewsByTicker_within].
  - intros tickers. unfold NewsServiceImpl.GetNewsForMultipleTickers.
    case_bool_decide; [apply within_fail|].
    apply within_bind_r; [apply GetNewsForToday_within|intros; apply within_ret].
Qed.
End NewsRequests.

Section Fetched.
Context `{!External} {C : Type} `{!cache.Cache C}.

Lemma saveEach_down (r : NewsRepositoryImpl.t) (news : list News) (w : World C) (err : error) :
  mongo.outage (w_news w) = Some err →
  w_news (NewsRepositoryImpl.saveEach r news w).2 = w_news w.
Proof.
  revert w. induction news as [|n rest IH]; intros w Hdown; [done|].
  rewrite saveEach_cons. destruct (SaveNews_down r n w err Hdown) as (_ & Hnews & _).
  rewrite IH; [done|]. by rewrite Hnews.
Qed.

(** What the items fetched from the provider leave in the collection. *)
Lemma saveEach_collection (r : NewsRepositoryImpl.t) (news : list News) (w : World C) :
  match mongo.outage (w_news w) with
  | None =>
      ∀ id, find (NewsRepositoryImpl.byId id)
              (mongo.docs (w_news (NewsRepositoryImpl.saveEach r news w).2))
            = lastSaved id news (mongo.docs (w_news w))
  | Some _ => w_news (NewsRepositoryImpl.saveEach r news w).2 = w_news w
  end.
Proof.
  destruct (mongo.outage (w_news w)) as [err|] eqn:Hout.
  - by apply (saveEach_down r news w err).
  - by destruct (saveEach_spec r news w Hout) as (_ & _ & Hfind).
Qed.

Lemma fetchTodayNewsFromAPI_run (r : NewsRepositoryImpl.t) (w w1 : World C)
    (news : list News) :
  NewsAPIClient.GetTodayNews (NewsRepositoryImpl.newsAPI r) w = (Ok news, w1) →
  ∃ w', NewsRepositoryImpl.fetchTodayNewsFromAPI r w = (Ok news, w')
        ∧ w_news w' = w_news (NewsRepositoryImpl.saveEach r news w1).2.
Proof.
  intros Hfetch. unfold NewsRepositoryImpl.fetchTodayNewsFromAPI.
  rewrite bind_run. unfold try at 1. rewrite Hfetch. rewrite bind_run.
  pose proof (saveEach_Ok r news w1) as Hok.
  destruct (NewsRepositoryImpl.saveEach r news w1) as [res w2]. cbn [fst snd] in *.
  subst res. rewrite bind_run. unfold timeNow at 1. rewrite bind_run.
  destruct (_ && _); [rewrite warmCache_news, cacheSet_world|]; by eexists.
Qed.

Lemma fetchNewsByKeywordFromAPI_run (r : NewsRepositoryImpl.t) (keyword : string)
    (w w1 : World C) (news : list News) :
  NewsAPIClient.GetNewsByKeyword (NewsRepositoryImpl.newsAPI r) keyword w = (Ok news, w1) →
  ∃ w', NewsRepositoryImpl.fetchNewsByKeywordFromAPI r keyword w = (Ok news, w')
        ∧ w_news w' = w_news (NewsRepositoryImpl.saveEach r news w1).2.
Proof.
  intros Hfetch. unfold NewsRepositoryImpl.fetchNewsByKeywordFromAPI.
  rewrite bind_run. unfold try at 1. rewrite Hfetch. rewrite bind_run.
  pose proof (saveEach_Ok r news w1) as Hok.
  destruct (NewsRepositoryImpl.saveEach r news w1) as [res w2]. cbn [fst snd] in *.
  subst res. rewrite bind_run.
  destruct (_ && _); [rewrite warmCache_news, cacheSet_world|]; by eexists.
Qed.

Lemma GetTodayNews_stores (n : NewsAPIClient.t) (w : World C) :
  w_news (NewsAPIClient.GetTodayNews n w).2 = w_news w.
Proof.
  unfold NewsAPIClient.GetTodayNews. rewrite bind_run. unfold timeNow at 1. cbv zeta.
  apply NewsAPIClient_fetch_stores.
Qed.

Lemma client_GetNewsByKeyword_stores (n : NewsAPIClient.t) (keyword : string) (w : World C) :
  w_news (NewsAPIClient.GetNewsByKeyword n keyword w).2 = w_news w.
Proof.
  unfold NewsAPIClient.GetNewsByKeyword. case_bool_decide; [done|]. cbv zeta.
  apply NewsAPIClient_fetch_stores.
Qed.

(** X27. The news that the provider returns are returned to the caller
    whether or not they could be stored: errors of [SaveNews] are dropped.
    With the store reachable a look-up by id in the collection as the server
    holds it finds afterwards the last fetched item with that id (or what
    was there, for another id), with its times as datetimes of the store
    (whole milliseconds, in UTC) and every other field as it was fetched;
    with the store unreachable the collection is as before. *)
Theorem fetched_news_returned_and_saved (r : NewsRepositoryImpl.t) (keyword : string)
    (w : World C) :
  let saved (news : list News) (w' : World C) : Prop :=
    match mongo.outage (w_news w) with
    | None => ∀ id, find (NewsRepositoryImpl.byId id)
                      (mongo.docs (storedIn storedNews (w_news w')))
                    = storedNews <$> lastSaved id news (mongo.docs (w_news w))
    | Some _ => w_news w' = w_news w
    end in
  (∀ news, (NewsAPIClient.GetTodayNews (NewsRepositoryImpl.newsAPI r) w).1 = Ok news →
     (NewsRepositoryImpl.fetchTodayNewsFromAPI r w).1 = Ok news
     ∧ saved news (NewsRepositoryImpl.fetchTodayNewsFromAPI r w).2)
  ∧ (∀ news, (NewsAPIClient.GetNewsByKeyword (NewsRepositoryImpl.newsAPI r) keyword w).1
             = Ok news →
       (NewsRepositoryImpl.fetchNewsByKeywordFromAPI r keyword w).1 = Ok news
       ∧ saved news (NewsRepositoryImpl.fetchNewsByKeywordFromAPI r keyword w).2).
Proof.
  assert (Hsaved : ∀ news w1, w_news w1 = w_news w →
            match mongo.outage (w_news w) with
            | None => ∀ id, find (NewsRepositoryImpl.byId id)
                              (mongo.docs (storedIn storedNews
                                 (w_news (NewsRepositoryImpl.saveEach r news w1).2)))
                            = storedNews <$> lastSaved id news (mongo.docs (w_news w))
            | Some _ => w_news (NewsRepositoryImpl.saveEach r news w1).2 = w_news w
            end).
  { intros news w1 Hst. pose proof (saveEach_collection r news w1) as Hsave.
    rewrite Hst in Hsave. destruct (mongo.outage (w_news w)); [done|].
    intros id. cbn [storedIn mongo.docs]. by rewrite find_storedNews, Hsave. }
  cbn zeta. split.
  - intros news Hfetch. pose proof (GetTodayNews_stores (NewsRepositoryImpl.newsAPI r) w) as Hst.
    destruct (NewsAPIClient.GetTodayNews _ w) as [res w1] eqn:Hrun. cbn [fst snd] in *.
    subst res. destruct (fetchTodayNewsFromAPI_run r w w1 news Hrun) as (w' & -> & Hw').
    cbn [fst snd]. rewrite Hw'. split; [done|]. by apply Hsaved.
  - intros news Hfetch.
    pose proof (client_GetNewsByKeyword_stores (NewsRepositoryImpl.newsAPI r) keyword w) as Hst.
    destruct (NewsAPIClient.GetNewsByKeyword _ keyword w) as [res w1] eqn:Hrun.
    cbn [fst snd] in *. subst res.
    destruct (fetchNewsByKeywordFromAPI_run r keyword w w1 news Hrun) as (w' & -> & Hw').
    cbn [fst snd]. rewrite Hw'. split; [done|]. by apply Hsaved.
Qed.
End Fetched.

(** ** A cache that cannot be reached *)

Section CacheDown.
Context `{!External} {C : Type} `{!cache.Cache C}.
Context (c : C) (Hdown : unavailable c).

Lemma sameButCacheLog_refl (w : World C) : sameButCacheLog w w.
Proof. by repeat split. Qed.

Lemma agrees_ret {A} (a : A) : agrees c (mret a) (mret a).
Proof. intros w1 w2 Hc Hs. done. Qed.

Lemma agrees_fail {A} (err : error) : agrees (A := A) c (mfail err) (mfail err).
Proof. intros w1 w2 Hc Hs. done. Qed.

Lemma agrees_bind {A B} (m1 m2 : M (World C) A) (f1 f2 : A → M (World C) B) :
  agrees c m1 m2 → (∀ a, agrees c (f1 a) (f2 a)) → agrees c (m1 ≫= f1) (m2 ≫= f2).
Proof.
  intros Hm Hf w1 w2 Hc Hs. rewrite !bind_run.
  destruct (Hm w1 w2 Hc Hs) as (Hres & Hc' & Hs').
  destruct (m1 w1) as [res1 w1'], (m2 w2) as [res2 w2']. cbn [fst snd] in *. subst res2.
  destruct res1 as [a|err]; [by apply Hf|done].
Qed.

Lemma agrees_try {A} (m1 m2 : M (World C) A) :
  agrees c m1 m2 → agrees c (try m1) (try m2).
Proof.
  intros Hm w1 w2 Hc Hs. unfold try.
  destruct (Hm w1 w2 Hc Hs) as (Hres & Hc' & Hs').
  destruct (m1 w1) as [res1 w1'], (m2 w2) as [res2 w2']. cbn [fst snd] in *. by subst res2.
Qed.

Lemma agrees_timeNow : agrees c timeNow timeNow.
Proof.
  intros w1 w2 Hc Hs. unfold timeNow. cbn [fst snd].
  split_and!; [|done|done]. f_equal. apply Hs.
Qed.

Lemma agrees_httpDo (url : string) (params : list (string * string)) :
  agrees c (httpDo url params) (httpDo url params).
Proof.
  intros w1 w2 Hc Hs. unfold httpDo. cbn [fst snd].
  destruct Hs as (H1 & H2 & H3 & H4 & H5 & H6).
  split_and!; [by rewrite H4|done|].
  repeat split; cbn; try done. by rewrite !List.filter_app, H6.
Qed.

Lemma agrees_onStocks {A} (ev : Event) (op : M (mongo.Collection StockDoc) A) :
  agrees c (onStocks ev op) (onStocks ev op).
Proof.
  intros w1 w2 Hc Hs. unfold onStocks.
  destruct Hs as (H1 & H2 & H3 & H4 & H5 & H6). rewrite H2.
  destruct (op (w_stocks w2)) as [res st]. cbn [fst snd].
  split_and!; [done|done|].
  repeat split; cbn; try done. by rewrite !List.filter_app, H6.
Qed.

Lemma agrees_onNews {A} (ev : Event) (op : M (mongo.Collection News) A) :
  agrees c (onNews ev op) (onNews ev op).
Proof.
  intros w1 w2 Hc Hs. unfold onNews.
  destruct Hs as (H1 & H2 & H3 & H4 & H5 & H6). rewrite H3.
  destruct (op (w_news w2)) as [res st]. cbn [fst snd].
  split_and!; [done|done|].
  repeat split; cbn; try done. by rewrite !List.filter_app, H6.
Qed.

(** A read of the cache supplies nothing. *)
Lemma agrees_cacheGet {A} (k : cache.kind) (key : string) (dest : cache.typeOf k)
    (hit : result (cache.typeOf k) → option A) :
  hit (Ok dest) = None → (∀ err, hit (Fail err) = None) →
  agrees c (r ← try (cacheGet k key dest); mret (hit r)) (mret None).
Proof.
  intros Hdest Herr w1 w2 Hc Hs. rewrite bind_run. unfold try. rewrite cacheGet_world.
  rewrite Hc. destruct Hdown as [Hget _].
  destruct (Hget k (w_now w1) key dest) as [Hsame Hres]. rewrite Hsame.
  unfold mret, M_ret, mpure. cbn [fst snd].
  destruct Hs as (H1 & H2 & H3 & H4 & H5 & H6).
  split_and!.
  - f_equal. destruct Hres as [->|[err ->]]; [done|apply Herr].
  - done.
  - repeat split; cbn; try done; try congruence.
    rewrite List.filter_app. cbn. by rewrite app_nil_r.
Qed.

(** A write to the cache leaves nothing. *)
Lemma agrees_cacheSet (k : cache.kind) (key : string) (v : cache.typeOf k) (ttl : Z) :
  agrees c (try (cacheSet k key v ttl) ;; mret ()) (mret ()).
Proof.
  intros w1 w2 Hc Hs. rewrite bind_run. unfold try.
  pose proof (cacheSet_world k key v ttl w1) as Hw.
  destruct (cacheSet k key v ttl w1) as [res w1']. cbn [snd] in Hw. subst w1'.
  rewrite Hc. destruct Hdown as [_ Hset]. rewrite Hset.
  unfold mret, M_ret, mpure. cbn [fst snd].
  destruct Hs as (H1 & H2 & H3 & H4 & H5 & H6).
  split_and!; [done|done|].
  repeat split; cbn; try done; try congruence.
  rewrite List.filter_app. cbn. by rewrite app_nil_r.
Qed.
End CacheDown.

Section CacheDownLookups.
Context `{!External} {C : Type} `{!cache.Cache C}.
Context (c : C) (Hdown : unavailable c).

Lemma MOEX_GetStock_agrees (m : MOEXAPIClient.t) (ticker : string) :
  agrees c (MOEXAPIClient.GetStock m ticker)
    (MOEXAPIClient.GetStock
       (MOEXAPIClient.mk (MOEXAPIClient.baseURL m) (MOEXAPIClient.cacheExpiry m)
          (MOEXAPIClient.apiKey m) false) ticker).
Proof.
  unfold MOEXAPIClient.GetStock. cbv zeta.
  cbn [MOEXAPIClient.useCache MOEXAPIClient.baseURL MOEXAPIClient.apiKey
       MOEXAPIClient.cacheExpiry].
  apply agrees_bind.
  - destruct (MOEXAPIClient.useCache m); [|apply agrees_ret].
    apply (agrees_cacheGet c Hdown cache.KStock); [done|done].
  - intros cached. destruct cached; [apply agrees_ret|].
    apply agrees_bind; [apply agrees_httpDo|intros resp].
    destruct resp as [err|err|status line body]; [apply agrees_fail..|].
    destruct (negb _); [apply agrees_fail|].
    destruct body as [body|err]; [|apply agrees_fail].
    destruct (json_DecodeObject body) as [data|err]; [|apply agrees_fail].
    apply agrees_bind; [apply agrees_timeNow|intros now].
    apply agrees_bind; [|intros; apply agrees_ret].
    destruct (MOEXAPIClient.useCache m); [by apply agrees_cacheSet|apply agrees_ret].
Qed.

Lemma repo_GetStock_agrees (r : StockRepositoryImpl.t) (ticker : string) :
  agrees c (StockRepositoryImpl.GetStock r ticker)
    (StockRepositoryImpl.GetStock (withoutCache r) ticker).
Proof.
  unfold StockRepositoryImpl.GetStock, withoutCache. cbv zeta.
  cbn [StockRepositoryImpl.useCache StockRepositoryImpl.moexAPI StockRepositoryImpl.cacheExpiry].
  apply agrees_bind.
  - destruct (StockRepositoryImpl.useCache r); [|apply agrees_ret].
    apply (agrees_cacheGet c Hdown cache.KStock); [done|done].
  - intros cached. destruct cached; [apply agrees_ret|].
    apply agrees_bind; [apply agrees_try, agrees_onStocks|intros found].
    destruct found as [doc|miss].
    + apply agrees_bind; [|intros; apply agrees_ret].
      destruct (StockRepositoryImpl.useCache r); [by apply agrees_cacheSet|apply agrees_ret].
    + apply agrees_bind.
      * unfold StockRepositoryImpl.fetchStockFromAPI. cbn [StockRepositoryImpl.moexAPI].
        apply agrees_bind; [apply agrees_try, MOEX_GetStock_agrees|intros res].
        destruct res; [apply agrees_ret|apply agrees_fail].
      * intros stock. apply agrees_bind; [apply agrees_try, agrees_onStocks|intros ins].
        destruct ins; [|apply agrees_fail].
        apply agrees_bind; [|intros; apply agrees_ret].
        destruct (StockRepositoryImpl.useCache r); [by apply agrees_cacheSet|apply agrees_ret].
Qed.

Lemma MOEX_GetStocksFrom_agrees (m : MOEXAPIClient.t) (tickers : list string)
    (stocks : list Stock) :
  agrees c (MOEXAPIClient.GetStocksFrom m tickers stocks)
    (MOEXAPIClient.GetStocksFrom
       (MOEXAPIClient.mk (MOEXAPIClient.baseURL m) (MOEXAPIClient.cacheExpiry m)
          (MOEXAPIClient.apiKey m) false) tickers stocks).
Proof.
  revert stocks. induction tickers as [|ticker rest IH]; intros stocks; [apply agrees_ret|].
  cbn [MOEXAPIClient.GetStocksFrom].
  apply agrees_bind; [apply agrees_try, MOEX_GetStock_agrees|intros res].
  destruct res; [apply IH|apply agrees_fail].
Qed.

Lemma repo_GetStocksFrom_agrees (r : StockRepositoryImpl.t) (tickers : list string)
    (stocks : list Stock) :
  agrees c (StockRepositoryImpl.GetStocksFrom r tickers stocks)
    (StockRepositoryImpl.GetStocksFrom (withoutCache r) tickers stocks).
Proof.
  revert stocks. induction tickers as [|ticker rest IH]; intros stocks; [apply agrees_ret|].
  cbn [StockRepositoryImpl.GetStocksFrom].
  apply agrees_bind; [apply agrees_try, repo_GetStock_agrees|intros res].
  destruct res; [apply IH|apply agrees_fail].
Qed.

Lemma insertAll_agrees (stocks : list Stock) :
  agrees c (StockRepositoryImpl.insertAll stocks) (StockRepositoryImpl.insertAll stocks).
Proof.
  induction stocks as [|stock rest IH]; [apply agrees_ret|].
  cbn [StockRepositoryImpl.insertAll].
  apply agrees_bind; [apply agrees_try, agrees_onStocks|intros ins].
  destruct ins; [apply IH|apply agrees_fail].
Qed.

Lemma getAllStocks_agrees (r : StockRepositoryImpl.t) :
  agrees c (StockRepositoryImpl.getAllStocks r)
    (StockRepositoryImpl.getAllStocks (withoutCache r)).
Proof.
  unfold StockRepositoryImpl.getAllStocks, withoutCache. cbv zeta.
  cbn [StockRepositoryImpl.useCache StockRepositoryImpl.moexAPI StockRepositoryImpl.cacheExpiry].
  apply agrees_bind.
  - destruct (StockRepositoryImpl.useCache r); [|apply agrees_ret].
    apply (agrees_cacheGet c Hdown cache.KStocks); [done|done].
  - intros cached. destruct cached; [apply agrees_ret|].
    apply agrees_bind; [apply agrees_try, agrees_onStocks|intros found].
    destruct found as [docs|err]; [|apply agrees_fail].
    destruct (0 <? _)%nat.
    + apply agrees_bind; [|intros; apply agrees_ret].
      destruct (StockRepositoryImpl.useCache r); [by apply agrees_cacheSet|apply agrees_ret].
    + apply agrees_bind.
      * unfold StockRepositoryImpl.fetchAllStocksFromAPI, MOEXAPIClient.GetStocks. cbv zeta.
        cbn [StockRepositoryImpl.moexAPI]. apply MOEX_GetStocksFrom_agrees.
      * intros stocks. apply agrees_bind; [apply insertAll_agrees|intros _].
        apply agrees_bind; [|intros; apply agrees_ret].
        rewrite andb_false_l.
        destruct (_ && _); [by apply agrees_cacheSet|apply agrees_ret].
Qed.

Lemma SaveStock_agrees (r : StockRepositoryImpl.t) (stock : option Stock) :
  agrees c (StockRepositoryImpl.SaveStock r stock)
    (StockRepositoryImpl.SaveStock (withoutCache r) stock).
Proof.
  unfold StockRepositoryImpl.SaveStock, withoutCache.
  cbn [StockRepositoryImpl.useCache StockRepositoryImpl.cacheExpiry].
  destruct stock as [stock|]; [|apply agrees_fail].
  apply agrees_bind; [apply agrees_timeNow|intros now]. cbv zeta.
  apply agrees_bind; [apply agrees_try, agrees_onStocks|intros found].
  apply agrees_bind; [destruct found; apply agrees_try, agrees_onStocks|intros res].
  destruct res; [|apply agrees_fail].
  apply agrees_bind; [|intros; apply agrees_ret].
  destruct (StockRepositoryImpl.useCache r); [by apply agrees_cacheSet|apply agrees_ret].
Qed.

Lemma repo_GetStocks_agrees (r : StockRepositoryImpl.t) (tickers : list string) :
  agrees c (StockRepositoryImpl.GetStocks r tickers)
    (StockRepositoryImpl.GetStocks (withoutCache r) tickers).
Proof.
  unfold StockRepositoryImpl.GetStocks.
  case_bool_decide; [apply getAllStocks_agrees|apply repo_GetStocksFrom_agrees].
Qed.
End CacheDownLookups.

Lemma RedisCache_unavailable `{!External} (c : RedisCache.t) (err : error) :
  RedisCache.outage c = Some err → @unavailable _ RedisCache.RedisCache_Cache c.
Proof.
  intros Hout. split.
  - intros k now key dest. cbn [cache.Get RedisCache.RedisCache_Cache].
    unfold RedisCache.Get. run_monad. unfold RedisCache.clientGet. rewrite Hout.
    destruct err; cbn; eauto.
  - intros k now key v ttl. cbn [cache.Set' RedisCache.RedisCache_Cache].
    unfold RedisCache.Set'. destruct (json_Marshal k v); [|done].
    unfold RedisCache.clientSet. by rewrite Hout.
Qed.

(** X28. A cache that cannot be reached changes nothing in what the stock
    repository returns or stores: with such a cache every look-up and every
    save returns what the same repository with caching switched off returns,
    leaves the same collections, and makes the same reads and writes of the
    store and the same requests to the provider, in the same order. A Redis
    server that is down is such a cache. *)
Theorem stock_lookups_survive_cache_outage `{!External} {C : Type} `{!cache.Cache C}
    (r : StockRepositoryImpl.t) (w : World C) :
  unavailable (w_cache w) →
  (∀ ticker, sameOutcome w (StockRepositoryImpl.GetStock r ticker)
               (StockRepositoryImpl.GetStock (withoutCache r) ticker))
  ∧ (∀ tickers, sameOutcome w (StockRepositoryImpl.GetStocks r tickers)
                  (StockRepositoryImpl.GetStocks (withoutCache r) tickers))
  ∧ (∀ stock, sameOutcome w (StockRepositoryImpl.SaveStock r stock)
                (StockRepositoryImpl.SaveStock (withoutCache r) stock))
  ∧ (∀ (c : RedisCache.t) err,
       RedisCache.outage c = Some err → @unavailable _ RedisCache.RedisCache_Cache c).
Proof.
  intros Hdown. split_and!; [| | |intros c err; apply RedisCache_unavailable].
  - intros ticker.
    destruct (repo_GetStock_agrees (w_cache w) Hdown r ticker w w eq_refl
                (sameButCacheLog_refl w)) as (Hres & _ & Hsame).
    by split.
  - intros tickers.
    destruct (repo_GetStocks_agrees (w_cache w) Hdown r tickers w w eq_refl
                (sameButCacheLog_refl w)) as (Hres & _ & Hsame).
    by split.
  - intros stock.
    destruct (SaveStock_agrees (w_cache w) Hdown r stock w w eq_refl
                (sameButCacheLog_refl w)) as (Hres & _ & Hsame).
    by split.
Qed.

Section CacheDownNews.
Context `{!External} {C : Type} `{!cache.Cache C}.
Context (c : C) (Hdown : unavailable c).

Lemma NewsAPIClient_fetch_agrees (n : NewsAPIClient.t) (cacheKey : string)
    (params : list (string * string)) :
  agrees c (NewsAPIClient.fetch n cacheKey params)
    (NewsAPIClient.fetch
       (NewsAPIClient.mk (NewsAPIClient.baseURL n) (NewsAPIClient.cacheExpiry n)
          (NewsAPIClient.apiKey n) false (NewsAPIClient.sources n)) cacheKey params).
Proof.
  unfold NewsAPIClient.fetch. cbv zeta.
  cbn [NewsAPIClient.useCache NewsAPIClient.baseURL NewsAPIClient.apiKey
       NewsAPIClient.cacheExpiry NewsAPIClient.sources].
  apply agrees_bind.
  - destruct (NewsAPIClient.useCache n); [|apply agrees_ret].
    apply (agrees_cacheGet c Hdown cache.KNewsList); [done|done].
  - intros cached. destruct cached; [apply agrees_ret|].
    apply agrees_bind; [apply agrees_httpDo|intros resp].
    destruct resp as [err|err|status line body]; [apply agrees_fail..|].
    destruct (negb _); [apply agrees_fail|].
    destruct body as [body|err]; [|apply agrees_fail].
    destruct (json_DecodeArticles body) as [articles|err]; [|apply agrees_fail].
    apply agrees_bind; [apply agrees_timeNow|intros now].
    apply agrees_bind; [|intros; apply agrees_ret].
    rewrite andb_false_l.
    destruct (_ && _); [by apply agrees_cacheSet|apply agrees_ret].
Qed.

Lemma SaveNews_agrees (r : NewsRepositoryImpl.t) (news : option News) :
  agrees c (NewsRepositoryImpl.SaveNews r news)
    (NewsRepositoryImpl.SaveNews (newsWithoutCache r) news).
Proof.
  unfold NewsRepositoryImpl.SaveNews, newsWithoutCache.
  cbn [NewsRepositoryImpl.useCache NewsRepositoryImpl.cacheExpiry].
  destruct news as [news|]; [|apply agrees_fail].
  apply agrees_bind; [apply agrees_try, agrees_onNews|intros found].
  apply agrees_bind; [destruct found; apply agrees_try, agrees_onNews|intros res].
  destruct res; [|apply agrees_fail].
  apply agrees_bind; [|intros; apply agrees_ret].
  destruct (NewsRepositoryImpl.useCache r); [by apply agrees_cacheSet|apply agrees_ret].
Qed.

Lemma saveEach_agrees (r : NewsRepositoryImpl.t) (news : list News) :
  agrees c (NewsRepositoryImpl.saveEach r news)
    (NewsRepositoryImpl.saveEach (newsWithoutCache r) news).
Proof.
  induction news as [|n rest IH]; [apply agrees_ret|].
  cbn [NewsRepositoryImpl.saveEach].
  apply agrees_bind; [apply agrees_try, SaveNews_agrees|intros _; apply IH].
Qed.

Lemma SaveNewsCollection_agrees (r : NewsRepositoryImpl.t) (news : list News) :
  agrees c (NewsRepositoryImpl.SaveNewsCollection r news)
    (NewsRepositoryImpl.SaveNewsCollection (newsWithoutCache r) news).
Proof.
  induction news as [|n rest IH]; [apply agrees_ret|].
  cbn [NewsRepositoryImpl.SaveNewsCollection].
  apply agrees_bind; [apply SaveNews_agrees|intros _; apply IH].
Qed.

Lemma fetchTodayNewsFromAPI_agrees (r : NewsRepositoryImpl.t) :
  agrees c (NewsRepositoryImpl.fetchTodayNewsFromAPI r)
    (NewsRepositoryImpl.fetchTodayNewsFromAPI (newsWithoutCache r)).
Proof.
  unfold NewsRepositoryImpl.fetchTodayNewsFromAPI.
  apply agrees_bind.
  - apply agrees_try. unfold NewsAPIClient.GetTodayNews. cbv zeta.
    apply agrees_bind; [apply agrees_timeNow|intros now].
    apply NewsAPIClient_fetch_agrees.
  - intros res. destruct res as [news|err]; [|apply agrees_fail].
    apply agrees_bind; [apply saveEach_agrees|intros _].
    apply agrees_bind; [apply agrees_timeNow|intros now].
    apply agrees_bind; [|intros; apply agrees_ret].
    unfold newsWithoutCache at 1. cbn [NewsRepositoryImpl.useCache]. rewrite andb_false_l.
    destruct (_ && _); [by apply agrees_cacheSet|apply agrees_ret].
Qed.

Lemma fetchNewsByKeywordFromAPI_agrees (r : NewsRepositoryImpl.t) (keyword : string) :
  agrees c (NewsRepositoryImpl.fetchNewsByKeywordFromAPI r keyword)
    (NewsRepositoryImpl.fetchNewsByKeywordFromAPI (newsWithoutCache r) keyword).
Proof.
  unfold NewsRepositoryImpl.fetchNewsByKeywordFromAPI.
  apply agrees_bind.
  - apply agrees_try. unfold NewsAPIClient.GetNewsByKeyword. cbv zeta.
    cbn [NewsAPIClient.apiKey newsWithoutCache NewsRepositoryImpl.newsAPI].
    case_bool_decide; [apply agrees_fail|apply NewsAPIClient_fetch_agrees].
  - intros res. destruct res as [news|err]; [|apply agrees_fail].
    apply agrees_bind; [apply saveEach_agrees|intros _].
    apply agrees_bind; [|intros; apply agrees_ret].
    unfold newsWithoutCache at 1. cbn [NewsRepositoryImpl.useCache]. rewrite andb_false_l.
    destruct (_ && _); [by apply agrees_cacheSet|apply agrees_ret].
Qed.

Lemma GetNews_agrees (r : NewsRepositoryImpl.t) (id : string) :
  agrees c (NewsRepositoryImpl.GetNews r id)
    (NewsRepositoryImpl.GetNews (newsWithoutCache r) id).
Proof.
  unfold NewsRepositoryImpl.GetNews, newsWithoutCache. cbv zeta.
  cbn [NewsRepositoryImpl.useCache NewsRepositoryImpl.cacheExpiry].
  apply agrees_bind.
  - destruct (NewsRepositoryImpl.useCache r); [|apply agrees_ret].
    apply (agrees_cacheGet c Hdown cache.KNews); [done|done].
  - intros cached. destruct cached; [apply agrees_ret|].
    apply agrees_bind; [apply agrees_try, agrees_onNews|intros found].
    destruct found as [news|miss]; [|apply agrees_fail].
    apply agrees_bind; [|intros; apply agrees_ret].
    destruct (NewsRepositoryImpl.useCache r); [by apply agrees_cacheSet|apply agrees_ret].
Qed.

Lemma lookupList_agrees (r : NewsRepositoryImpl.t) (cacheKey : string)
    (filter : News → bool) (miss miss' : M (World C) (list News)) :
  agrees c miss miss' →
  agrees c (NewsRepositoryImpl.lookupList r cacheKey filter miss)
    (NewsRepositoryImpl.lookupList (newsWithoutCache r) cacheKey filter miss').
Proof.
  intros Hmiss. unfold NewsRepositoryImpl.lookupList, newsWithoutCache.
  cbn [NewsRepositoryImpl.useCache NewsRepositoryImpl.cacheExpiry].
  apply agrees_bind.
  - destruct (NewsRepositoryImpl.useCache r); [|apply agrees_ret].
    apply (agrees_cacheGet c Hdown cache.KNewsList); [done|done].
  - intros cached. destruct cached; [apply agrees_ret|].
    apply agrees_bind; [apply agrees_try, agrees_onNews|intros found].
    destruct found as [news|err]; [|apply agrees_fail].
    destruct (0 <? _)%nat; [|exact Hmiss].
    apply agrees_bind; [|intros; apply agrees_ret].
    destruct (NewsRepositoryImpl.useCache r); [by apply agrees_cacheSet|apply agrees_ret].
Qed.

Lemma GetNewsByDate_agrees (r : NewsRepositoryImpl.t) (date : Time) :
  agrees c (NewsRepositoryImpl.GetNewsByDate r date)
    (NewsRepositoryImpl.GetNewsByDate (newsWithoutCache r) date).
Proof.
  unfold NewsRepositoryImpl.GetNewsByDate. cbv zeta. apply lookupList_agrees.
  apply agrees_bind; [apply agrees_timeNow|intros now].
  destruct (NewsRepositoryImpl.sameCalendarDay _ _);
    [apply fetchTodayNewsFromAPI_agrees|apply agrees_ret].
Qed.
End CacheDownNews.

(** X29. A cache that cannot be reached changes nothing in what the news
    repository returns or stores: with such a cache every look-up and every
    save returns what the same repository with caching switched off returns,
    leaves the same collections, and makes the same reads and writes of the
    store and the same requests to the provider, in the same order. *)
Theorem news_repository_survives_cache_outage `{!External} {C : Type} `{!cache.Cache C}
    (r : NewsRepositoryImpl.t) (w : World C) :
  unavailable (w_cache w) →
  let off := newsWithoutCache r in
  (∀ id, sameOutcome w (NewsRepositoryImpl.GetNews r id) (NewsRepositoryImpl.GetNews off id))
  ∧ (∀ date, sameOutcome w (NewsRepositoryImpl.GetNewsByDate r date)
               (NewsRepositoryImpl.GetNewsByDate off date))
  ∧ sameOutcome w (NewsRepositoryImpl.GetNewsForToday r) (NewsRepositoryImpl.GetNewsForToday off)
  ∧ (∀ keyword, sameOutcome w (NewsRepositoryImpl.GetNewsByKeyword r keyword)
                  (NewsRepositoryImpl.GetNewsByKeyword off keyword))
  ∧ (∀ ticker, sameOutcome w (NewsRepositoryImpl.GetNewsByTicker r ticker)
                 (NewsRepositoryImpl.GetNewsByTicker off ticker))
  ∧ (∀ news, sameOutcome w (NewsRepositoryImpl.SaveNews r news)
               (NewsRepositoryImpl.SaveNews off news))
  ∧ (∀ news, sameOutcome w (NewsRepositoryImpl.SaveNewsCollection r news)
               (NewsRepositoryImpl.SaveNewsCollection off news)).
Proof.
  intros Hdown off.
  assert (Hrun : ∀ A (m1 m2 : M (World C) A), agrees (w_cache w) m1 m2 → sameOutcome w m1 m2).
  { intros A m1 m2 Hm. destruct (Hm w w eq_refl (sameButCacheLog_refl w)) as (? & _ & ?).
    by split. }
  split_and!; intros; apply Hrun.
  - by apply GetNews_agrees.
  - by apply GetNewsByDate_agrees.
  - unfold NewsRepositoryImpl.GetNewsForToday.
    apply agrees_bind; [apply agrees_timeNow|intros now]. by apply GetNewsByDate_agrees.
  - unfold NewsRepositoryImpl.GetNewsByKeyword.
    case_bool_decide; [apply agrees_fail|].
    apply lookupList_agrees; [done|]. by apply fetchNewsByKeywordFromAPI_agrees.
  - unfold NewsRepositoryImpl.GetNewsByTicker.
    case_bool_decide; [apply agrees_fail|].
    apply lookupList_agrees; [done|]. by apply fetchNewsByKeywordFromAPI_agrees.
  - by apply SaveNews_agrees.
  - by apply SaveNewsCollection_agrees.
Qed.

Lemma SaveNews_then_GetNews_witness :
  (@NewsRepositoryImpl.GetNews _ Fixture.inMemory Fixture.newsRepo "rally"
     (atTime Fixture.noon
        (asStored (@NewsRepositoryImpl.SaveNews _ Fixture.inMemory Fixture.newsRepo
                     (Some Fixture.news1) Fixture.cold).2))).1
  = Ok Fixture.news1.
Proof.
  destruct (@SaveNews_then_GetNews _ Fixture.inMemory Fixture.newsRepo
              Fixture.news1 Fixture.noon Fixture.cold eq_refl) as [_ Hget].
  - apply (@InMemoryCache_readsOwnWrites Fixture.external).
    exists (existT cache.KNews Fixture.news1). split; reflexivity.
  - exact Hget.
Defined.

Lemma SaveStock_then_GetStock_witness :
  (@StockRepositoryImpl.GetStock Fixture.external _ Fixture.inMemory Fixture.stockRepo "SBER"
     (atTime Fixture.noon
        (asStored (@StockRepositoryImpl.SaveStock _ Fixture.inMemory Fixture.stockRepo
                     (Some Fixture.sber) Fixture.cold).2))).1
  = Ok Fixture.sber.
Proof.
  destruct (@SaveStock_then_GetStock Fixture.external _ Fixture.inMemory Fixture.stockRepo
              Fixture.sber Fixture.noon Fixture.cold eq_refl) as (_ & Hget & _).
  - apply (@InMemoryCache_readsOwnWrites Fixture.external).
    eexists. split; reflexivity.
  - exact Hget.
Defined.

Lemma list_lookups_served_by_store_witness :
  (@NewsRepositoryImpl.GetNewsByKeyword Fixture.external _ Fixture.inMemory Fixture.newsRepo
     "rally" Fixture.warm).1 = Ok [Fixture.news1].
Proof.
  destruct (@list_lookups_served_by_store Fixture.external _ Fixture.inMemory
              Fixture.newsRepo Fixture.warm eq_refl) as (_ & Hkeyword & _).
  destruct (Hkeyword "rally") as (Hres & _); [discriminate|reflexivity|discriminate|].
  exact Hres.
Defined.

Lemma stock_lookups_survive_cache_outage_witness :
  sameOutcome Fixture.cacheDown
    (@StockRepositoryImpl.GetStock Fixture.external _ RedisCache.RedisCache_Cache
       Fixture.stockRepo "SBER")
    (@StockRepositoryImpl.GetStock Fixture.external _ RedisCache.RedisCache_Cache
       (withoutCache Fixture.stockRepo) "SBER").
Proof.
  destruct (@stock_lookups_survive_cache_outage Fixture.external _
              RedisCache.RedisCache_Cache Fixture.stockRepo Fixture.cacheDown)
    as (Hget & _).
  - apply (@RedisCache_unavailable Fixture.external _
             (backendError "dial tcp: connection refused")). reflexivity.
  - apply Hget.
Defined.

Lemma news_repository_survives_cache_outage_witness :
  sameOutcome Fixture.cacheDown
    (@NewsRepositoryImpl.GetNewsByKeyword Fixture.external _ RedisCache.RedisCache_Cache
       Fixture.newsRepo "rally")
    (@NewsRepositoryImpl.GetNewsByKeyword Fixture.external _ RedisCache.RedisCache_Cache
       (newsWithoutCache Fixture.newsRepo) "rally").
Proof.
  destruct (@news_repository_survives_cache_outage Fixture.external _
              RedisCache.RedisCache_Cache Fixture.newsRepo Fixture.cacheDown)
    as (_ & _ & _ & Hkeyword & _).
  - apply (@RedisCache_unavailable Fixture.external _
             (backendError "dial tcp: connection refused")). reflexivity.
  - apply Hkeyword.
Defined.
